(** * Business_Card_Demo: the response repair pass and the REPL conversation

    A shallow embedding of the Python scripts of the repository:

    - [gradio_app.py], [ollama_Gradio.py], [ollama_moondream.py] and
      [new_gradio.py]: the four web-form variants of [parse_business_card];
    - [llama_cli.py] and [moondream_cli.py]: the REPL [chat_mode], and
      [main] and [process_query];
    - [ollama_moondream.py]: also the health check
      [check_model_availability].

    Python values are modelled as the interpreter has them: a [str] is a
    sequence of Unicode code points, a [dict] keeps its insertion order, an
    [int] is unbounded, a [float] is an IEEE 754 binary64 number.  The
    standard library functions the scripts call ([str.strip], [str.split],
    slicing, [json.loads], [json.dumps]) are modelled after CPython 3.11.
    Resource limits of the interpreter (recursion depth, the digit limit of
    [int], memory) are outside the model. *)

From Stdlib Require Import String Ascii List NArith ZArith Bool Lia.
From Stdlib Require Import SpecFloat.
From Stdlib Require DecimalPos DecimalN.
Import ListNotations.

(** ** Python [str] *)

Module PyStr.

(** A Python string: its code points, in order. *)
Definition pystr := list N.

(** An ASCII literal. *)
Definition py (s : string) : pystr := map N_of_ascii (list_ascii_of_string s).

(** An ASCII literal in which the apostrophe stands for the double quote
    (code point 34), so that JSON texts can be written legibly. *)
Definition pyq (s : string) : pystr :=
  map (fun c => if N.eqb c 39 then 34%N else c) (py s).

Definition LF : N := 10.
Definition DQUOTE : N := 34.
Definition BACKSLASH : N := 92.

Definition pystr_eqb (a b : pystr) : bool :=
  if list_eq_dec N.eq_dec a b then true else false.

(** [Py_UNICODE_ISSPACE]: the characters removed by [str.strip()]. *)
Definition isspace (c : N) : bool :=
  ((9 <=? c) && (c <=? 13) || (28 <=? c) && (c <=? 32)
   || (c =? 133) || (c =? 160) || (c =? 5760)
   || (8192 <=? c) && (c <=? 8202)
   || (c =? 8232) || (c =? 8233) || (c =? 8239) || (c =? 8287)
   || (c =? 12288))%N.

Fixpoint lstrip_with (p : N -> bool) (s : pystr) : pystr :=
  match s with
  | [] => []
  | c :: s' => if p c then lstrip_with p s' else s
  end.

Definition rstrip_with (p : N -> bool) (s : pystr) : pystr :=
  rev (lstrip_with p (rev s)).

Definition strip_with (p : N -> bool) (s : pystr) : pystr :=
  rstrip_with p (lstrip_with p s).

(** [s.strip()] *)
Definition strip : pystr -> pystr := strip_with isspace.

(** [s.strip(chars)] *)
Definition strip_chars (s chars : pystr) : pystr :=
  strip_with (fun c => existsb (N.eqb c) chars) s.

(** [s.startswith(prefix)] *)
Fixpoint startswith (s prefix : pystr) {struct prefix} : bool :=
  match prefix, s with
  | [], _ => true
  | _ :: _, [] => false
  | p :: prefix', c :: s' => N.eqb c p && startswith s' prefix'
  end.

(** [s.find(sub)], [None] standing for -1. *)
Fixpoint find (s sub : pystr) : option nat :=
  if startswith s sub then Some 0
  else match s with
       | [] => None
       | _ :: s' => option_map S (find s' sub)
       end.

(** [s.rfind(sub)], [None] standing for -1. *)
Fixpoint rfind (s sub : pystr) : option nat :=
  match s with
  | [] => if startswith [] sub then Some 0 else None
  | _ :: s' =>
      match rfind s' sub with
      | Some i => Some (S i)
      | None => if startswith s sub then Some 0 else None
      end
  end.

(** [sub in s] *)
Definition contains (s sub : pystr) : bool :=
  match find s sub with Some _ => true | None => false end.

(** [s[start:stop]] with Python's treatment of negative and out-of-range
    bounds; [None] is an omitted bound. *)
Definition adjust_index (len i : Z) : Z :=
  let i := if (i <? 0)%Z then (i + len)%Z else i in
  Z.max 0 (Z.min len i).

Definition slice (s : pystr) (start stop : option Z) : pystr :=
  let len := Z.of_nat (length s) in
  let a := match start with Some i => adjust_index len i | None => 0%Z end in
  let b := match stop with Some i => adjust_index len i | None => len end in
  firstn (Z.to_nat (b - a)) (skipn (Z.to_nat a) s).

(** [s.split(sep)] for a non-empty separator: the pieces between the
    non-overlapping occurrences of [sep], found from the left.  [skip]
    counts the characters of a separator still to be passed over and [cur]
    holds the current piece, reversed. *)
Fixpoint split_from (sep s : pystr) (skip : nat) (cur : pystr) : list pystr :=
  match s with
  | [] => [rev cur]
  | c :: s' =>
      match skip with
      | S k => split_from sep s' k cur
      | O =>
          if startswith s sep
          then rev cur :: split_from sep s' (length sep - 1) []
          else split_from sep s' 0 (c :: cur)
      end
  end.

Definition split (s sep : pystr) : list pystr := split_from sep s 0 [].

(** [s.split(sep, 1)] and [s.rsplit(sep, 1)] *)
Definition split1 (s sep : pystr) : list pystr :=
  match find s sep with
  | Some i => [firstn i s; skipn (i + length sep) s]
  | None => [s]
  end.

Definition rsplit1 (s sep : pystr) : list pystr :=
  match rfind s sep with
  | Some i => [firstn i s; skipn (i + length sep) s]
  | None => [s]
  end.

(** [s.lower()] restricted to what the scripts compare it with: the ASCII
    letters are folded, every other character is kept.  (No character
    outside ASCII lower-cases to one of the letters of the REPL commands as a
    single character.) *)
Definition lower_char (c : N) : N :=
  if ((65 <=? c) && (c <=? 90))%N then (c + 32)%N else c.

Definition lower (s : pystr) : pystr := map lower_char s.

(** Decimal digits: the code points '0'..'9' of a number in base ten, through
    the Standard Library's [Decimal.uint]. *)
Fixpoint codes_of_uint (d : Decimal.uint) : pystr :=
  match d with
  | Decimal.Nil => []
  | Decimal.D0 d => 48%N :: codes_of_uint d
  | Decimal.D1 d => 49%N :: codes_of_uint d
  | Decimal.D2 d => 50%N :: codes_of_uint d
  | Decimal.D3 d => 51%N :: codes_of_uint d
  | Decimal.D4 d => 52%N :: codes_of_uint d
  | Decimal.D5 d => 53%N :: codes_of_uint d
  | Decimal.D6 d => 54%N :: codes_of_uint d
  | Decimal.D7 d => 55%N :: codes_of_uint d
  | Decimal.D8 d => 56%N :: codes_of_uint d
  | Decimal.D9 d => 57%N :: codes_of_uint d
  end.

Definition isdigit (c : N) : bool := ((48 <=? c) && (c <=? 57))%N.

(** The digits of a run of ASCII digits; a character that is not a digit
    ends the run. *)
Fixpoint uint_of_codes (s : pystr) : Decimal.uint :=
  match s with
  | [] => Decimal.Nil
  | c :: s' =>
      let d := uint_of_codes s' in
      match c with
      | 48 => Decimal.D0 d | 49 => Decimal.D1 d | 50 => Decimal.D2 d
      | 51 => Decimal.D3 d | 52 => Decimal.D4 d | 53 => Decimal.D5 d
      | 54 => Decimal.D6 d | 55 => Decimal.D7 d | 56 => Decimal.D8 d
      | 57 => Decimal.D9 d
      | _ => Decimal.Nil
      end%N
  end.

(** [int(s)] for a run of ASCII digits and [str(n)] for an integer. *)
Definition N_of_codes (s : pystr) : N := N.of_uint (uint_of_codes s).

Definition str_of_N (n : N) : pystr := codes_of_uint (N.to_uint n).

Definition str_of_Z (z : Z) : pystr :=
  match z with
  | Zneg p => 45%N :: str_of_N (Npos p)
  | _ => str_of_N (Z.to_N z)
  end.

Definition str_of_nat (n : nat) : pystr := str_of_N (N.of_nat n).

End PyStr.
Import PyStr.

(** ** Exceptions and outcomes *)

Inductive exn_class :=
| JSONDecodeError        (* a subclass of ValueError *)
| ValueError
| TypeError
| IndexError
| UnboundLocalError
| OtherException         (* any other subclass of Exception *)
| KeyboardInterrupt.     (* a BaseException that is not an Exception *)

(** An exception object: its class and what [str(e)] gives. *)
Record exn := Exn { exn_cls : exn_class; exn_str : pystr }.

(** [isinstance(e, Exception)] and [isinstance(e, json.JSONDecodeError)] *)
Definition is_Exception (e : exn) : bool :=
  match exn_cls e with KeyboardInterrupt => false | _ => true end.

Definition is_JSONDecodeError (e : exn) : bool :=
  match exn_cls e with JSONDecodeError => true | _ => false end.

(** What evaluating a Python expression or running a block gives: a value,
    or a raised exception. *)
Inductive outcome (A : Type) :=
| Return (a : A)
| Raise (e : exn).
Arguments Return {A} a.
Arguments Raise {A} e.

(** ** JSON values, [json.loads] and [json.dumps] *)

Module Json.

(** What [json.loads] builds: [None], [bool], [int], [float], [str], [list]
    and [dict].  A [dict] is kept as its items in insertion order, with
    pairwise different keys. *)
Unset Elimination Schemes.
Inductive json :=
| JNone
| JBool (b : bool)
| JInt (n : Z)
| JFloat (x : spec_float)
| JStr (s : pystr)
| JList (items : list json)
| JDict (items : list (pystr * json)).
Set Elimination Schemes.

(** [d[k] = v]: an existing key keeps its place and takes the new value, a
    new key goes last. *)
Fixpoint dict_set {V : Type} (d : list (pystr * V)) (k : pystr) (v : V)
  : list (pystr * V) :=
  match d with
  | [] => [(k, v)]
  | (k', v') :: d' =>
      if pystr_eqb k k' then (k', v) :: d' else (k', v') :: dict_set d' k v
  end.

(** [d.get(k)] *)
Fixpoint dict_get {V : Type} (d : list (pystr * V)) (k : pystr) : option V :=
  match d with
  | [] => None
  | (k', v') :: d' => if pystr_eqb k k' then Some v' else dict_get d' k
  end.

(** *** binary64 *)

Definition prec : Z := 53.
Definition emax : Z := 1024.

(** [float(s)] for a decimal literal with sign [neg], digits [m] and decimal
    exponent [e]: the binary64 number nearest to [m * 10^e], ties to even. *)
Definition float_of_decimal (neg : bool) (m : N) (e : Z) : spec_float :=
  match m with
  | N0 => S754_zero neg
  | Npos p =>
      if (0 <=? e)%Z
      then binary_normalize prec emax
             ((if neg then Zneg p else Zpos p) * 10 ^ e)%Z 0%Z false
      else SFdiv prec emax (S754_finite neg p 0)
             (S754_finite false (Z.to_pos (10 ^ (- e))) 0)
  end.

(** *** The scanner ([_json.c], strict mode) *)

Inductive decode_error :=
| ExpectingValue
| ExtraData
| ExpectingPropertyName
| ExpectingColon
| ExpectingComma
| UnterminatedString
| InvalidControl
| InvalidEscape
| InvalidUnicodeEscape
| UnexpectedBOM
| FuelExhausted.   (* never produced by [json_decode], see [json_decode_fuel] *)

(** A scanning step gives a value and the rest of the text, or an error and
    the number of characters from the reported position to the end. *)
Definition scanned (A : Type) : Type := (A * pystr) + (decode_error * nat).

Definition is_json_ws (c : N) : bool :=
  ((c =? 32) || (c =? 9) || (c =? 10) || (c =? 13))%N.

Definition skip_ws (s : pystr) : pystr := lstrip_with is_json_ws s.

Definition hexval (c : N) : option N :=
  if ((48 <=? c) && (c <=? 57))%N then Some (c - 48)%N
  else if ((97 <=? c) && (c <=? 102))%N then Some (c - 87)%N
  else if ((65 <=? c) && (c <=? 70))%N then Some (c - 55)%N
  else None.

Definition hex4 (h1 h2 h3 h4 : N) : option N :=
  match hexval h1, hexval h2, hexval h3, hexval h4 with
  | Some a, Some b, Some c, Some d => Some (((a * 16 + b) * 16 + c) * 16 + d)%N
  | _, _, _, _ => None
  end.

Definition is_high_surrogate (c : N) : bool := ((55296 <=? c) && (c <=? 56319))%N.
Definition is_low_surrogate (c : N) : bool := ((56320 <=? c) && (c <=? 57343))%N.

(** [Py_UNICODE_JOIN_SURROGATES] *)
Definition join_surrogates (hi lo : N) : N :=
  (65536 + ((hi - 55296) * 1024 + (lo - 56320)))%N.

(** The one-character escapes after a backslash. *)
Definition unescape (c : N) : option N :=
  (if c =? 34 then Some 34 else if c =? 92 then Some 92
   else if c =? 47 then Some 47 else if c =? 98 then Some 8
   else if c =? 102 then Some 12 else if c =? 110 then Some 10
   else if c =? 114 then Some 13 else if c =? 116 then Some 9
   else None)%N.

(** [scanstring_unicode]: [s] is the text after the opening quote, [begin]
    the number of characters from the opening quote to the end, [acc] the
    characters decoded so far, reversed. *)
Fixpoint scanstring (begin : nat) (s : pystr) (acc : pystr) {struct s}
  : scanned pystr :=
  match s with
  | [] => inr (UnterminatedString, begin)
  | c :: s1 =>
      if (c =? 34)%N then inl (rev acc, s1)
      else if (c =? 92)%N then
        match s1 with
        | [] => inr (UnterminatedString, begin)
        | e :: s2 =>
            if (e =? 117)%N then
              match s2 with
              | h1 :: h2 :: h3 :: h4 :: ((_ :: _) as s6) =>
                  match hex4 h1 h2 h3 h4 with
                  | None => inr (InvalidUnicodeEscape, length s1)
                  | Some u =>
                      if is_high_surrogate u then
                        match s6 with
                        | b :: u' :: g1 :: g2 :: g3 :: g4 :: ((_ :: _) as s12) =>
                            if ((b =? 92) && (u' =? 117))%N then
                              match hex4 g1 g2 g3 g4 with
                              | None => inr (InvalidUnicodeEscape, 5 + length s12)
                              | Some u2 =>
                                  if is_low_surrogate u2
                                  then scanstring begin s12 (join_surrogates u u2 :: acc)
                                  else scanstring begin s6 (u :: acc)
                              end
                            else scanstring begin s6 (u :: acc)
                        | _ => scanstring begin s6 (u :: acc)
                        end
                      else scanstring begin s6 (u :: acc)
                  end
              | _ => inr (InvalidUnicodeEscape, length s1)
              end
            else
              match unescape e with
              | Some ch => scanstring begin s2 (ch :: acc)
              | None => inr (InvalidEscape, length s)
              end
        end
      else if (c <=? 31)%N then inr (InvalidControl, length s)
      else scanstring begin s1 (c :: acc)
  end.

(** The longest run of ASCII digits at the head of [s], and what follows. *)
Fixpoint span_digits (s : pystr) : pystr * pystr :=
  match s with
  | [] => ([], [])
  | c :: s' =>
      if isdigit c
      then let (ds, r) := span_digits s' in (c :: ds, r)
      else ([], s)
  end.

(** The parts of a number literal: sign, integer digits, fraction digits
    (empty when there is no fraction) and exponent (sign and digits). *)
Record number_parts := Number {
  num_neg : bool;
  num_int : pystr;
  num_frac : pystr;
  num_exp : option (bool * pystr)
}.

(** [_match_number_unicode], in its four steps: an optional minus sign; the
    integer digits, a lone zero or a run that does not start with zero; a
    fraction, when a dot is followed by a digit; an exponent, when [e] or
    [E] and an optional sign are followed by a digit (the sign is only
    looked at when a character follows it). *)
Definition take_sign (s : pystr) : bool * pystr :=
  match s with
  | c :: s' => if (c =? 45)%N then (true, s') else (false, s)
  | [] => (false, [])
  end.

Definition take_int (s : pystr) : option (pystr * pystr) :=
  match s with
  | c :: s' =>
      if (c =? 48)%N then Some ([c], s')
      else if isdigit c then let (ds, r) := span_digits s' in Some (c :: ds, r)
      else None
  | [] => None
  end.

Definition take_frac (s : pystr) : pystr * pystr :=
  match s with
  | dot :: d :: s' =>
      if ((dot =? 46)%N && isdigit d)%bool
      then let (ds, r) := span_digits s' in (d :: ds, r)
      else ([], s)
  | _ => ([], s)
  end.

Definition take_exp (s : pystr) : option (bool * pystr) * pystr :=
  match s with
  | e :: s' =>
      if ((e =? 101) || (e =? 69))%N then
        let (sgn, s'') :=
          match s' with
          | c :: t :: s3 =>
              if (c =? 45)%N then (true, t :: s3)
              else if (c =? 43)%N then (false, t :: s3)
              else (false, s')
          | _ => (false, s')
          end in
        match span_digits s'' with
        | ([], _) => (None, s)
        | (ds, r) => (Some (sgn, ds), r)
        end
      else (None, s)
  | [] => (None, [])
  end.

Definition match_number (s : pystr) : option (number_parts * pystr) :=
  let (neg, s1) := take_sign s in
  match take_int s1 with
  | None => None
  | Some (ints, r) =>
      let (frac, r1) := take_frac r in
      let (ex, r2) := take_exp r1 in
      Some (Number neg ints frac ex, r2)
  end.

(** The Python number a literal denotes: an [int] when it has neither
    fraction nor exponent, a [float] otherwise. *)
Definition number_value (p : number_parts) : json :=
  match num_frac p, num_exp p with
  | [], None =>
      let n := Z.of_N (N_of_codes (num_int p)) in
      JInt (if num_neg p then (- n)%Z else n)
  | frac, ex =>
      let e :=
        match ex with
        | Some (true, ds) => (- Z.of_N (N_of_codes ds))%Z
        | Some (false, ds) => Z.of_N (N_of_codes ds)
        | None => 0%Z
        end in
      JFloat (float_of_decimal (num_neg p) (N_of_codes (num_int p ++ frac))
                (e - Z.of_nat (length frac)))
  end.

(** [scan_once], [_parse_object_unicode] and [_parse_array_unicode].  The
    recursion of the scanner is on the text; here it is on [fuel], of which
    [json_decode] gives enough. *)
Fixpoint scan_once (fuel : nat) (s : pystr) {struct fuel} : scanned json :=
  match fuel with
  | O => inr (FuelExhausted, length s)
  | S fuel' =>
      match s with
      | [] => inr (ExpectingValue, 0)
      | c :: s1 =>
          if (c =? 34)%N then
            match scanstring (length s) s1 [] with
            | inl (str, r) => inl (JStr str, r)
            | inr e => inr e
            end
          else if (c =? 123)%N then
            match skip_ws s1 with
            | (c' :: r) as s2 =>
                if (c' =? 125)%N then inl (JDict [], r)
                else parse_object_items fuel' s2 []
            | [] => parse_object_items fuel' [] []
            end
          else if (c =? 91)%N then
            match skip_ws s1 with
            | (c' :: r) as s2 =>
                if (c' =? 93)%N then inl (JList [], r)
                else parse_array_items fuel' s2 []
            | [] => parse_array_items fuel' [] []
            end
          else if startswith s (py "null") then inl (JNone, skipn 4 s)
          else if startswith s (py "true") then inl (JBool true, skipn 4 s)
          else if startswith s (py "false") then inl (JBool false, skipn 5 s)
          else if startswith s (py "NaN") then inl (JFloat S754_nan, skipn 3 s)
          else if startswith s (py "Infinity")
          then inl (JFloat (S754_infinity false), skipn 8 s)
          else if startswith s (py "-Infinity")
          then inl (JFloat (S754_infinity true), skipn 9 s)
          else
            match match_number s with
            | Some (p, r) => inl (number_value p, r)
            | None => inr (ExpectingValue, length s)
            end
      end
  end

with parse_object_items (fuel : nat) (s : pystr) (acc : list (pystr * json))
       {struct fuel} : scanned json :=
  match fuel with
  | O => inr (FuelExhausted, length s)
  | S fuel' =>
      match s with
      | [] => inr (ExpectingPropertyName, 0)
      | c :: s1 =>
          if (c =? 34)%N then
            match scanstring (length s) s1 [] with
            | inr e => inr e
            | inl (key, r) =>
                match skip_ws r with
                | [] => inr (ExpectingColon, 0)
                | (c2 :: r1) as r0 =>
                    if (c2 =? 58)%N then
                      match scan_once fuel' (skip_ws r1) with
                      | inr e => inr e
                      | inl (v, r2) =>
                          let acc' := dict_set acc key v in
                          match skip_ws r2 with
                          | [] => inr (ExpectingComma, 0)
                          | (c3 :: r3) as r2' =>
                              if (c3 =? 125)%N then inl (JDict acc', r3)
                              else if (c3 =? 44)%N
                              then parse_object_items fuel' (skip_ws r3) acc'
                              else inr (ExpectingComma, length r2')
                          end
                      end
                    else inr (ExpectingColon, length r0)
                end
            end
          else inr (ExpectingPropertyName, length s)
      end
  end

with parse_array_items (fuel : nat) (s : pystr) (acc : list json)
       {struct fuel} : scanned json :=
  match fuel with
  | O => inr (FuelExhausted, length s)
  | S fuel' =>
      match scan_once fuel' s with
      | inr e => inr e
      | inl (v, r) =>
          match skip_ws r with
          | [] => inr (ExpectingComma, 0)
          | (c :: r1) as r0 =>
              if (c =? 93)%N then inl (JList (rev (v :: acc)), r1)
              else if (c =? 44)%N
              then parse_array_items fuel' (skip_ws r1) (v :: acc)
              else inr (ExpectingComma, length r0)
          end
      end
  end.

(** [JSONDecoder.decode] after the byte-order-mark test of [json.loads]. *)
Definition json_decode (s : pystr) : json + (decode_error * nat) :=
  if startswith s [65279%N] then inr (UnexpectedBOM, length s)
  else
    match scan_once (2 * length s + 2) (skip_ws s) with
    | inr e => inr e
    | inl (v, r) =>
        match skip_ws r with
        | [] => inl v
        | (_ :: _) as r' => inr (ExtraData, length r')
        end
    end.

(** The message of a [JSONDecodeError]: what went wrong, then the line, the
    column and the index of the reported position. *)
Definition decode_error_msg (e : decode_error) : pystr :=
  match e with
  | ExpectingValue => py "Expecting value"
  | ExtraData => py "Extra data"
  | ExpectingPropertyName => py "Expecting property name enclosed in double quotes"
  | ExpectingColon => py "Expecting ':' delimiter"
  | ExpectingComma => py "Expecting ',' delimiter"
  | UnterminatedString => py "Unterminated string starting at"
  | InvalidControl => py "Invalid control character at"
  | InvalidEscape => py "Invalid \escape"
  | InvalidUnicodeEscape => py "Invalid \uXXXX escape"
  | UnexpectedBOM => py "Unexpected UTF-8 BOM (decode using utf-8-sig)"
  | FuelExhausted => py "maximum recursion depth exceeded"
  end.

Definition JSONDecodeError_str (doc : pystr) (e : decode_error) (remaining : nat)
  : pystr :=
  let pos := length doc - remaining in
  let before := firstn pos doc in
  let lineno := S (count_occ N.eq_dec before LF) in
  let colno :=
    match rfind before [LF] with
    | Some i => pos - i
    | None => S pos
    end in
  decode_error_msg e ++ py ": line " ++ str_of_nat lineno
    ++ py " column " ++ str_of_nat colno
    ++ py " (char " ++ str_of_nat pos ++ py ")".

(** [json.loads(s)] *)
Definition loads (s : pystr) : outcome json :=
  match json_decode s with
  | inl v => Return v
  | inr (e, n) => Raise (Exn JSONDecodeError (JSONDecodeError_str s e n))
  end.

(** *** [json.dumps] with its default settings *)

Definition hexdigit (d : N) : N := if (d <? 10)%N then (48 + d)%N else (87 + d)%N.

(** The escape [\uXXXX] of a code point below 65536. *)
Definition u_escape (n : N) : pystr :=
  [92; 117; hexdigit (n / 4096 mod 16); hexdigit (n / 256 mod 16);
   hexdigit (n / 16 mod 16); hexdigit (n mod 16)]%N.

(** [encode_basestring_ascii]: printable ASCII is kept, the quote, the
    backslash and five control characters have short escapes, every other
    character is written as [\uXXXX], above the basic plane as a surrogate
    pair. *)
Definition escape_char (c : N) : pystr :=
  (if c =? 34 then [92; 34] else if c =? 92 then [92; 92]
   else if c =? 10 then [92; 110] else if c =? 13 then [92; 114]
   else if c =? 9 then [92; 116] else if c =? 12 then [92; 102]
   else if c =? 8 then [92; 98]
   else if (32 <=? c) && (c <=? 126) then [c]
   else if c <? 65536 then u_escape c
   else
     let v := c - 65536 in
     u_escape (55296 + (v / 1024) mod 1024) ++ u_escape (56320 + v mod 1024))%N.

Definition encode_basestring_ascii (s : pystr) : pystr :=
  34%N :: flat_map escape_char s ++ [34%N].

(** [float.__repr__]: the shortest decimal digits that read back as the
    same binary64 number (the nearest to it when there are two), written
    with an exponent when the decimal point would be far from the digits. *)

(** Is [p / q] below [10 ^ k]? *)
Definition below_pow10 (p q k : Z) : bool :=
  if (0 <=? k)%Z then (p <? q * 10 ^ k)%Z else (p * 10 ^ (- k) <? q)%Z.

(** The position of the decimal point: the [k] with
    [10 ^ (k - 1) <= p / q < 10 ^ k], found next to an estimate from the
    number of binary digits. *)
Definition decimal_point (p q bits : Z) : Z :=
  let k0 := ((bits - 1) * 30103 / 100000)%Z in
  if below_pow10 p q k0 then
    if below_pow10 p q (k0 - 1) then
      if below_pow10 p q (k0 - 2) then (k0 - 2)%Z else (k0 - 1)%Z
    else k0
  else if below_pow10 p q (k0 + 1) then (k0 + 1)%Z else (k0 + 2)%Z.

Definition spec_float_eqb (x y : spec_float) : bool :=
  match x, y with
  | S754_zero s, S754_zero s' => Bool.eqb s s'
  | S754_infinity s, S754_infinity s' => Bool.eqb s s'
  | S754_nan, S754_nan => true
  | S754_finite s m e, S754_finite s' m' e' =>
      Bool.eqb s s' && Pos.eqb m m' && Z.eqb e e'
  | _, _ => false
  end.

(** The [n]-digit decimal that reads back as the number, if there is one:
    its digits as an integer and its decimal exponent. *)
Definition digits_of_length (x : spec_float) (neg : bool) (p q k : Z) (n : nat)
  : option (N * Z) :=
  let ex := (k - Z.of_nat n)%Z in
  let num := if (ex <? 0)%Z then (p * 10 ^ (- ex))%Z else p in
  let den := if (ex <? 0)%Z then q else (q * 10 ^ ex)%Z in
  let lo := Z.to_N (num / den) in
  let r := (num mod den)%Z in
  let hi := (lo + 1)%N in
  let lo_ok := spec_float_eqb (float_of_decimal neg lo ex) x in
  let hi_ok := spec_float_eqb (float_of_decimal neg hi ex) x in
  if lo_ok && hi_ok then
    if (2 * r <? den)%Z then Some (lo, ex)
    else if (den <? 2 * r)%Z then Some (hi, ex)
    else if N.even lo then Some (lo, ex) else Some (hi, ex)
  else if lo_ok then Some (lo, ex)
  else if hi_ok then Some (hi, ex)
  else None.

Fixpoint shortest_digits (x : spec_float) (neg : bool) (p q k : Z)
    (n fuel : nat) : option (N * Z) :=
  match fuel with
  | O => None
  | S fuel' =>
      match digits_of_length x neg p q k n with
      | Some d => Some d
      | None => shortest_digits x neg p q k (S n) fuel'
      end
  end.

(** Trailing zeros of the digits go to the exponent. *)
Fixpoint drop_zeros (fuel : nat) (d : N) (ex : Z) : N * Z :=
  match fuel with
  | O => (d, ex)
  | S fuel' =>
      if ((d mod 10 =? 0) && negb (d =? 0))%N
      then drop_zeros fuel' (d / 10)%N (ex + 1)%Z
      else (d, ex)
  end.

Definition zeros (n : nat) : pystr := repeat 48%N n.

(** [format_float_short] for [repr]: [digits] with the decimal point after
    [decpt] of them. *)
Definition format_repr (digits : pystr) (decpt : Z) : pystr :=
  let n := Z.of_nat (length digits) in
  if ((decpt <=? -4) || (16 <? decpt))%Z then
    let ex := (decpt - 1)%Z in
    let mantissa :=
      match digits with
      | d :: (_ :: _) as more => d :: 46%N :: more
      | _ => digits
      end in
    let ex_digits := str_of_N (Z.to_N (Z.abs ex)) in
    mantissa ++ [101%N; if (ex <? 0)%Z then 45%N else 43%N]
      ++ (match ex_digits with [_] => [48%N] | _ => [] end) ++ ex_digits
  else if (decpt <=? 0)%Z then
    [48; 46]%N ++ zeros (Z.to_nat (- decpt)) ++ digits
  else if (n <=? decpt)%Z then
    digits ++ zeros (Z.to_nat (decpt - n)) ++ [46; 48]%N
  else
    firstn (Z.to_nat decpt) digits ++ [46%N] ++ skipn (Z.to_nat decpt) digits.

Definition float_repr (x : spec_float) : pystr :=
  match x with
  | S754_nan => py "nan"
  | S754_infinity false => py "inf"
  | S754_infinity true => py "-inf"
  | S754_zero false => py "0.0"
  | S754_zero true => py "-0.0"
  | S754_finite neg m e =>
      let p := if (0 <=? e)%Z then (Zpos m * 2 ^ e)%Z else Zpos m in
      let q := if (0 <=? e)%Z then 1%Z else (2 ^ (- e))%Z in
      let k := decimal_point p q (Zpos (digits2_pos m) + e) in
      match shortest_digits x neg p q k 1 17 with
      | Some (d, ex) =>
          let (d', ex') := drop_zeros 17 d ex in
          let digits := str_of_N d' in
          (if neg then [45%N] else [])
            ++ format_repr digits (ex' + Z.of_nat (length digits))
      | None => py "nan"
      end
  end.

(** [floatstr] of [json.encoder]. *)
Definition floatstr (x : spec_float) : pystr :=
  match x with
  | S754_nan => py "NaN"
  | S754_infinity false => py "Infinity"
  | S754_infinity true => py "-Infinity"
  | _ => float_repr x
  end.

(** [", ".join(pieces)] *)
Fixpoint join_comma (pieces : list pystr) : pystr :=
  match pieces with
  | [] => []
  | [p] => p
  | p :: more => p ++ [44; 32]%N ++ join_comma more
  end.

(** [json.dumps(v)] *)
Fixpoint dumps (v : json) : pystr :=
  match v with
  | JNone => py "null"
  | JBool true => py "true"
  | JBool false => py "false"
  | JInt n => str_of_Z n
  | JFloat x => floatstr x
  | JStr s => encode_basestring_ascii s
  | JList items => [91%N] ++ join_comma (map dumps items) ++ [93%N]
  | JDict items =>
      [123%N]
        ++ join_comma
             (map (fun kv => encode_basestring_ascii (fst kv) ++ [58; 32]%N
                             ++ dumps (snd kv)) items)
        ++ [125%N]
  end.

End Json.
Import Json.

(** ** Programs: external calls, one local variable, exceptions *)

(** A decoded image, as the web form hands it over. *)
Definition image := list N.

(** The calls a script makes to its collaborators: the image encoder, the
    OCR engine and the model backend (with the image or OCR text sent). *)
Inductive event :=
| EvEncode (img : image)
| EvOCR (img : image)
| EvChat (payload : pystr).

(** What the collaborators answer.  The instruction text of each request is
    a constant of the script; the backend's answer is given as a function of
    the variable part of the request, and is the [content] field of the
    reply (or the exception raised while obtaining it). *)
Record world := World {
  vlm_loaded : bool;                       (* gradio_app: llm and chat_handler are set *)
  llm_loaded : bool;                       (* new_gradio: llm is set *)
  encode_image : image -> outcome pystr;   (* image_to_data_uri, image_to_base64, pil_to_bytes *)
  image_to_string : image -> outcome pystr;  (* pytesseract.image_to_string *)
  chat_content : pystr -> outcome pystr    (* the content of the model's reply *)
}.

Module Prog.

(** A function body over a store [S]: it returns or raises, and leaves the
    store as the statements executed so far have made it. *)
Definition prog (S A : Type) : Type := S -> outcome A * S.

Section Combinators.
Context {S : Type}.

Definition ret {A : Type} (a : A) : prog S A := fun st => (Return a, st).

Definition bind {A B : Type} (m : prog S A) (k : A -> prog S B) : prog S B :=
  fun st =>
    match m st with
    | (Return a, st') => k a st'
    | (Raise e, st') => (Raise e, st')
    end.

(** An expression without effect on the store, which may raise. *)
Definition lift {A : Type} (r : outcome A) : prog S A := fun st => (r, st).

(** [try: body  except ...:]: [handlers e] is the handler of the first
    clause that matches [e], if any. *)
Definition try_except {A : Type} (body : prog S A)
    (handlers : exn -> option (prog S A)) : prog S A :=
  fun st =>
    match body st with
    | (Return a, st') => (Return a, st')
    | (Raise e, st') =>
        match handlers e with
        | Some h => h st'
        | None => (Raise e, st')
        end
    end.

(** [try: x = body  except Exception as e: return on_exn(e)], then [k x]. *)
Definition try_or_return {A B : Type} (body : prog S A) (on_exn : exn -> B)
    (k : A -> prog S B) : prog S B :=
  fun st =>
    match body st with
    | (Return a, st') => k a st'
    | (Raise e, st') =>
        if is_Exception e then (Return (on_exn e), st') else (Raise e, st')
    end.
End Combinators.

(** The store of a web-form function: the local variable [text] of
    [new_gradio.parse_business_card] (unbound at first) and the external
    calls made so far.  Console output is not recorded. *)
Record state := State { local_text : option pystr; trace : list event }.

Definition web (A : Type) : Type := prog state A.

(** A call to a collaborator: recorded, then its answer. *)
Definition call {A : Type} (ev : event) (r : outcome A) : web A :=
  fun st => (r, State (local_text st) (trace st ++ [ev])).

(** [text = v] and the use of [text]. *)
Definition set_text (v : pystr) : web unit :=
  fun st => (Return tt, State (Some v) (trace st)).

Definition get_text : web pystr :=
  fun st =>
    match local_text st with
    | Some v => (Return v, st)
    | None =>
        (Raise (Exn UnboundLocalError
           (py "cannot access local variable 'text' where it is not associated with a value")),
         st)
    end.

(** A call of the function: what it returns or raises, and the external
    calls it made. *)
Definition run {A : Type} (m : web A) : outcome A * list event :=
  let (r, st) := m (State None []) in (r, trace st).

End Prog.
Import Prog.

Notation "x <- m ;; k" := (bind m (fun x => k))
  (at level 61, m at next level, right associativity).
Notation "m ;;; k" := (bind m (fun _ => k))
  (at level 61, right associativity).

(** [l[i]], [s.index(sub)], [s.rindex(sub)] and [obj[k] = v]. *)
Definition subscript {A : Type} (l : list A) (i : nat) : outcome A :=
  match nth_error l i with
  | Some a => Return a
  | None => Raise (Exn IndexError (py "list index out of range"))
  end.

Definition index (s sub : pystr) : outcome nat :=
  match find s sub with
  | Some i => Return i
  | None => Raise (Exn ValueError (py "substring not found"))
  end.

Definition rindex (s sub : pystr) : outcome nat :=
  match rfind s sub with
  | Some i => Return i
  | None => Raise (Exn ValueError (py "substring not found"))
  end.

Definition no_item_assignment (type_name : string) : exn :=
  Exn TypeError
    (py "'" ++ py type_name ++ py "' object does not support item assignment").

Definition setitem (obj : json) (k : pystr) (v : json) : outcome json :=
  match obj with
  | JDict d => Return (JDict (dict_set d k v))
  | JList _ =>
      Raise (Exn TypeError (py "list indices must be integers or slices, not str"))
  | JStr _ => Raise (no_item_assignment "str")
  | JInt _ => Raise (no_item_assignment "int")
  | JFloat _ => Raise (no_item_assignment "float")
  | JBool _ => Raise (no_item_assignment "bool")
  | JNone => Raise (no_item_assignment "NoneType")
  end.

(** The fence marker and the failure values shared by the variants. *)
Definition FENCE_JSON : pystr := py "```json".
Definition FENCE : pystr := py "```".

Definition error_value (msg : pystr) : json := JDict [(py "error", JStr msg)].

Definition PLEASE_UPLOAD : json := error_value (py "Please upload an image.").

(** ** gradio_app.py *)

Module GradioApp.

(** Lines 116-120: the reply is trimmed and a leading [```json] marker is
    cut off together with the last three characters. *)
Definition clean_output (content : pystr) : pystr :=
  let json_text := strip content in
  if startswith json_text FENCE_JSON
  then strip (slice json_text (Some 7%Z) (Some (-3)%Z))
  else json_text.

Definition parse_failure (json_text : pystr) : json :=
  JDict [(py "error", JStr (py "Failed to parse VLM output as JSON."));
         (py "raw_output", JStr json_text)].

(** Lines 126-131. *)
Definition parse_output (json_text : pystr) : web json :=
  try_or_return (lift (loads json_text))
    (fun _ => parse_failure json_text)
    (fun parsed_data => ret parsed_data).

(** The repair pass: from the content of the reply to the returned value. *)
Definition repair_pass (content : pystr) : web json :=
  parse_output (clean_output content).

Definition parse_business_card (w : world) (pil_image : option image)
  : web json :=
  if negb (vlm_loaded w)
  then ret (error_value (py "VLM model is not loaded. Check server logs."))
  else
    match pil_image with
    | None => ret PLEASE_UPLOAD
    | Some img =>
        try_or_return (call (EvEncode img) (encode_image w img))
          (fun e => error_value (py "Failed to process image: " ++ exn_str e))
          (fun image_uri =>
             try_or_return
               (content <- call (EvChat image_uri) (chat_content w image_uri) ;;
                ret (clean_output content))
               (fun e => error_value (py "VLM inference failed: " ++ exn_str e))
               parse_output)
    end.

End GradioApp.

(** ** ollama_Gradio.py *)

Module OllamaGradio.

(** Lines 94-98. *)
Definition clean_output (content : pystr) : pystr :=
  let json_text := strip content in
  if startswith json_text FENCE_JSON
  then strip (slice json_text (Some 7%Z) (Some (-3)%Z))
  else json_text.

Definition parse_failure (json_text : pystr) : json :=
  JDict [(py "error", JStr (py "Failed to parse model output as JSON."));
         (py "raw_output", JStr json_text)].

(** Lines 104-109. *)
Definition parse_output (json_text : pystr) : web json :=
  try_or_return (lift (loads json_text))
    (fun _ => parse_failure json_text)
    (fun parsed => ret parsed).

Definition repair_pass (content : pystr) : web json :=
  parse_output (clean_output content).

Definition parse_business_card (w : world) (pil_image : option image)
  : web json :=
  match pil_image with
  | None => ret PLEASE_UPLOAD
  | Some img =>
      try_or_return (call (EvEncode img) (encode_image w img))
        (fun e => error_value (py "Failed to process image: " ++ exn_str e))
        (fun img_b64 =>
           try_or_return
             (content <- call (EvChat img_b64) (chat_content w img_b64) ;;
              ret (clean_output content))
             (fun e => error_value (py "Ollama inference failed: " ++ exn_str e))
             parse_output)
  end.

End OllamaGradio.

(** ** ollama_moondream.py *)

Module OllamaMoondream.

(** Lines 73-79: as above, and a reply that starts with a backtick loses
    the backticks, spaces and line feeds at both ends. *)
Definition clean_output (content : pystr) : pystr :=
  let json_text := strip content in
  if startswith json_text FENCE_JSON
  then strip (slice json_text (Some 7%Z) (Some (-3)%Z))
  else if startswith json_text (py "`")
  then strip_chars json_text [96; 32; 10]%N
  else json_text.

Definition parse_failure (json_text : pystr) : json :=
  JDict [(py "error", JStr (py "Failed to parse VLM output as JSON."));
         (py "raw_output", JStr json_text)].

(** Lines 84-89. *)
Definition parse_output (json_text : pystr) : web json :=
  try_or_return (lift (loads json_text))
    (fun _ => parse_failure json_text)
    (fun parsed_data => ret parsed_data).

Definition repair_pass (content : pystr) : web json :=
  parse_output (clean_output content).

Definition parse_business_card (w : world) (pil_image : option image)
  : web json :=
  match pil_image with
  | None => ret PLEASE_UPLOAD
  | Some img =>
      try_or_return (call (EvEncode img) (encode_image w img))
        (fun e => error_value (py "Failed to process image: " ++ exn_str e))
        (fun image_bytes =>
           try_or_return
             (content <- call (EvChat image_bytes) (chat_content w image_bytes) ;;
              ret (clean_output content))
             (fun e =>
                error_value (py "Ollama inference failed: " ++ exn_str e
                             ++ py ". Is the Ollama server running?"))
             parse_output)
  end.

End OllamaMoondream.

(** ** new_gradio.py *)

Module NewGradio.

(** Lines 52-59. *)
Definition extract_text_from_image (w : world) (pil_image : image)
  : web pystr :=
  try_except
    (text <- call (EvOCR pil_image) (image_to_string w pil_image) ;;
     ret (strip text))
    (fun e => if is_Exception e
              then Some (ret (py "OCR Error: " ++ exn_str e))
              else None).

(** Lines 137-140: the text between the first [```json] (or else the first
    [```]) and the next fence, trimmed. *)
Definition strip_fences : web unit :=
  text <- get_text ;;
  if contains text FENCE_JSON then
    after <- lift (subscript (split text FENCE_JSON) 1) ;;
    inner <- lift (subscript (split after FENCE) 0) ;;
    set_text (strip inner)
  else if contains text FENCE then
    after <- lift (subscript (split text FENCE) 1) ;;
    inner <- lift (subscript (split after FENCE) 0) ;;
    set_text (strip inner)
  else ret tt.

(** Lines 143-146: from the first opening brace to the last closing one. *)
Definition extract_braces : web unit :=
  text <- get_text ;;
  if (contains text (py "{") && contains text (py "}"))%bool then
    start <- lift (index text (py "{")) ;;
    last <- lift (rindex text (py "}")) ;;
    set_text (slice text (Some (Z.of_nat start)) (Some (Z.of_nat last + 1)%Z))
  else ret tt.

(** Lines 132-146: what is left of the reply when [json.loads] is called. *)
Definition clean_output (content : pystr) : web unit :=
  set_text (strip content) ;;;
  strip_fences ;;;
  extract_braces.

Definition RAW_OCR_KEY : pystr := py "_raw_ocr_text".

(** The repair pass (lines 132-167): from the content of the reply to the
    returned value, with both exception clauses. *)
Definition repair_pass (ocr_text : pystr) (reply : web pystr) : web json :=
  try_except
    (content <- reply ;;
     clean_output content ;;;
     text <- get_text ;;
     parsed <- lift (loads text) ;;
     parsed' <- lift (setitem parsed RAW_OCR_KEY (JStr ocr_text)) ;;
     ret parsed')
    (fun e =>
       if is_JSONDecodeError e then
         Some (text <- get_text ;;
               ret (JDict [(py "error", JStr (py "Failed to parse JSON from LLM"));
                           (py "raw_ocr_text", JStr ocr_text);
                           (py "llm_output", JStr text);
                           (py "parse_error", JStr (exn_str e))]))
       else if is_Exception e then
         Some (ret (JDict [(py "error",
                            JStr (py "LLM structuring failed: " ++ exn_str e));
                           (py "raw_ocr_text", JStr ocr_text)]))
       else None).

Definition parse_business_card (w : world) (pil_image : option image)
  : web json :=
  match pil_image with
  | None => ret PLEASE_UPLOAD
  | Some img =>
      ocr_text <- extract_text_from_image w img ;;
      if (match ocr_text with [] => true | _ => false end
          || contains ocr_text (py "OCR Error"))%bool
      then ret (JDict [(py "error", JStr (py "Failed to extract text from image."));
                       (py "details", JStr ocr_text)])
      else if negb (llm_loaded w)
      then ret (JDict [(py "error",
                        JStr (py "LLM not loaded - returning raw OCR text"));
                       (py "raw_ocr_text", JStr ocr_text)])
      else repair_pass ocr_text (call (EvChat ocr_text) (chat_content w ocr_text))
  end.

End NewGradio.

(** ** llama_cli.py and moondream_cli.py: the REPL *)

Module Chat.

(** The [content] of a message: a text, or an image reference and a text. *)
Inductive content :=
| Text (text : pystr)
| ImageAndText (image_url text : pystr).

(** A role-tagged message of the conversation. *)
Record message := Message { role : pystr; msg_content : content }.

Definition USER : pystr := py "user".
Definition ASSISTANT : pystr := py "assistant".

(** A chunk of a streamed reply: without a [choices] field, with an empty
    list of choices, or with the content of the first choice's delta (empty
    when the delta has none). *)
Inductive chunk :=
| NoChoices
| EmptyChoices
| Delta (content : pystr).

(** What one pass through the loop body meets: the line typed (or the
    exception [input] raises), which paths exist, what loading an image
    gives, and the backend's streamed reply to a conversation: creating the
    stream may raise; otherwise it yields chunks and may raise after them. *)
Record turn := Turn {
  typed : outcome pystr;
  path_exists : pystr -> bool;
  load_image : pystr -> outcome pystr;
  completion : list message -> outcome (list chunk * option exn)
}.

Inductive control := Continue | Break.

Definition SEPARATOR : pystr := py " - ".

(** [conversation.append(m)] and the use of [conversation]. *)
Definition append (m : message) : prog (list message) unit :=
  fun conversation => (Return tt, conversation ++ [m]).

Definition get_conversation : prog (list message) (list message) :=
  fun conversation => (Return conversation, conversation).

Section Variant.

(** The two scripts differ in how the line is split ([split] in llama_cli,
    [rsplit] in moondream_cli) and in whether a chunk with an empty list of
    choices is skipped ([guarded], moondream_cli) or indexed (llama_cli). *)
Variable split_once : pystr -> pystr -> list pystr.
Variable guarded : bool.

(** The [for chunk in response] loop, accumulating [full_response]. *)
Fixpoint consume (chunks : list chunk) (stream_error : option exn)
    (full_response : pystr) : outcome pystr :=
  match chunks with
  | [] =>
      match stream_error with
      | Some e => Raise e
      | None => Return full_response
      end
  | NoChoices :: rest => consume rest stream_error full_response
  | EmptyChoices :: rest =>
      if guarded then consume rest stream_error full_response
      else Raise (Exn IndexError (py "list index out of range"))
  | Delta content :: rest =>
      consume rest stream_error (full_response ++ content)
  end.

(** The prompt and the image path of a line: [prompt - path] names an image
    when the path exists. *)
Definition parse_input (t : turn) (user_input : pystr)
  : prog (list message) (pystr * option pystr) :=
  if contains user_input SEPARATOR then
    let parts := split_once user_input SEPARATOR in
    part0 <- lift (subscript parts 0) ;;
    part1 <- lift (subscript parts 1) ;;
    let potential_path := strip part1 in
    if path_exists t potential_path
    then ret (strip part0, Some potential_path)
    else ret (strip part0, None)
  else ret (user_input, None).

(** The user message, or nothing when the image cannot be loaded (the
    iteration is then abandoned by [continue]). *)
Definition build_message (t : turn) (prompt : pystr)
    (image_path : option pystr) : prog (list message) (option message) :=
  match image_path with
  | Some ((_ :: _) as path) =>
      try_except
        (image_uri <- lift (load_image t path) ;;
         ret (Some (Message USER (ImageAndText image_uri prompt))))
        (fun e => if is_Exception e then Some (ret None) else None)
  | _ => ret (Some (Message USER (Text prompt)))
  end.

(** From [conversation.append(message)] to the end of the [try] block. *)
Definition exchange (t : turn) (msg : message)
  : prog (list message) control :=
  append msg ;;;
  conversation <- get_conversation ;;
  response <- lift (completion t conversation) ;;
  full_response <- lift (consume (fst response) (snd response) []) ;;
  append (Message ASSISTANT (Text full_response)) ;;;
  ret Continue.

(** The body of the [try] block of one iteration. *)
Definition turn_body (t : turn) : prog (list message) control :=
  line <- lift (typed t) ;;
  let user_input := strip line in
  match user_input with
  | [] => ret Continue
  | _ :: _ =>
      if existsb (pystr_eqb (lower user_input)) [py "exit"; py "quit"; py "q"]
      then ret Break
      else
        parsed <- parse_input t user_input ;;
        built <- build_message t (fst parsed) (snd parsed) ;;
        match built with
        | None => ret Continue
        | Some msg => exchange t msg
        end
  end.

(** One iteration: [KeyboardInterrupt] leaves the loop, any other exception
    is reported and the loop goes on. *)
Definition iteration (t : turn) : prog (list message) control :=
  try_except (turn_body t)
    (fun e => if is_Exception e then Some (ret Continue) else Some (ret Break)).

(** The loop, over the turns of a session. *)
Fixpoint loop (turns : list turn) : prog (list message) unit :=
  match turns with
  | [] => ret tt
  | t :: rest =>
      c <- iteration t ;;
      match c with
      | Break => ret tt
      | Continue => loop rest
      end
  end.

(** The conversation a session leaves, started from the empty list. *)
Definition chat_mode (turns : list turn) : list message :=
  snd (loop turns []).

End Variant.

(** The conversation alternates between user and assistant turns, beginning
    with a user turn. *)
Fixpoint alternates_from (expected : pystr) (conversation : list message)
  : bool :=
  match conversation with
  | [] => true
  | m :: rest =>
      pystr_eqb (role m) expected
      && alternates_from
           (if pystr_eqb expected USER then ASSISTANT else USER) rest
  end.

Definition alternates (conversation : list message) : bool :=
  alternates_from USER conversation.

End Chat.

Module LlamaCli.
Definition chat_mode : list Chat.turn -> list Chat.message :=
  Chat.chat_mode split1 false.
End LlamaCli.

Module MoondreamCli.
Definition chat_mode : list Chat.turn -> list Chat.message :=
  Chat.chat_mode rsplit1 true.
End MoondreamCli.

(** * Derived notions used in the statements *)

Module NewGradioText.

(** The text [new_gradio] hands to [json.loads], as a function of the reply
    (see [clean_output_text] for the agreement with the script). *)
Definition between_fences (text opening : pystr) : pystr :=
  strip (nth 0 (split (nth 1 (split text opening) []) FENCE) []).

Definition brace_span (text : pystr) : pystr :=
  match find text (py "{"), rfind text (py "}") with
  | Some start, Some last =>
      slice text (Some (Z.of_nat start)) (Some (Z.of_nat last + 1)%Z)
  | _, _ => text
  end.

Definition without_fences (text : pystr) : pystr :=
  if contains text FENCE_JSON then between_fences text FENCE_JSON
  else if contains text FENCE then between_fences text FENCE
  else text.

Definition within_braces (text : pystr) : pystr :=
  if (contains text (py "{") && contains text (py "}"))%bool
  then brace_span text
  else text.

Definition candidate (content : pystr) : pystr :=
  within_braces (without_fences (strip content)).

End NewGradioText.
Import NewGradioText.

Definition is_dict (v : json) : bool :=
  match v with JDict _ => true | _ => false end.

(** The value is a mapping one of whose text fields contains [t]. *)
Definition carries (v : json) (t : pystr) : bool :=
  match v with
  | JDict d =>
      existsb (fun kv => match snd kv with
                         | JStr s => contains s t
                         | _ => false
                         end) d
  | _ => false
  end.

(** The literal inputs of the specification's testable properties. *)
Definition FENCED_JANE : pystr :=
  FENCE_JSON ++ [LF] ++ pyq "{'name': 'Jane Doe', 'title': null}" ++ [LF] ++ FENCE.

Definition PROSE_AROUND : pystr :=
  pyq "Sure! Here is the data: {'name': 'A'} Let me know if you need more.".

Definition BRACE_IN_STRING : pystr :=
  pyq "{'name': 'A', 'note': 'uses a } brace'}".

Definition JANE : json :=
  JDict [(py "name", JStr (py "Jane Doe")); (py "title", JNone)].

Definition NAME_A : json := JDict [(py "name", JStr (py "A"))].

Definition NAME_A_NOTE : json :=
  JDict [(py "name", JStr (py "A")); (py "note", JStr (py "uses a } brace"))].

(** Worlds for the examples: every collaborator answers, the backend with
    [reply]. *)
Definition answering (loaded : bool) (reply : pystr) : world :=
  World loaded loaded
    (fun _ => Return (py "data:image/jpeg;base64,"))
    (fun _ => Return (py "ACME Corp"))
    (fun _ => Return reply).

(** The final [try] block of the three direct variants returns what
    [json.loads] gives, or the failure value; it raises nothing and leaves
    the store as it is. *)
Definition parsed_or (failure : pystr -> json) (json_text : pystr) : json :=
  match loads json_text with
  | Return v => v
  | Raise _ => failure json_text
  end.

(** What [new_gradio] returns, by what [json.loads] makes of the candidate
    text and by whether the parsed value takes the extra key. *)
Definition structuring_failed (ocr_text msg : pystr) : json :=
  JDict [(py "error", JStr (py "LLM structuring failed: " ++ msg));
         (py "raw_ocr_text", JStr ocr_text)].

Definition json_parse_failed (ocr_text llm_output parse_error : pystr) : json :=
  JDict [(py "error", JStr (py "Failed to parse JSON from LLM"));
         (py "raw_ocr_text", JStr ocr_text);
         (py "llm_output", JStr llm_output);
         (py "parse_error", JStr parse_error)].

Definition structured (ocr_text content : pystr) : json :=
  match loads (candidate content) with
  | Return parsed =>
      match setitem parsed NewGradio.RAW_OCR_KEY (JStr ocr_text) with
      | Return parsed' => parsed'
      | Raise e => structuring_failed ocr_text (exn_str e)
      end
  | Raise e => json_parse_failed ocr_text (candidate content) (exn_str e)
  end.

Definition UNTAGGED_FENCE : pystr := FENCE ++ [LF] ++ py "{}" ++ [LF] ++ FENCE.

Definition PROSE_AROUND_BROKEN : pystr :=
  py "Here is the card: {name: A} Hope this helps!".

Definition FENCE_CUT_SHORT : pystr := FENCE_JSON ++ [LF] ++ pyq "{'name': 'A'".

(** Two turns of a REPL session: the backend fails on the first prompt (as
    [create_chat_completion] does when the request does not fit the context
    window) and answers the second. *)
Definition BACKEND_FAILS : Chat.turn :=
  Chat.Turn (Return (py "hi"))
    (fun _ => false)
    (fun _ => Raise (Exn OtherException (py "cannot identify image file")))
    (fun _ => Raise (Exn ValueError
                       (py "Requested tokens (5021) exceed context window of 4096"))).

Definition BACKEND_ANSWERS : Chat.turn :=
  Chat.Turn (Return (py "hello"))
    (fun _ => false)
    (fun _ => Raise (Exn OtherException (py "cannot identify image file")))
    (fun _ => Return ([Chat.Delta (py "Hi"); Chat.Delta (py " there!")], None)).

(** Conditions under which [json.dumps] followed by [json.loads] gives the
    value back. *)

(** A string of code points (below 1114112) in which no high surrogate
    stands directly before a low surrogate: [json.dumps] would write such a
    pair as two escapes that [json.loads] reads as one character. *)
Fixpoint str_safe (s : pystr) : bool :=
  match s with
  | [] => true
  | c :: s' =>
      (c <? 1114112)%N
      && negb (is_high_surrogate c
               && match s' with
                  | c' :: _ => is_low_surrogate c'
                  | [] => false
                  end)
      && str_safe s'
  end.

(** A finite float whose [repr] reads back as the same float.  (CPython's
    [repr] is built to have this property for every float.) *)
Definition float_stable (x : spec_float) : bool :=
  match x with
  | S754_finite _ _ _ =>
      match match_number (float_repr x) with
      | Some (p, []) =>
          match number_value p with
          | JFloat y => spec_float_eqb y x
          | _ => false
          end
      | _ => false
      end
  | S754_nan => false          (* in Python, NaN differs from itself *)
  | _ => true
  end.

Fixpoint reserializable (v : json) : bool :=
  match v with
  | JNone | JBool _ | JInt _ => true
  | JFloat x => float_stable x
  | JStr s => str_safe s
  | JList items => forallb reserializable items
  | JDict items =>
      forallb (fun kv => str_safe (fst kv) && reserializable (snd kv)) items
  end.

(** The keys of every mapping in the value are pairwise different. *)
Fixpoint distinct_keys (v : json) : Prop :=
  match v with
  | JList items => fold_right (fun x P => distinct_keys x /\ P) True items
  | JDict items =>
      NoDup (map fst items)
      /\ fold_right (fun kv P => distinct_keys (snd kv) /\ P) True items
  | _ => True
  end.

(** What may follow a value inside a serialized value: nothing, a comma, or
    a closing bracket or brace. *)
Definition delimited (rest : pystr) : bool :=
  match rest with
  | [] => true
  | c :: _ => ((c =? 44) || (c =? 93) || (c =? 125))%N
  end.

(** The characters a number literal is made of. *)
Definition number_char (c : N) : bool :=
  (isdigit c || (c =? 45) || (c =? 43) || (c =? 46) || (c =? 101) || (c =? 69))%N.

(** Does the text start with the escape of a low surrogate and go on after
    it (or with an escape that is not hexadecimal)? *)
Definition pairs_up (tail : pystr) : bool :=
  match tail with
  | b :: tail1 =>
      (b =? 92)%N
      && match tail1 with
         | u :: tail2 =>
             (u =? 117)%N
             && match tail2 with
                | g1 :: g2 :: g3 :: g4 :: _ :: _ =>
                    match hex4 g1 g2 g3 g4 with
                    | Some lo => is_low_surrogate lo
                    | None => true
                    end
                | _ => false
                end
         | [] => false
         end
  | [] => false
  end.

(** The reply whose string value is three backticks, written with escapes,
    and the OCR text of the example. *)
Definition ESCAPED_BACKTICKS : pystr := pyq "{'a': '\u0060\u0060\u0060'}".

Definition ACME : pystr := py "ACME Corp".

(** The characters a serialized value can start with. *)
Definition value_start (c : N) : bool :=
  (isdigit c || (c =? 34) || (c =? 123) || (c =? 91) || (c =? 110)
   || (c =? 116) || (c =? 102) || (c =? 78) || (c =? 73) || (c =? 45))%N.

(** The text of the members of an object, as [json.dumps] writes them. *)
Definition member_text (kv : pystr * json) : pystr :=
  encode_basestring_ascii (fst kv) ++ [58; 32]%N ++ dumps (snd kv).

(** What the main statement says of one value. *)
Definition reads_back (v : json) : Prop :=
  reserializable v = true ->
  distinct_keys v ->
  forall (fuel : nat) (rest : pystr),
    length (dumps v) < fuel ->
    delimited rest = true ->
    scan_once fuel (dumps v ++ rest) = inl (v, rest).

(** * Further code of the scripts *)

(** ** ollama_moondream.py: the health check *)

Module ModelCheck.

(** What [ollama.list()] answers is taken as a plain Python value: a [dict]
    with string keys, a [list], a [str], a number, [True], [False] or
    [None].  [AttributeError] and [KeyError] are subclasses of [Exception]
    and are carried as [OtherException]. *)

Definition type_name (v : json) : string :=
  match v with
  | JNone => "NoneType"
  | JBool _ => "bool"
  | JInt _ => "int"
  | JFloat _ => "float"
  | JStr _ => "str"
  | JList _ => "list"
  | JDict _ => "dict"
  end.

Definition is_list (v : json) : bool :=
  match v with JList _ => true | _ => false end.

(** [k in v] for a string [k]: a key of a [dict], an element of a [list], or
    a substring of a [str]. *)
Definition py_in (k : pystr) (v : json) : outcome bool :=
  match v with
  | JDict d => Return (match dict_get d k with Some _ => true | None => false end)
  | JList items =>
      Return (existsb (fun x => match x with
                                | JStr s => pystr_eqb s k
                                | _ => false
                                end) items)
  | JStr s => Return (contains s k)
  | _ =>
      Raise (Exn TypeError
               (py "argument of type '" ++ py (type_name v)
                ++ py "' is not iterable"))
  end.

(** [v.get(k)] *)
Definition py_get (v : json) (k : pystr) : outcome json :=
  match v with
  | JDict d => Return (match dict_get d k with Some x => x | None => JNone end)
  | _ =>
      Raise (Exn OtherException
               (py "'" ++ py (type_name v) ++ py "' object has no attribute 'get'"))
  end.

(** [v[k]] for a string [k] *)
Definition getitem (v : json) (k : pystr) : outcome json :=
  match v with
  | JDict d =>
      match dict_get d k with
      | Some x => Return x
      | None => Raise (Exn OtherException (py "'" ++ k ++ py "'"))
      end
  | JList _ =>
      Raise (Exn TypeError (py "list indices must be integers or slices, not str"))
  | JStr _ => Raise (Exn TypeError (py "string indices must be integers, not 'str'"))
  | _ =>
      Raise (Exn TypeError
               (py "'" ++ py (type_name v) ++ py "' object is not subscriptable"))
  end.

(** The elements a [for] loop over [v] visits. *)
Definition py_iter (v : json) : outcome (list json) :=
  match v with
  | JList items => Return items
  | JDict d => Return (map (fun kv => JStr (fst kv)) d)
  | JStr s => Return (map (fun c => JStr [c]) s)
  | _ =>
      Raise (Exn TypeError
               (py "'" ++ py (type_name v) ++ py "' object is not iterable"))
  end.

(** Line 109: [isinstance(m, dict) and 'name' in m and
    m['name'].startswith(model_name)]. *)
Definition name_matches (model_name : pystr) (m : json) : outcome bool :=
  match m with
  | JDict d =>
      match dict_get d (py "name") with
      | None => Return false
      | Some (JStr name) => Return (startswith name model_name)
      | Some other =>
          Raise (Exn OtherException
                   (py "'" ++ py (type_name other)
                    ++ py "' object has no attribute 'startswith'"))
      end
  | _ => Return false
  end.

(** [any(... for m in models)]: the first entry that matches ends the
    search, and so does the first entry that raises. *)
Fixpoint any_matches (model_name : pystr) (models : list json) : outcome bool :=
  match models with
  | [] => Return false
  | m :: rest =>
      match name_matches model_name m with
      | Return true => Return true
      | Return false => any_matches model_name rest
      | Raise e => Raise e
      end
  end.

(** The console: the lines printed so far. *)
Definition console (A : Type) : Type := prog (list pystr) A.

Definition print (line : pystr) : console unit :=
  fun out => (Return tt, out ++ [line]).

(** Lines 93-131.  [list_models] is what the call [ollama.list()] gives. *)
Definition check_model_availability (list_models : outcome json)
    (model_name : pystr) : console bool :=
  try_except
    (response <- lift list_models ;;
     has_models <- lift (py_in (py "models") response) ;;
     unexpected <-
       (if negb has_models then ret true
        else got <- lift (py_get response (py "models")) ;;
             ret (negb (is_list got))) ;;
     if (unexpected : bool) then
       print (py "--- Error ---") ;;;
       print (py "Ollama returned an unexpected response. Cannot verify models.") ;;;
       ret false
     else
       models_info <- lift (getitem response (py "models")) ;;
       models <- lift (py_iter models_info) ;;
       model_found <- lift (any_matches model_name models) ;;
       if negb model_found then
         print (py "--- Error ---") ;;;
         print (py "No model found that starts with the name '" ++ model_name
                ++ py "'.") ;;;
         print (py "Please pull the model by running: ollama pull " ++ model_name) ;;;
         print (py "-------------") ;;;
         ret false
       else
         print (py "Ollama server is running and model '" ++ model_name
                ++ py "' (or a variant) is available.") ;;;
         ret true)
    (fun e =>
       if is_Exception e then
         Some (print (py "--- Error Connecting to Ollama ---") ;;;
               print (py "Error: " ++ exn_str e) ;;;
               print (py "Please ensure the Ollama server is running.") ;;;
               print (py "(Start Ollama.app or run 'ollama serve' in your terminal).") ;;;
               print (py "---------------------------------") ;;;
               ret false)
       else None).

(** An entry of the model list that the search passes over. *)
Definition passed_over (model_name : pystr) (m : json) : Prop :=
  name_matches model_name m = Return false.

(** An entry the search can evaluate: not a [dict], a [dict] without a
    [name], or a [dict] whose [name] is a string. *)
Definition well_formed (m : json) : bool :=
  match m with
  | JDict d =>
      match dict_get d (py "name") with
      | Some (JStr _) | None => true
      | Some _ => false
      end
  | _ => true
  end.

(** The entry is a [dict] whose [name] is a string that starts with
    [model_name]. *)
Definition names (model_name : pystr) (m : json) : bool :=
  match m with
  | JDict d =>
      match dict_get d (py "name") with
      | Some (JStr name) => startswith name model_name
      | _ => false
      end
  | _ => false
  end.

End ModelCheck.

(** ** llama_cli.py and moondream_cli.py: the command line *)

Module Cli.

(** What [main] ends with: the call of [chat_mode] or of [process_query], or
    [sys.exit(status)].  Console output is not recorded. *)
Inductive ending :=
| CallsChatMode
| CallsProcessQuery (prompt : pystr) (image_path : option pystr)
| Exits (status : Z).

(** [" ".join(args)] *)
Fixpoint join_space (args : list pystr) : pystr :=
  match args with
  | [] => []
  | [a] => a
  | a :: more => a ++ [32%N] ++ join_space more
  end.

Section Variant.

(** The two scripts differ in how the command is split ([split] in
    llama_cli, [rsplit] in moondream_cli) and in what follows a path that
    does not exist: a text-only query (llama_cli) or [sys.exit(1)]
    ([exits_when_missing], moondream_cli). *)
Variable split_once : pystr -> pystr -> list pystr.
Variable exits_when_missing : bool.

(** [main()]: [argv] is [sys.argv], [path_exists] is [os.path.exists]. *)
Definition main (argv : list pystr) (path_exists : pystr -> bool)
  : outcome ending :=
  if (length argv <? 2)%nat then Return (Exits 1)
  else
    let command := join_space (tl argv) in
    if pystr_eqb (lower command) (py "chat") then Return CallsChatMode
    else if contains command Chat.SEPARATOR then
      let parts := split_once command Chat.SEPARATOR in
      match subscript parts 0 with
      | Raise e => Raise e
      | Return part0 =>
          match subscript parts 1 with
          | Raise e => Raise e
          | Return part1 =>
              let prompt := strip part0 in
              let potential_path := strip part1 in
              if path_exists potential_path
              then Return (CallsProcessQuery prompt (Some potential_path))
              else if exits_when_missing then Return (Exits 1)
              else Return (CallsProcessQuery prompt None)
          end
      end
    else Return (CallsProcessQuery command None).

End Variant.

End Cli.

Module LlamaMain.
Definition main : list pystr -> (pystr -> bool) -> outcome Cli.ending :=
  Cli.main split1 false.
End LlamaMain.

Module MoondreamMain.
Definition main : list pystr -> (pystr -> bool) -> outcome Cli.ending :=
  Cli.main rsplit1 true.
End MoondreamMain.

(** ** Notions used in the further statements *)


(** The text contains no hyphen. *)
Definition dash_free (s : pystr) : bool :=
  forallb (fun c => negb (c =? 45)%N) s.

Definition blank (s : pystr) : bool := forallb isspace s.

(** The line is one of the commands that leave the REPL. *)
Definition leaves (line : pystr) : bool :=
  existsb (pystr_eqb (lower (strip line))) [py "exit"; py "quit"; py "q"].

(** What a chunk of a streamed reply adds to the answer. *)
Definition delta_text (c : Chat.chunk) : pystr :=
  match c with
  | Chat.Delta content => content
  | _ => []
  end.

Definition has_choices (c : Chat.chunk) : bool :=
  match c with
  | Chat.EmptyChoices => false
  | _ => true
  end.

(** The backend answers every request of the turn with a stream that ends
    without error (and, where an empty list of choices is indexed, has
    none). *)
Definition backend_answers (guarded : bool) (t : Chat.turn) : Prop :=
  forall conversation,
    exists chunks,
      Chat.completion t conversation = Return (chunks, None)
      /\ (guarded || forallb has_choices chunks)%bool = true.

(** A user message followed by the assistant's answer. *)
Definition exchange_pair (p : Chat.message * pystr) : list Chat.message :=
  [fst p; Chat.Message Chat.ASSISTANT (Chat.Text (snd p))].

(** A turn of a session in which the line [line] is typed, no path exists
    and the backend streams [chunks]. *)
Definition typing (line : pystr) (chunks : list Chat.chunk) : Chat.turn :=
  Chat.Turn (Return line)
    (fun _ => false)
    (fun _ => Raise (Exn OtherException (py "cannot identify image file")))
    (fun _ => Return (chunks, None)).

(** Worlds for the examples: one collaborator fails, the others answer. *)
Definition CANNOT_IDENTIFY : exn :=
  Exn OtherException (py "cannot identify image file").

Definition CONNECTION_REFUSED : exn :=
  Exn OtherException (py "[Errno 111] Connection refused").

Definition DATA_URI : pystr := py "data:image/jpeg;base64,".

Definition encoder_fails : world :=
  World true true
    (fun _ => Raise CANNOT_IDENTIFY)
    (fun _ => Return ACME)
    (fun _ => Return (py "{}")).

Definition backend_fails : world :=
  World true true
    (fun _ => Return DATA_URI)
    (fun _ => Return ACME)
    (fun _ => Raise CONNECTION_REFUSED).

Definition ocr_fails : world :=
  World true true
    (fun _ => Return DATA_URI)
    (fun _ => Raise (Exn OtherException (py "tesseract is not installed")))
    (fun _ => Return (py "{}")).

(** The OCR engine reads [text]; the model is loaded or not. *)
Definition ocr_reads (text : pystr) (loaded : bool) : world :=
  World loaded loaded
    (fun _ => Return DATA_URI)
    (fun _ => Return text)
    (fun _ => Return (py "{}")).

(** The failure values of [new_gradio] before the model is asked. *)
Definition extraction_failed (details : pystr) : json :=
  JDict [(py "error", JStr (py "Failed to extract text from image."));
         (py "details", JStr details)].

Definition llm_not_loaded (ocr_text : pystr) : json :=
  JDict [(py "error", JStr (py "LLM not loaded - returning raw OCR text"));
         (py "raw_ocr_text", JStr ocr_text)].

(** The message of [json.loads] on an empty text. *)
Definition EXPECTING_VALUE : pystr :=
  py "Expecting value: line 1 column 1 (char 0)".

(** The calls of one run of a web form: none, the first collaborator alone,
    or the first collaborator and then the backend, once, with a payload
    that satisfies [sent]. *)
Definition one_shot (first : event) (sent : pystr -> Prop) (tr : list event)
  : Prop :=
  tr = [] \/ tr = [first]
  \/ exists payload, sent payload /\ tr = [first; EvChat payload].

(** The turn at which the input has ended: [input] raises [EOFError]. *)
Definition END_OF_INPUT : Chat.turn :=
  Chat.Turn (Raise (Exn OtherException (py "EOF when reading a line")))
    (fun _ => false)
    (fun _ => Raise CANNOT_IDENTIFY)
    (fun _ => Return ([], None)).

(** A turn in which [read this - card.png] is typed, the file exists and is
    not an image. *)
Definition NOT_AN_IMAGE : Chat.turn :=
  Chat.Turn (Return (py "read this - card.png"))
    (fun _ => true)
    (fun _ => Raise CANNOT_IDENTIFY)
    (fun _ => Return ([Chat.Delta (py "Hi")], None)).

(** What the health check returns, by the answer of [ollama.list()] (see
    [check_verdict] for the agreement with the script). *)
Definition verdict (list_models : outcome json) (model_name : pystr)
  : outcome bool :=
  match list_models with
  | Raise e => if is_Exception e then Return false else Raise e
  | Return (JDict d) =>
      match dict_get d (py "models") with
      | Some (JList models) =>
          match ModelCheck.any_matches model_name models with
          | Return found => Return found
          | Raise _ => Return false
          end
      | _ => Return false
      end
  | Return _ => Return false
  end.

(** The lines the health check prints when an exception reaches its
    handler. *)
Definition CONNECTION_DIAGNOSTIC (e : exn) : list pystr :=
  [py "--- Error Connecting to Ollama ---";
   py "Error: " ++ exn_str e;
   py "Please ensure the Ollama server is running.";
   py "(Start Ollama.app or run 'ollama serve' in your terminal).";
   py "---------------------------------"].

(** An answer of [ollama.list()] with the models [models]. *)
Definition listing (models : list json) : json := JDict [(py "models", JList models)].

Definition named (name : pystr) : json := JDict [(py "name", JStr name)].

(** [main] ends with [sys.exit]. *)
Definition is_exit (r : Cli.ending) : bool :=
  match r with Cli.Exits _ => true | _ => false end.

(** ** llama_cli.py and moondream_cli.py: a single query *)

Module Query.

(** What [process_query] does that can be observed: the request sent to the
    backend and the text written to the standard output.  The diagnostics
    and the token report, written to the standard error, are not
    recorded. *)
Inductive effect :=
| Asks (messages : list Chat.message)
| Prints (text : pystr).

Definition emit (e : effect) : prog (list effect) unit :=
  fun log => (Return tt, log ++ [e]).

Section Variant.

(** [moondream_cli] skips a chunk with an empty list of choices
    ([guarded]) and returns at once when the path does not exist
    ([checks_path]); [llama_cli] does neither. *)
Variable guarded : bool.
Variable checks_path : bool.

(** The [for chunk in response] loop: each content that is not empty is
    printed as it arrives. *)
Fixpoint stream_out (chunks : list Chat.chunk) (stream_error : option exn)
  : prog (list effect) unit :=
  match chunks with
  | [] =>
      match stream_error with
      | Some e => lift (Raise e)
      | None => ret tt
      end
  | Chat.NoChoices :: rest => stream_out rest stream_error
  | Chat.EmptyChoices :: rest =>
      if guarded then stream_out rest stream_error
      else lift (Raise (Exn IndexError (py "list index out of range")))
  | Chat.Delta content :: rest =>
      match content with
      | [] => ret tt
      | _ :: _ => emit (Prints content)
      end ;;;
      stream_out rest stream_error
  end.

(** [process_query(prompt, image_path)]: the message is built (or the
    function returns, when the image cannot be had), the backend is asked
    with that one message, and the reply is printed, followed by
    [print("\n")]. *)
Definition process_query (t : Chat.turn) (prompt : pystr)
    (image_path : option pystr) : prog (list effect) unit :=
  built <-
    match image_path with
    | Some ((_ :: _) as path) =>
        if (checks_path && negb (Chat.path_exists t path))%bool then ret None
        else
          try_except
            (image_uri <- lift (Chat.load_image t path) ;;
             ret (Some (Chat.Message Chat.USER (Chat.ImageAndText image_uri prompt))))
            (fun e => if is_Exception e then Some (ret None) else None)
    | _ => ret (Some (Chat.Message Chat.USER (Chat.Text prompt)))
    end ;;
  match built with
  | None => ret tt
  | Some message =>
      try_except
        (emit (Asks [message]) ;;;
         response <- lift (Chat.completion t [message]) ;;
         stream_out (fst response) (snd response) ;;;
         emit (Prints [10; 10]%N))
        (fun e => if is_Exception e then Some (ret tt) else None)
  end.

End Variant.

(** The text on the standard output, and the requests sent. *)
Definition printed (log : list effect) : pystr :=
  concat (map (fun e => match e with Prints text => text | Asks _ => [] end) log).

Definition requests (log : list effect) : list (list Chat.message) :=
  flat_map (fun e => match e with Asks messages => [messages] | Prints _ => [] end)
    log.

End Query.

Module LlamaQuery.
Definition process_query
  : Chat.turn -> pystr -> option pystr -> prog (list Query.effect) unit :=
  Query.process_query false false.
End LlamaQuery.

Module MoondreamQuery.
Definition process_query
  : Chat.turn -> pystr -> option pystr -> prog (list Query.effect) unit :=
  Query.process_query true true.
End MoondreamQuery.

(** The chunks that come before the first one with an empty list of
    choices. *)
Fixpoint before_empty (chunks : list Chat.chunk) : list Chat.chunk :=
  match chunks with
  | [] => []
  | c :: rest => if has_choices c then c :: before_empty rest else []
  end.

(** A backend that streams [chunks] for any request. *)
Definition streaming (chunks : list Chat.chunk) : Chat.turn := typing [] chunks.

(** * Facts about the string operations *)

Lemma lstrip_with_head (p : N -> bool) (c : N) (s : pystr) :
  p c = false -> lstrip_with p (c :: s) = c :: s.
Proof. intros H. simpl. now rewrite H. Qed.

Lemma rstrip_with_last (p : N -> bool) (s : pystr) (c : N) :
  p c = false -> rstrip_with p (s ++ [c]) = s ++ [c].
Proof.
  intros H. unfold rstrip_with. rewrite rev_app_distr. simpl.
  rewrite H. simpl. now rewrite rev_involutive.
Qed.

Lemma strip_with_ends (p : N -> bool) (a b : N) (s : pystr) :
  p a = false -> p b = false ->
  strip_with p (a :: s ++ [b]) = a :: s ++ [b].
Proof.
  intros Ha Hb. unfold strip_with. rewrite lstrip_with_head by exact Ha.
  change (a :: s ++ [b]) with ((a :: s) ++ [b]).
  now apply rstrip_with_last.
Qed.

Lemma startswith_app (p s : pystr) : startswith (p ++ s) p = true.
Proof. induction p as [|c p IH]; simpl; [reflexivity|]. now rewrite N.eqb_refl. Qed.

Lemma startswith_nil (s : pystr) : startswith s [] = true.
Proof. now destruct s. Qed.

Lemma startswith_prefix (s a b : pystr) :
  startswith s (a ++ b) = true -> startswith s a = true.
Proof.
  revert s; induction a as [|c a IH]; intros s H; [apply startswith_nil|].
  destruct s as [|x s]; simpl in *; [discriminate|].
  apply andb_prop in H as [H1 H2]. rewrite H1. simpl. now apply IH.
Qed.

Lemma find_startswith (s sub : pystr) :
  startswith s sub = true -> find s sub = Some 0.
Proof. intros H. destruct s; simpl in *; now rewrite H. Qed.

Lemma contains_prefix (s a b : pystr) :
  contains s (a ++ b) = true -> contains s a = true.
Proof.
  unfold contains. induction s as [|c s IH]; simpl.
  - destruct (startswith [] (a ++ b)) eqn:E; [|discriminate].
    intros _. now rewrite (startswith_prefix _ _ _ E).
  - destruct (startswith (c :: s) (a ++ b)) eqn:E.
    + intros _. now rewrite (startswith_prefix _ _ _ E).
    + destruct (startswith (c :: s) a); [reflexivity|].
      destruct (find s (a ++ b)); [|discriminate].
      intros _. specialize (IH eq_refl). now destruct (find s a).
Qed.

Lemma contains_fence_json (s : pystr) :
  contains s FENCE = false -> contains s FENCE_JSON = false.
Proof.
  intros H. destruct (contains s FENCE_JSON) eqn:E; [|reflexivity].
  change FENCE_JSON with (FENCE ++ py "json") in E.
  apply contains_prefix in E. congruence.
Qed.

Lemma rfind_last (s : pystr) (c : N) :
  rfind (s ++ [c]) [c] = Some (length s).
Proof.
  induction s as [|x s IH]; simpl.
  - now rewrite N.eqb_refl.
  - now rewrite IH.
Qed.

Lemma slice_whole (s : pystr) :
  slice s (Some 0%Z) (Some (Z.of_nat (length s))) = s.
Proof.
  unfold slice, adjust_index. cbv zeta.
  change (0 <? 0)%Z with false. cbv iota.
  replace (Z.of_nat (length s) <? 0)%Z with false
    by (symmetry; apply Z.ltb_ge; lia).
  replace (Z.max 0 (Z.min (Z.of_nat (length s)) 0)) with 0%Z by lia.
  replace (Z.max 0 (Z.min (Z.of_nat (length s)) (Z.of_nat (length s))) - 0)%Z
    with (Z.of_nat (length s)) by lia.
  rewrite Nat2Z.id. simpl. apply firstn_all.
Qed.

Lemma slice_fenced (interior : pystr) :
  slice (FENCE_JSON ++ interior ++ FENCE) (Some 7%Z) (Some (-3)%Z) = interior.
Proof.
  unfold slice, adjust_index.
  rewrite !length_app. change (length FENCE_JSON) with 7. change (length FENCE) with 3.
  change (7 <? 0)%Z with false. change (-3 <? 0)%Z with true. cbv iota.
  set (n := length interior).
  replace (Z.max 0 (Z.min (Z.of_nat (7 + (n + 3))) 7)) with 7%Z by lia.
  replace (Z.max 0 (Z.min (Z.of_nat (7 + (n + 3))) (-3 + Z.of_nat (7 + (n + 3)))))
    with (Z.of_nat n + 7)%Z by lia.
  replace (Z.of_nat n + 7 - 7)%Z with (Z.of_nat n) by lia.
  rewrite Nat2Z.id. change (Z.to_nat 7) with (length FENCE_JSON).
  rewrite skipn_app, skipn_all, Nat.sub_diag. simpl. subst n.
  rewrite firstn_app, firstn_all, Nat.sub_diag. simpl. apply app_nil_r.
Qed.

Lemma split_from_cons (sep s : pystr) (skip : nat) (cur : pystr) :
  exists piece pieces, split_from sep s skip cur = piece :: pieces.
Proof.
  revert skip cur; induction s as [|c s IH]; intros skip cur; simpl.
  - now exists (rev cur), [].
  - destruct skip as [|k]; [|apply IH].
    destruct (startswith (c :: s) sep); [|apply IH].
    now exists (rev cur), (split_from sep s (length sep - 1) []).
Qed.

Lemma find_rfind (s sub : pystr) (i : nat) :
  find s sub = Some i -> exists j, rfind s sub = Some j.
Proof.
  revert i; induction s as [|c s IH]; intros i; simpl.
  - destruct (startswith [] sub); [now exists 0 | discriminate].
  - destruct (startswith (c :: s) sub) eqn:E.
    + intros _. destruct (rfind s sub) as [j|]; [now exists (S j) | now exists 0].
    + destruct (find s sub) as [i'|]; [|discriminate].
      intros _. destruct (IH i' eq_refl) as [j ->]. now exists (S j).
Qed.

Lemma contains_find (s sub : pystr) :
  contains s sub = true -> exists i, find s sub = Some i.
Proof. unfold contains. destruct (find s sub) as [i|]; [now exists i | discriminate]. Qed.

Lemma split_contains (sep s : pystr) (cur : pystr) :
  sep <> [] -> contains s sep = true ->
  exists first second pieces,
    split_from sep s 0 cur = first :: second :: pieces.
Proof.
  intros Hsep. unfold contains.
  revert cur; induction s as [|c s IH]; intros cur; simpl.
  - destruct sep; [congruence | discriminate].
  - destruct (startswith (c :: s) sep) eqn:E.
    + intros _.
      destruct (split_from_cons sep s (length sep - 1) []) as (p & ps & ->).
      now exists (rev cur), p, ps.
    + destruct (find s sep) as [i|]; [|discriminate].
      intros _. now apply IH.
Qed.

(** * Facts about the programs *)

Lemma FENCE_JSON_nonempty : FENCE_JSON <> [].
Proof. discriminate. Qed.

Lemma FENCE_nonempty : FENCE <> [].
Proof. discriminate. Qed.

Lemma strip_fences_text (text : pystr) (tr : list event) :
  NewGradio.strip_fences (State (Some text) tr)
  = (Return tt, State (Some (without_fences text)) tr).
Proof.
  unfold NewGradio.strip_fences, without_fences, between_fences, bind,
    get_text, lift, set_text, ret, split.
  cbn [local_text trace].
  destruct (contains text FENCE_JSON) eqn:EJ.
  - destruct (split_contains FENCE_JSON text [] FENCE_JSON_nonempty EJ)
      as (a & b & r & ->).
    cbn [subscript nth_error nth].
    destruct (split_from_cons FENCE b 0 []) as (p & ps & ->). reflexivity.
  - destruct (contains text FENCE) eqn:EF; [|reflexivity].
    destruct (split_contains FENCE text [] FENCE_nonempty EF)
      as (a & b & r & ->).
    cbn [subscript nth_error nth].
    destruct (split_from_cons FENCE b 0 []) as (p & ps & ->). reflexivity.
Qed.

Lemma extract_braces_text (text : pystr) (tr : list event) :
  NewGradio.extract_braces (State (Some text) tr)
  = (Return tt, State (Some (within_braces text)) tr).
Proof.
  unfold NewGradio.extract_braces, within_braces, brace_span, bind, get_text,
    lift, set_text, ret, index, rindex.
  cbn [local_text trace].
  destruct (contains text (py "{")) eqn:E1; [|reflexivity].
  destruct (contains text (py "}")) eqn:E2; [|reflexivity].
  destruct (contains_find _ _ E1) as [i Hi].
  destruct (contains_find _ _ E2) as [i' Hi'].
  destruct (find_rfind _ _ _ Hi') as [j Hj].
  cbn [andb]. rewrite Hi, Hj. reflexivity.
Qed.

(** The cleaning block of [new_gradio] always ends with [text] bound to
    [candidate content]; it makes no external call and raises nothing. *)
Lemma clean_output_text (content : pystr) (st : state) :
  NewGradio.clean_output content st
  = (Return tt, State (Some (candidate content)) (trace st)).
Proof.
  unfold NewGradio.clean_output, candidate, bind, set_text.
  rewrite strip_fences_text, extract_braces_text. reflexivity.
Qed.

Lemma loads_raises (s : pystr) (e : exn) :
  loads s = Raise e -> exn_cls e = JSONDecodeError.
Proof.
  unfold loads. destruct (json_decode s) as [v|[err n]]; [discriminate|].
  intros H. injection H as <-. reflexivity.
Qed.

Lemma loads_raises_Exception (s : pystr) (e : exn) :
  loads s = Raise e -> is_Exception e = true /\ is_JSONDecodeError e = true.
Proof.
  intros H. apply loads_raises in H. unfold is_Exception, is_JSONDecodeError.
  now rewrite H.
Qed.

Lemma gradio_app_parse_output (json_text : pystr) (st : state) :
  GradioApp.parse_output json_text st
  = (Return (parsed_or GradioApp.parse_failure json_text), st).
Proof.
  unfold GradioApp.parse_output, try_or_return, lift, ret, parsed_or.
  destruct (loads json_text) as [v|e] eqn:H; [reflexivity|].
  now rewrite (proj1 (loads_raises_Exception _ _ H)).
Qed.

Lemma ollama_gradio_parse_output (json_text : pystr) (st : state) :
  OllamaGradio.parse_output json_text st
  = (Return (parsed_or OllamaGradio.parse_failure json_text), st).
Proof.
  unfold OllamaGradio.parse_output, try_or_return, lift, ret, parsed_or.
  destruct (loads json_text) as [v|e] eqn:H; [reflexivity|].
  now rewrite (proj1 (loads_raises_Exception _ _ H)).
Qed.

Lemma ollama_moondream_parse_output (json_text : pystr) (st : state) :
  OllamaMoondream.parse_output json_text st
  = (Return (parsed_or OllamaMoondream.parse_failure json_text), st).
Proof.
  unfold OllamaMoondream.parse_output, try_or_return, lift, ret, parsed_or.
  destruct (loads json_text) as [v|e] eqn:H; [reflexivity|].
  now rewrite (proj1 (loads_raises_Exception _ _ H)).
Qed.

Lemma gradio_app_repair_pass (content : pystr) :
  run (GradioApp.repair_pass content)
  = (Return (parsed_or GradioApp.parse_failure (GradioApp.clean_output content)), []).
Proof.
  unfold run, GradioApp.repair_pass. now rewrite gradio_app_parse_output.
Qed.

Lemma ollama_gradio_repair_pass (content : pystr) :
  run (OllamaGradio.repair_pass content)
  = (Return (parsed_or OllamaGradio.parse_failure (OllamaGradio.clean_output content)), []).
Proof.
  unfold run, OllamaGradio.repair_pass. now rewrite ollama_gradio_parse_output.
Qed.

Lemma ollama_moondream_repair_pass (content : pystr) :
  run (OllamaMoondream.repair_pass content)
  = (Return (parsed_or OllamaMoondream.parse_failure
               (OllamaMoondream.clean_output content)), []).
Proof.
  unfold run, OllamaMoondream.repair_pass.
  now rewrite ollama_moondream_parse_output.
Qed.

Lemma setitem_raises (v : json) (k : pystr) (x : json) (e : exn) :
  setitem v k x = Raise e -> exn_cls e = TypeError.
Proof. destruct v; simpl; intros H; try discriminate; now injection H as <-. Qed.

Lemma new_gradio_repair_from (ocr_text content : pystr) (reply : web pystr)
    (st st1 : state) :
  reply st = (Return content, st1) ->
  NewGradio.repair_pass ocr_text reply st
  = (Return (structured ocr_text content),
     State (Some (candidate content)) (trace st1)).
Proof.
  intros Hr. unfold NewGradio.repair_pass, try_except, bind at 1. rewrite Hr.
  unfold bind at 1. rewrite clean_output_text.
  unfold bind, get_text, lift, ret, structured. cbn [local_text trace].
  destruct (loads (candidate content)) as [v|e] eqn:H.
  - destruct (setitem v NewGradio.RAW_OCR_KEY (JStr ocr_text)) as [v'|e'] eqn:H';
      [reflexivity|].
    unfold is_JSONDecodeError, is_Exception.
    now rewrite (setitem_raises _ _ _ _ H').
  - now rewrite (proj2 (loads_raises_Exception _ _ H)).
Qed.

Lemma new_gradio_repair_pass (ocr_text content : pystr) :
  run (NewGradio.repair_pass ocr_text (ret content))
  = (Return (structured ocr_text content), []).
Proof.
  unfold run.
  now rewrite (new_gradio_repair_from ocr_text content (ret content)
                 (State None []) (State None []) eq_refl).
Qed.

(** With the model loaded, an image that encodes and a backend that replies,
    [parse_business_card] is the repair pass on the reply, after the
    external calls. *)
Lemma gradio_app_runs_repair_pass (w : world) (img : image) (uri content : pystr) :
  vlm_loaded w = true ->
  encode_image w img = Return uri ->
  chat_content w uri = Return content ->
  run (GradioApp.parse_business_card w (Some img))
  = (fst (run (GradioApp.repair_pass content)), [EvEncode img; EvChat uri]).
Proof.
  intros Hl He Hc. rewrite gradio_app_repair_pass.
  unfold GradioApp.parse_business_card, try_or_return, call, bind, ret, run.
  rewrite Hl. cbn [negb local_text trace]. rewrite He.
  cbn [local_text trace app]. rewrite Hc, gradio_app_parse_output. reflexivity.
Qed.

Lemma ollama_gradio_runs_repair_pass (w : world) (img : image) (b64 content : pystr) :
  encode_image w img = Return b64 ->
  chat_content w b64 = Return content ->
  run (OllamaGradio.parse_business_card w (Some img))
  = (fst (run (OllamaGradio.repair_pass content)), [EvEncode img; EvChat b64]).
Proof.
  intros He Hc. rewrite ollama_gradio_repair_pass.
  unfold OllamaGradio.parse_business_card, try_or_return, call, bind, ret, run.
  cbn [local_text trace]. rewrite He.
  cbn [local_text trace app]. rewrite Hc, ollama_gradio_parse_output. reflexivity.
Qed.

Lemma ollama_moondream_runs_repair_pass (w : world) (img : image)
    (bytes content : pystr) :
  encode_image w img = Return bytes ->
  chat_content w bytes = Return content ->
  run (OllamaMoondream.parse_business_card w (Some img))
  = (fst (run (OllamaMoondream.repair_pass content)),
     [EvEncode img; EvChat bytes]).
Proof.
  intros He Hc. rewrite ollama_moondream_repair_pass.
  unfold OllamaMoondream.parse_business_card, try_or_return, call, bind, ret, run.
  cbn [local_text trace]. rewrite He.
  cbn [local_text trace app]. rewrite Hc, ollama_moondream_parse_output.
  reflexivity.
Qed.

Lemma new_gradio_runs_repair_pass (w : world) (img : image) (text content : pystr) :
  llm_loaded w = true ->
  image_to_string w img = Return text ->
  strip text <> [] ->
  contains (strip text) (py "OCR Error") = false ->
  chat_content w (strip text) = Return content ->
  run (NewGradio.parse_business_card w (Some img))
  = (fst (run (NewGradio.repair_pass (strip text) (ret content))),
     [EvOCR img; EvChat (strip text)]).
Proof.
  intros Hl Ho Hne Hoe Hc. rewrite new_gradio_repair_pass.
  unfold NewGradio.parse_business_card, NewGradio.extract_text_from_image,
    try_except, run, bind at 1.
  unfold bind at 1, call at 1, ret at 1. rewrite Ho. cbn [local_text trace app].
  destruct (strip text) as [|c ocr] eqn:E; [congruence|].
  rewrite Hoe, Hl. cbn [orb negb].
  erewrite new_gradio_repair_from by (unfold call; now rewrite Hc).
  reflexivity.
Qed.

Lemma rfind_find (s sub : pystr) (j : nat) :
  rfind s sub = Some j -> exists i, find s sub = Some i.
Proof.
  revert j; induction s as [|c s IH]; intros j; simpl.
  - destruct (startswith [] sub); [now exists 0 | discriminate].
  - destruct (startswith (c :: s) sub); [now exists 0|].
    destruct (rfind s sub) as [j'|]; [|discriminate].
    intros _. destruct (IH j' eq_refl) as [i ->]. now exists (S i).
Qed.

Lemma contains_last (s : pystr) (c : N) : contains (s ++ [c]) [c] = true.
Proof.
  unfold contains.
  destruct (rfind_find _ _ _ (rfind_last s c)) as [i ->]. reflexivity.
Qed.

Lemma strip_fenced (interior : pystr) :
  strip (FENCE_JSON ++ interior ++ FENCE) = FENCE_JSON ++ interior ++ FENCE.
Proof.
  assert (E : FENCE_JSON ++ interior ++ FENCE
              = 96%N :: (py "``json" ++ interior ++ py "``") ++ [96%N]).
  { change FENCE_JSON with ([96%N] ++ py "``json").
    change FENCE with (py "``" ++ [96%N]).
    now rewrite <- !app_assoc. }
  rewrite E. unfold strip. now rewrite strip_with_ends.
Qed.

Lemma clean_output_fenced (interior : pystr) :
  GradioApp.clean_output (FENCE_JSON ++ interior ++ FENCE) = strip interior.
Proof.
  unfold GradioApp.clean_output. rewrite strip_fenced, startswith_app.
  now rewrite slice_fenced.
Qed.

Lemma clean_output_unfenced (content : pystr) :
  startswith (strip content) FENCE_JSON = false ->
  GradioApp.clean_output content = strip content.
Proof. intros H. unfold GradioApp.clean_output. now rewrite H. Qed.

Lemma moondream_clean_output_unfenced (content : pystr) :
  startswith (strip content) (py "`") = false ->
  OllamaMoondream.clean_output content = strip content.
Proof.
  intros H. unfold OllamaMoondream.clean_output. rewrite H.
  destruct (startswith (strip content) FENCE_JSON) eqn:E; [|reflexivity].
  change FENCE_JSON with (py "`" ++ py "``json") in E.
  apply startswith_prefix in E. congruence.
Qed.

Lemma candidate_unfenced (content : pystr) :
  contains (strip content) FENCE = false ->
  (contains (strip content) (py "{") && contains (strip content) (py "}"))%bool
  = false ->
  candidate content = strip content.
Proof.
  intros Hf Hb. unfold candidate, without_fences, within_braces.
  now rewrite (contains_fence_json _ Hf), Hf, Hb.
Qed.

(** The span from the first opening brace to the last closing brace of a
    text that starts and ends with them is the whole text, whatever braces
    lie between. *)
Lemma candidate_braced (body : pystr) :
  contains (123%N :: body ++ [125%N]) FENCE = false ->
  candidate (123%N :: body ++ [125%N]) = 123%N :: body ++ [125%N].
Proof.
  intros Hf. unfold candidate. unfold strip.
  rewrite strip_with_ends by reflexivity.
  unfold without_fences. rewrite (contains_fence_json _ Hf), Hf.
  unfold within_braces, brace_span.
  change (123%N :: body ++ [125%N]) with ((123%N :: body) ++ [125%N]).
  change (py "}") with [125%N].
  rewrite contains_last, rfind_last.
  change ((123%N :: body) ++ [125%N]) with (py "{" ++ body ++ [125%N]).
  unfold contains. rewrite (find_startswith _ _ (startswith_app _ _)).
  cbn [andb].
  replace (Z.of_nat (length (123%N :: body)) + 1)%Z
    with (Z.of_nat (length (py "{" ++ body ++ [125%N]))).
  - apply slice_whole.
  - cbn [py map list_ascii_of_string app length]. rewrite length_app.
    cbn [length]. lia.
Qed.

(** * Facts about the REPL *)

Section ChatFacts.

Variable split_once : pystr -> pystr -> list pystr.
Variable guarded : bool.

(** Working out the prompt and building the message leave the conversation
    as it is. *)
Lemma parse_input_keeps (t : Chat.turn) (user_input : pystr)
    (conversation : list Chat.message) :
  snd (Chat.parse_input split_once t user_input conversation) = conversation.
Proof.
  unfold Chat.parse_input, bind, lift, ret.
  destruct (contains user_input Chat.SEPARATOR); [|reflexivity].
  destruct (subscript _ 0); [|reflexivity].
  destruct (subscript _ 1); [|reflexivity].
  now destruct (Chat.path_exists t _).
Qed.

Lemma build_message_keeps (t : Chat.turn) (prompt : pystr)
    (image_path : option pystr) (conversation : list Chat.message) :
  snd (Chat.build_message t prompt image_path conversation) = conversation.
Proof.
  unfold Chat.build_message, try_except, bind, lift, ret.
  destruct image_path as [[|c path]|]; try reflexivity.
  destruct (Chat.load_image t (c :: path)) as [uri|e]; [reflexivity|].
  now destruct (is_Exception e).
Qed.

(** After the user message is appended, the rest of the block adds the
    assistant's reply or, when the backend or the stream raises, nothing. *)
Lemma exchange_appends (t : Chat.turn) (m : Chat.message)
    (conversation : list Chat.message) :
  snd (Chat.exchange guarded t m conversation) = conversation ++ [m]
  \/ exists r,
       snd (Chat.exchange guarded t m conversation)
       = conversation ++ [m; Chat.Message Chat.ASSISTANT (Chat.Text r)].
Proof.
  unfold Chat.exchange, Chat.append, Chat.get_conversation, bind, lift, ret.
  destruct (Chat.completion t (conversation ++ [m])) as [response|e];
    [|now left].
  destruct (Chat.consume guarded (fst response) (snd response) []) as [r|e];
    [|now left].
  right. exists r. cbn [snd]. now rewrite <- app_assoc.
Qed.

(** One pass through the [try] block leaves the conversation as it was, or
    with a user message added, or with a user message and the assistant's
    reply added. *)
Lemma turn_body_appends (t : Chat.turn) (conversation : list Chat.message) :
  exists added,
    snd (Chat.turn_body split_once guarded t conversation) = conversation ++ added
    /\ (added = []
        \/ (exists m, added = [m])
        \/ (exists m r, added = [m; Chat.Message Chat.ASSISTANT (Chat.Text r)])).
Proof.
  assert (Hnil : exists added : list Chat.message,
             conversation = conversation ++ added
             /\ (added = []
                 \/ (exists m, added = [m])
                 \/ (exists m r,
                       added = [m; Chat.Message Chat.ASSISTANT (Chat.Text r)])))
    by (exists []; split; [now rewrite app_nil_r | now left]).
  unfold Chat.turn_body, bind at 1, lift at 1.
  destruct (Chat.typed t) as [line|e]; [|exact Hnil].
  destruct (strip line) as [|c user_input]; [exact Hnil|].
  destruct (existsb _ _); [exact Hnil|].
  unfold bind at 1.
  pose proof (parse_input_keeps t (c :: user_input) conversation) as Hp.
  destruct (Chat.parse_input split_once t (c :: user_input) conversation)
    as [[parsed|e] conv1]; cbn [snd] in Hp; subst conv1; [|exact Hnil].
  unfold bind at 1.
  pose proof (build_message_keeps t (fst parsed) (snd parsed) conversation) as Hb.
  destruct (Chat.build_message t (fst parsed) (snd parsed) conversation)
    as [[[m|]|e] conv2]; cbn [snd] in Hb; subst conv2; try exact Hnil.
  destruct (exchange_appends t m conversation) as [H | [r H]]; rewrite H.
  - exists [m]. split; [reflexivity | right; left; now exists m].
  - eexists. split; [reflexivity | right; right; now exists m, r].
Qed.

(** An iteration always completes: every exception is handled. *)
Lemma iteration_completes (t : Chat.turn) (conversation : list Chat.message) :
  exists c,
    Chat.iteration split_once guarded t conversation
    = (Return c, snd (Chat.turn_body split_once guarded t conversation)).
Proof.
  unfold Chat.iteration, try_except.
  destruct (Chat.turn_body split_once guarded t conversation) as [[c|e] conv'].
  - now exists c.
  - destruct (is_Exception e); eexists; reflexivity.
Qed.

(** The conversation only grows: what a session leaves extends what any
    shorter session left. *)
Lemma loop_appends (turns : list Chat.turn) (conversation : list Chat.message) :
  exists added,
    Chat.loop split_once guarded turns conversation
    = (Return tt, conversation ++ added).
Proof.
  revert conversation; induction turns as [|t turns IH]; intros conversation.
  - exists []. cbn. unfold ret. now rewrite app_nil_r.
  - cbn [Chat.loop]. unfold bind.
    destruct (iteration_completes t conversation) as [c ->].
    destruct (turn_body_appends t conversation) as (added & -> & _).
    destruct c.
    + destruct (IH (conversation ++ added)) as [added' ->].
      exists (added ++ added'). now rewrite app_assoc.
    + exists added. reflexivity.
Qed.

Lemma chat_mode_append_only (turns more : list Chat.turn) :
  exists added,
    Chat.chat_mode split_once guarded (turns ++ more)
    = Chat.chat_mode split_once guarded turns ++ added.
Proof.
  unfold Chat.chat_mode. generalize (@nil Chat.message) as conversation.
  induction turns as [|t turns IH]; intros conversation.
  - cbn [app Chat.loop]. unfold ret. cbn [snd].
    destruct (loop_appends more conversation) as [added ->]. now exists added.
  - cbn [app Chat.loop]. unfold bind.
    destruct (iteration_completes t conversation) as [c ->].
    destruct c; [apply IH|]. exists []. now rewrite app_nil_r.
Qed.

End ChatFacts.

(** * [json.loads] after [json.dumps] *)

Ltac Zify.zify_post_hook ::= Z.to_euclidean_division_equations.

Ltac N_cases :=
  repeat match goal with
         | |- context [(?a =? ?b)%N] => destruct (N.eqb_spec a b)
         | |- context [(?a <=? ?b)%N] => destruct (N.leb_spec a b)
         | |- context [(?a <? ?b)%N] => destruct (N.ltb_spec a b)
         end.

Lemma hexval_hexdigit (d : N) : (d < 16)%N -> hexval (hexdigit d) = Some d.
Proof.
  intros H. unfold hexdigit, hexval.
  destruct (N.ltb_spec d 10); N_cases; cbn [andb]; try lia; f_equal; lia.
Qed.

Lemma hex4_u_escape (n : N) :
  (n < 65536)%N ->
  hex4 (hexdigit (n / 4096 mod 16)) (hexdigit (n / 256 mod 16))
       (hexdigit (n / 16 mod 16)) (hexdigit (n mod 16)) = Some n.
Proof.
  intros H. unfold hex4.
  rewrite !hexval_hexdigit by (apply N.mod_lt; discriminate).
  f_equal. lia.
Qed.

(** One step of [scanstring] at a [\uXXXX] escape that is followed by at
    least one character. *)
Lemma scanstring_unicode_step (begin : nat) (h1 h2 h3 h4 t0 : N)
    (tail acc : pystr) :
  scanstring begin (92 :: 117 :: h1 :: h2 :: h3 :: h4 :: t0 :: tail)%N acc
  = match hex4 h1 h2 h3 h4 with
    | None => inr (InvalidUnicodeEscape, 6 + length tail)
    | Some u =>
        if is_high_surrogate u then
          match tail with
          | u' :: g1 :: g2 :: g3 :: g4 :: ((_ :: _) as s12) =>
              if ((t0 =? 92) && (u' =? 117))%N then
                match hex4 g1 g2 g3 g4 with
                | None => inr (InvalidUnicodeEscape, 5 + length s12)
                | Some u2 =>
                    if is_low_surrogate u2
                    then scanstring begin s12 (join_surrogates u u2 :: acc)
                    else scanstring begin (t0 :: tail) (u :: acc)
                end
              else scanstring begin (t0 :: tail) (u :: acc)
          | _ => scanstring begin (t0 :: tail) (u :: acc)
          end
        else scanstring begin (t0 :: tail) (u :: acc)
    end.
Proof.
  destruct tail as [|t1 [|t2 [|t3 [|t4 [|t5 [|t6 tail]]]]]]; reflexivity.
Qed.

(** Reading one [\uXXXX] escape that is not the first half of a pair. *)
Lemma scanstring_u_escape (begin : nat) (c : N) (tail acc : pystr) :
  (c < 65536)%N ->
  tail <> [] ->
  (is_high_surrogate c = true -> pairs_up tail = false) ->
  scanstring begin (u_escape c ++ tail) acc = scanstring begin tail (c :: acc).
Proof.
  intros Hc Hne Hp. unfold u_escape.
  destruct tail as [|t0 tail]; [congruence|].
  cbn [app]. rewrite scanstring_unicode_step, (hex4_u_escape c Hc).
  destruct (is_high_surrogate c); [|reflexivity].
  specialize (Hp eq_refl). unfold pairs_up in Hp.
  destruct tail as [|t1 [|t2 [|t3 [|t4 [|t5 [|t6 tail]]]]]]; try reflexivity.
  destruct (t0 =? 92)%N; [|reflexivity].
  destruct (t1 =? 117)%N; [|reflexivity].
  cbn [andb] in Hp |- *.
  destruct (hex4 t2 t3 t4 t5) as [lo|]; [|discriminate].
  now rewrite Hp.
Qed.

(** Reading the two escapes of a character above the basic plane. *)
Lemma scanstring_pair (begin : nat) (c : N) (tail acc : pystr) :
  (65536 <= c)%N -> (c < 1114112)%N ->
  tail <> [] ->
  scanstring begin
    (u_escape (55296 + (c - 65536) / 1024 mod 1024)
       ++ u_escape (56320 + (c - 65536) mod 1024) ++ tail) acc
  = scanstring begin tail (c :: acc).
Proof.
  intros Hlo Hhi Hne.
  set (hi := (55296 + (c - 65536) / 1024 mod 1024)%N).
  set (lo := (56320 + (c - 65536) mod 1024)%N).
  assert (Hh : (55296 <= hi /\ hi <= 56319)%N) by (subst hi; lia).
  assert (Hl : (56320 <= lo /\ lo <= 57343)%N) by (subst lo; lia).
  assert (Hj : join_surrogates hi lo = c)
    by (unfold join_surrogates; subst hi lo; lia).
  assert (His : is_high_surrogate hi = true)
    by (unfold is_high_surrogate; apply andb_true_intro; split;
        apply N.leb_le; lia).
  assert (Hls : is_low_surrogate lo = true)
    by (unfold is_low_surrogate; apply andb_true_intro; split;
        apply N.leb_le; lia).
  clearbody hi lo. unfold u_escape.
  destruct tail as [|t0 tail]; [congruence|].
  cbn [app]. rewrite scanstring_unicode_step.
  rewrite (hex4_u_escape hi) by lia. rewrite His.
  change (92 =? 92)%N with true. change (117 =? 117)%N with true. cbn [andb].
  rewrite (hex4_u_escape lo) by lia. now rewrite Hls, Hj.
Qed.

(** Reading back one escaped character. *)
Lemma scanstring_escape_char (begin : nat) (c : N) (tail acc : pystr) :
  (c < 1114112)%N ->
  tail <> [] ->
  (is_high_surrogate c = true -> pairs_up tail = false) ->
  scanstring begin (escape_char c ++ tail) acc = scanstring begin tail (c :: acc).
Proof.
  intros Hc Hne Hp. unfold escape_char.
  destruct (N.eqb_spec c 34); [subst; reflexivity|].
  destruct (N.eqb_spec c 92); [subst; reflexivity|].
  destruct (N.eqb_spec c 10); [subst; reflexivity|].
  destruct (N.eqb_spec c 13); [subst; reflexivity|].
  destruct (N.eqb_spec c 9); [subst; reflexivity|].
  destruct (N.eqb_spec c 12); [subst; reflexivity|].
  destruct (N.eqb_spec c 8); [subst; reflexivity|].
  destruct (N.leb_spec 32 c); cbn [andb].
  - destruct (N.leb_spec c 126); cbn [andb].
    + cbn [app scanstring].
      destruct (N.eqb_spec c 34); [congruence|].
      destruct (N.eqb_spec c 92); [congruence|].
      destruct (N.leb_spec c 31); [lia | reflexivity].
    + destruct (N.ltb_spec c 65536).
      * now apply scanstring_u_escape.
      * cbv zeta. rewrite <- app_assoc. now apply scanstring_pair.
  - destruct (N.ltb_spec c 65536); [|lia]. now apply scanstring_u_escape.
Qed.

(** What follows a character that is not a low surrogate does not pair up
    with a high surrogate before it. *)
Lemma pairs_up_escaped (s rest : pystr) :
  match s with c :: _ => is_low_surrogate c = false | [] => True end ->
  pairs_up (flat_map escape_char s ++ 34%N :: rest) = false.
Proof.
  destruct s as [|c s]; [reflexivity|]. intros Hlow.
  cbn [flat_map]. rewrite <- app_assoc.
  set (tail := flat_map escape_char s ++ 34%N :: rest).
  unfold escape_char.
  destruct (N.eqb_spec c 34); [reflexivity|].
  destruct (N.eqb_spec c 92); [reflexivity|].
  destruct (N.eqb_spec c 10); [reflexivity|].
  destruct (N.eqb_spec c 13); [reflexivity|].
  destruct (N.eqb_spec c 9); [reflexivity|].
  destruct (N.eqb_spec c 12); [reflexivity|].
  destruct (N.eqb_spec c 8); [reflexivity|].
  assert (Hu : forall n more,
             (n < 65536)%N -> is_low_surrogate n = false ->
             pairs_up (u_escape n ++ more) = false).
  { intros k more Hk Hl. unfold u_escape. cbn [app pairs_up].
    change (92 =? 92)%N with true. change (117 =? 117)%N with true. cbn [andb].
    destruct more as [|x more]; [reflexivity|].
    now rewrite (hex4_u_escape k Hk). }
  destruct (N.leb_spec 32 c); cbn [andb].
  - destruct (N.leb_spec c 126); cbn [andb].
    + cbn [app pairs_up]. now destruct (N.eqb_spec c 92).
    + destruct (N.ltb_spec c 65536); [now apply Hu|].
      cbv zeta. rewrite <- app_assoc. apply Hu; [lia|].
      unfold is_low_surrogate. apply andb_false_intro1. apply N.leb_gt. lia.
  - destruct (N.ltb_spec c 65536); [now apply Hu | lia].
Qed.

(** [json.loads] reads an escaped string back. *)
Lemma scanstring_escaped (s : pystr) :
  str_safe s = true ->
  forall (begin : nat) (acc rest : pystr),
    scanstring begin (flat_map escape_char s ++ 34%N :: rest) acc
    = inl (rev acc ++ s, rest).
Proof.
  induction s as [|c s IH]; intros Hs begin acc rest.
  - cbn. now rewrite app_nil_r.
  - cbn [str_safe] in Hs.
    apply andb_prop in Hs as [Hs Hs3]. apply andb_prop in Hs as [Hs1 Hs2].
    cbn [flat_map]. rewrite <- app_assoc.
    rewrite scanstring_escape_char.
    + rewrite (IH Hs3). cbn [rev]. now rewrite <- app_assoc.
    + now apply N.ltb_lt.
    + intros H. apply app_eq_nil in H. destruct H. discriminate.
    + intros Hh. rewrite Hh in Hs2. cbn [andb] in Hs2.
      apply pairs_up_escaped. destruct s as [|c' s]; [exact I|].
      now apply negb_true_iff in Hs2.
Qed.

Lemma scan_once_string (fuel : nat) (s rest : pystr) :
  str_safe s = true ->
  scan_once (S fuel) (encode_basestring_ascii s ++ rest) = inl (JStr s, rest).
Proof.
  intros Hs. unfold encode_basestring_ascii.
  cbn [app scan_once]. change (34 =? 34)%N with true. cbv iota.
  rewrite <- app_assoc. cbn [app].
  now rewrite (scanstring_escaped s Hs).
Qed.

(** ** Numbers *)

Lemma delimited_head (c : N) (rest : pystr) :
  delimited (c :: rest) = true ->
  isdigit c = false /\ (c =? 46)%N = false /\ (c =? 101)%N = false
  /\ (c =? 69)%N = false /\ (c =? 45)%N = false /\ (c =? 43)%N = false.
Proof.
  unfold delimited, isdigit. intros H.
  apply orb_prop in H as [H | H]; [apply orb_prop in H as [H | H]|];
    apply N.eqb_eq in H; subst c; repeat split; reflexivity.
Qed.

Lemma span_digits_app (s rest : pystr) :
  delimited rest = true ->
  span_digits (s ++ rest) = (fst (span_digits s), snd (span_digits s) ++ rest).
Proof.
  intros Hd. induction s as [|c s IH]; cbn [app span_digits].
  - destruct rest as [|c rest]; [reflexivity|].
    cbn [span_digits]. now rewrite (proj1 (delimited_head _ _ Hd)).
  - destruct (isdigit c); [|reflexivity].
    rewrite IH. now destruct (span_digits s).
Qed.

Lemma take_int_app (s rest ints r : pystr) :
  delimited rest = true ->
  take_int s = Some (ints, r) ->
  take_int (s ++ rest) = Some (ints, r ++ rest).
Proof.
  intros Hd. destruct s as [|c s]; [discriminate|]. cbn [app take_int].
  destruct (c =? 48)%N; [now intros [= <- <-]|].
  destruct (isdigit c); [|discriminate].
  rewrite (span_digits_app s rest Hd). destruct (span_digits s) as [ds r'].
  now intros [= <- <-].
Qed.

Lemma take_frac_app (s rest : pystr) :
  delimited rest = true ->
  take_frac (s ++ rest) = (fst (take_frac s), snd (take_frac s) ++ rest).
Proof.
  intros Hd. destruct s as [|dot [|d s]]; cbn [app].
  - destruct rest as [|c [|d rest]]; try reflexivity.
    cbn [take_frac].
    destruct (delimited_head _ _ Hd) as (_ & -> & _). reflexivity.
  - destruct rest as [|d rest]; [reflexivity|]. cbn [take_frac].
    destruct (delimited_head _ _ Hd) as (-> & _).
    now rewrite andb_false_r.
  - cbn [take_frac]. destruct ((dot =? 46)%N && isdigit d); [|reflexivity].
    rewrite (span_digits_app s rest Hd). now destruct (span_digits s).
Qed.

Lemma take_exp_app (s rest : pystr) :
  delimited rest = true ->
  take_exp (s ++ rest) = (fst (take_exp s), snd (take_exp s) ++ rest).
Proof.
  intros Hd. destruct rest as [|c0 rest].
  { rewrite !app_nil_r. now destruct (take_exp s). }
  destruct (delimited_head _ _ Hd) as (Hdig & _ & He1 & He2 & Hm & Hp).
  assert (Happ : forall x, span_digits (x ++ c0 :: rest)
                           = (fst (span_digits x), snd (span_digits x) ++ c0 :: rest))
    by (intros x; now apply span_digits_app).
  destruct s as [|e s]; cbn [app].
  - cbn [take_exp]. now rewrite He1, He2.
  - cbn [take_exp]. destruct ((e =? 101) || (e =? 69))%N; [|reflexivity].
    destruct s as [|c [|t s]]; cbn [app].
    + destruct rest as [|t rest]; [|rewrite Hm, Hp];
        cbn [span_digits]; now rewrite Hdig.
    + destruct (N.eqb_spec c 45) as [->|_].
      { cbn [span_digits]. rewrite Hdig. reflexivity. }
      destruct (N.eqb_spec c 43) as [->|_].
      { cbn [span_digits]. rewrite Hdig. reflexivity. }
      cbn [span_digits]. destruct (isdigit c); [|reflexivity].
      now rewrite Hdig.
    + destruct (c =? 45)%N.
      { change (t :: s ++ c0 :: rest) with ((t :: s) ++ c0 :: rest). rewrite Happ.
        destruct (span_digits (t :: s)) as [[|d ds] r]; reflexivity. }
      destruct (c =? 43)%N.
      { change (t :: s ++ c0 :: rest) with ((t :: s) ++ c0 :: rest). rewrite Happ.
        destruct (span_digits (t :: s)) as [[|d ds] r]; reflexivity. }
      change (c :: t :: s ++ c0 :: rest) with ((c :: t :: s) ++ c0 :: rest).
      rewrite Happ.
      destruct (span_digits (c :: t :: s)) as [[|d ds] r]; reflexivity.
Qed.

(** A number literal is read the same way when a delimiter follows it. *)
Lemma match_number_app (s rest : pystr) (p : number_parts) (r : pystr) :
  delimited rest = true ->
  match_number s = Some (p, r) ->
  match_number (s ++ rest) = Some (p, r ++ rest).
Proof.
  intros Hd. unfold match_number.
  assert (Hs : take_sign (s ++ rest)
               = (fst (take_sign s), snd (take_sign s) ++ rest)
               \/ s = []).
  { destruct s as [|c s]; [now right | left]. cbn [app take_sign].
    now destruct (c =? 45)%N. }
  destruct Hs as [Hs | ->]; [|discriminate].
  rewrite Hs. destruct (take_sign s) as [neg s1]. cbn [fst snd].
  destruct (take_int s1) as [[ints r0]|] eqn:Hi; [|discriminate].
  rewrite (take_int_app s1 rest ints r0 Hd Hi).
  rewrite (take_frac_app r0 rest Hd). destruct (take_frac r0) as [frac r1].
  cbn [fst snd].
  rewrite (take_exp_app r1 rest Hd). destruct (take_exp r1) as [ex r2].
  cbn [fst snd]. now intros [= <- <-].
Qed.

(** A number literal starts with a digit, or with a minus sign and a digit. *)
Lemma match_number_head (s : pystr) (p : number_parts) (r : pystr) :
  match_number s = Some (p, r) ->
  exists c s', s = c :: s'
    /\ ((isdigit c = true)
        \/ (c = 45%N /\ exists d s'', s' = d :: s'' /\ isdigit d = true)).
Proof.
  unfold match_number. destruct s as [|c s]; [discriminate|].
  intros H. exists c, s. split; [reflexivity|]. cbn [take_sign] in H.
  destruct (N.eqb_spec c 45) as [->|Hc].
  - right. split; [reflexivity|].
    destruct s as [|d s]; [discriminate|]. exists d, s. split; [reflexivity|].
    cbn [take_int] in H. destruct (N.eqb_spec d 48) as [->|]; [reflexivity|].
    now destruct (isdigit d).
  - left. cbn [take_int] in H. destruct (N.eqb_spec c 48) as [->|]; [reflexivity|].
    now destruct (isdigit c).
Qed.

Lemma isdigit_range (c : N) : isdigit c = true -> (48 <= c <= 57)%N.
Proof.
  unfold isdigit. intros H. apply andb_prop in H as [H1 H2].
  apply N.leb_le in H1, H2. lia.
Qed.

Lemma digit_not_space (c : N) :
  isdigit c = true -> isspace c = false /\ is_json_ws c = false.
Proof.
  intros H. apply isdigit_range in H.
  assert (Hc : In c [48; 49; 50; 51; 52; 53; 54; 55; 56; 57]%N)
    by (cbn [In]; lia).
  cbn [In] in Hc.
  repeat (destruct Hc as [<- | Hc]; [split; reflexivity|]).
  destruct Hc.
Qed.

Lemma keywords :
  py "null" = [110; 117; 108; 108]%N
  /\ py "true" = [116; 114; 117; 101]%N
  /\ py "false" = [102; 97; 108; 115; 101]%N
  /\ py "NaN" = [78; 97; 78]%N
  /\ py "Infinity" = [73; 110; 102; 105; 110; 105; 116; 121]%N
  /\ py "-Infinity" = [45; 73; 110; 102; 105; 110; 105; 116; 121]%N.
Proof. repeat split; reflexivity. Qed.

Ltac keywords :=
  destruct keywords as (-> & -> & -> & -> & -> & ->).

(** [scan_once] on a text that starts with a number literal. *)
Lemma scan_once_number (fuel : nat) (s : pystr) (p : number_parts) (r : pystr) :
  match_number s = Some (p, r) ->
  scan_once (S fuel) s = inl (number_value p, r).
Proof.
  intros H. destruct (match_number_head s p r H) as (c & s' & -> & Hc).
  cbn [scan_once]. keywords.
  destruct Hc as [Hc | (-> & d & s'' & -> & Hd)].
  - apply isdigit_range in Hc.
    destruct (N.eqb_spec c 34); [lia|].
    destruct (N.eqb_spec c 123); [lia|].
    destruct (N.eqb_spec c 91); [lia|].
    cbn [startswith].
    destruct (N.eqb_spec c 110); [lia|].
    destruct (N.eqb_spec c 116); [lia|].
    destruct (N.eqb_spec c 102); [lia|].
    destruct (N.eqb_spec c 78); [lia|].
    destruct (N.eqb_spec c 73); [lia|].
    destruct (N.eqb_spec c 45); [lia|].
    cbn [andb]. now rewrite H.
  - apply isdigit_range in Hd.
    change (45 =? 34)%N with false. change (45 =? 123)%N with false.
    change (45 =? 91)%N with false. cbv iota.
    cbn [startswith].
    change (45 =? 110)%N with false. change (45 =? 116)%N with false.
    change (45 =? 102)%N with false. change (45 =? 78)%N with false.
    change (45 =? 73)%N with false. change (45 =? 45)%N with true.
    cbn [andb].
    destruct (N.eqb_spec d 73); [lia|].
    cbn [andb]. now rewrite H.
Qed.

Lemma uint_of_codes_of_uint (d : Decimal.uint) :
  uint_of_codes (codes_of_uint d) = d.
Proof. induction d; cbn; now rewrite ?IHd. Qed.

Lemma span_digits_codes (d : Decimal.uint) :
  span_digits (codes_of_uint d) = (codes_of_uint d, []).
Proof. induction d; cbn; now rewrite ?IHd. Qed.

Lemma nzhead_not_D0 (d x : Decimal.uint) : Decimal.nzhead d <> Decimal.D0 x.
Proof. induction d; cbn; try discriminate. exact IHd. Qed.

(** The decimal digits of a number: a lone zero, or digits that start with
    a digit other than zero. *)
Lemma str_of_N_shape (n : N) :
  N_of_codes (str_of_N n) = n
  /\ exists c cs, str_of_N n = c :: cs
       /\ span_digits cs = (cs, [])
       /\ ((c = 48%N /\ cs = []) \/ (49 <= c <= 57)%N).
Proof.
  unfold N_of_codes, str_of_N. rewrite uint_of_codes_of_uint.
  split; [apply DecimalN.Unsigned.of_to|].
  destruct n as [|p].
  - exists 48%N, []. repeat split. now left.
  - cbn [N.to_uint].
    pose proof (DecimalPos.Unsigned.to_uint_nonnil p) as Hnil.
    pose proof (DecimalPos.Unsigned.to_uint_nonzero p) as Hzero.
    assert (Hnorm : Decimal.unorm (Pos.to_uint p) = Pos.to_uint p).
    { rewrite <- (DecimalPos.Unsigned.to_of (Pos.to_uint p)).
      now rewrite DecimalPos.Unsigned.of_to. }
    destruct (Pos.to_uint p) as [|d|d|d|d|d|d|d|d|d|d] eqn:E;
      try congruence;
      try (eexists; eexists; split; [reflexivity|];
           split; [apply span_digits_codes | right; lia]).
    exfalso. unfold Decimal.unorm in Hnorm. cbn [Decimal.nzhead] in Hnorm.
    destruct (Decimal.nzhead d) eqn:En; try discriminate.
    + apply Hzero. symmetry. exact Hnorm.
    + exact (nzhead_not_D0 d _ (eq_trans En Hnorm)).
Qed.

Lemma take_after_int (rest : pystr) :
  delimited rest = true ->
  take_frac rest = ([], rest) /\ take_exp rest = (None, rest).
Proof.
  intros Hd. destruct rest as [|c rest]; [now split|].
  destruct (delimited_head _ _ Hd) as (_ & Hdot & He1 & He2 & _).
  split.
  - destruct rest; [reflexivity|]. cbn [take_frac]. now rewrite Hdot.
  - cbn [take_exp]. now rewrite He1, He2.
Qed.

(** [json.loads] reads a printed integer back. *)
Lemma match_number_int (n : Z) (rest : pystr) :
  delimited rest = true ->
  exists p, match_number (str_of_Z n ++ rest) = Some (p, rest)
            /\ number_value p = JInt n.
Proof.
  intros Hd.
  assert (Hnat : forall (m : N) (neg : bool),
    match_number ((if neg then [45%N] else []) ++ str_of_N m ++ rest)
    = Some (Number neg (str_of_N m) [] None, rest)).
  { intros m neg. destruct (str_of_N_shape m) as (_ & c & cs & E & Hcs & Hc).
    rewrite E. unfold match_number.
    assert (Hs : take_sign ((if neg then [45%N] else []) ++ (c :: cs) ++ rest)
                 = (neg, c :: cs ++ rest)).
    { destruct neg; [reflexivity|]. cbn [app take_sign].
      destruct (N.eqb_spec c 45); [|reflexivity].
      destruct Hc as [[-> _] | Hc]; [discriminate | lia]. }
    rewrite Hs. cbn [take_int].
    destruct (take_after_int rest Hd) as [Hf He].
    destruct Hc as [[-> ->] | Hc].
    - change (48 =? 48)%N with true. cbv iota. cbn [app].
      now rewrite Hf, He.
    - destruct (N.eqb_spec c 48); [lia|].
      assert (Hdig : isdigit c = true)
        by (unfold isdigit; apply andb_true_intro; split; apply N.leb_le; lia).
      rewrite Hdig, (span_digits_app cs rest Hd), Hcs. cbn [fst snd app].
      now rewrite Hf, He. }
  destruct n as [|q|q].
  - exists (Number false (str_of_N 0) [] None). split; [exact (Hnat 0%N false)|].
    reflexivity.
  - exists (Number false (str_of_N (Npos q)) [] None).
    split; [exact (Hnat (Npos q) false)|].
    unfold number_value. cbn [num_frac num_exp num_int num_neg].
    now rewrite (proj1 (str_of_N_shape (Npos q))).
  - exists (Number true (str_of_N (Npos q)) [] None).
    split; [exact (Hnat (Npos q) true)|].
    unfold number_value. cbn [num_frac num_exp num_int num_neg].
    now rewrite (proj1 (str_of_N_shape (Npos q))).
Qed.

Lemma spec_float_eqb_eq (x y : spec_float) :
  spec_float_eqb x y = true -> x = y.
Proof.
  destruct x as [s|s| |s m e], y as [s'|s'| |s' m' e']; cbn; try discriminate.
  - intros H. now rewrite (Bool.eqb_prop _ _ H).
  - intros H. now rewrite (Bool.eqb_prop _ _ H).
  - reflexivity.
  - intros H. apply andb_prop in H as [H He]. apply andb_prop in H as [Hs Hm].
    apply Bool.eqb_prop in Hs. apply Pos.eqb_eq in Hm. apply Z.eqb_eq in He.
    now subst.
Qed.

(** What [float_stable] says of a finite float. *)
Lemma float_stable_finite (x : spec_float) :
  float_stable x = true ->
  (exists s, x = S754_zero s) \/ (exists s, x = S754_infinity s)
  \/ (floatstr x = float_repr x
      /\ exists p, match_number (float_repr x) = Some (p, [])
                   /\ number_value p = JFloat x).
Proof.
  destruct x as [s|s| |s m e]; intros H.
  - left. now exists s.
  - right; left. now exists s.
  - discriminate.
  - right; right. split; [reflexivity|]. unfold float_stable in H.
    destruct (match_number (float_repr (S754_finite s m e))) as [[p [|c r]]|];
      try discriminate.
    exists p. split; [reflexivity|].
    destruct (number_value p) as [| | |y| | |]; try discriminate.
    now rewrite (spec_float_eqb_eq _ _ H).
Qed.

(** [json.loads] reads a printed float back. *)
Lemma scan_once_float (x : spec_float) (fuel : nat) (rest : pystr) :
  float_stable x = true ->
  delimited rest = true ->
  scan_once (S fuel) (floatstr x ++ rest) = inl (JFloat x, rest).
Proof.
  intros Hx Hd.
  destruct (float_stable_finite x Hx) as [[s ->] | [[s ->] | (Hf & p & Hp & Hv)]].
  - assert (H : exists p, match_number (floatstr (S754_zero s)) = Some (p, [])
                          /\ number_value p = JFloat (S754_zero s))
      by (destruct s; eexists; split; reflexivity).
    destruct H as (p & Hp & Hv).
    rewrite (scan_once_number fuel _ p rest), Hv; [reflexivity|].
    now apply (match_number_app _ rest p [] Hd).
  - destruct s; reflexivity.
  - rewrite Hf, (scan_once_number fuel _ p rest), Hv; [reflexivity|].
    now apply (match_number_app _ rest p [] Hd).
Qed.

(** ** Where a serialized value starts and ends *)

Lemma value_start_facts (c : N) :
  value_start c = true ->
  is_json_ws c = false /\ isspace c = false /\ c <> 93%N /\ c <> 125%N
  /\ c <> 96%N /\ c <> 65279%N.
Proof.
  unfold value_start. intros H.
  repeat (apply orb_prop in H as [H | H]);
    try (apply N.eqb_eq in H; subst c; repeat split; (reflexivity || discriminate)).
  destruct (digit_not_space c H) as [Hs Hw]. apply isdigit_range in H.
  repeat split; (assumption || lia).
Qed.

Lemma str_of_Z_head (n : Z) :
  exists c t, str_of_Z n = c :: t /\ value_start c = true.
Proof.
  assert (H : forall m, exists c t, str_of_N m = c :: t /\ value_start c = true).
  { intros m. destruct (str_of_N_shape m) as (_ & c & cs & E & _ & Hc).
    exists c, cs. split; [exact E|]. unfold value_start, isdigit.
    destruct Hc as [[-> _] | Hc]; [reflexivity|].
    replace (48 <=? c)%N with true by (symmetry; apply N.leb_le; lia).
    replace (c <=? 57)%N with true by (symmetry; apply N.leb_le; lia).
    reflexivity. }
  destruct n as [|q|q]; cbn [str_of_Z]; try apply H.
  now exists 45%N, (str_of_N (N.pos q)).
Qed.

Lemma dumps_head (v : json) :
  reserializable v = true ->
  exists c t, dumps v = c :: t /\ value_start c = true.
Proof.
  destruct v as [|[|]|n|x|s|items|items]; cbn [reserializable dumps];
    intros H; try (eexists; eexists; split; reflexivity).
  - apply str_of_Z_head.
  - destruct (float_stable_finite x H)
      as [[[|] ->] | [[[|] ->] | (Hf & p & Hp & _)]];
      try (eexists; eexists; split; reflexivity).
    rewrite Hf. destruct (match_number_head _ _ _ Hp) as (c & t & E & Hc).
    exists c, t. split; [exact E|]. unfold value_start.
    destruct Hc as [-> | [-> _]]; [reflexivity|].
    now rewrite !orb_true_r.
Qed.

Lemma skip_ws_dumps (v : json) (rest : pystr) :
  reserializable v = true -> skip_ws (dumps v ++ rest) = dumps v ++ rest.
Proof.
  intros H. destruct (dumps_head v H) as (c & t & -> & Hc).
  destruct (value_start_facts c Hc) as (Hws & _).
  cbn. now rewrite Hws.
Qed.

(** ** Arrays, objects and the whole value *)

(** Induction on a JSON value, with the property available for the members
    of an array and for the values of an object. *)
Lemma json_ind (P : json -> Prop) :
  P JNone ->
  (forall b, P (JBool b)) ->
  (forall n, P (JInt n)) ->
  (forall x, P (JFloat x)) ->
  (forall s, P (JStr s)) ->
  (forall items, Forall P items -> P (JList items)) ->
  (forall items, Forall (fun kv => P (snd kv)) items -> P (JDict items)) ->
  forall v, P v.
Proof.
  intros HN HB HI HF HS HL HD. fix rec 1. intros [|b|n|x|s|items|items].
  - exact HN.
  - apply HB.
  - apply HI.
  - apply HF.
  - apply HS.
  - apply HL. induction items as [|v items IH]; constructor; [apply rec | exact IH].
  - apply HD. induction items as [|[k v] items IH]; constructor;
      [apply rec | exact IH].
Qed.

Lemma dict_set_fresh (d : list (pystr * json)) (k : pystr) (v : json) :
  ~ In k (map fst d) -> dict_set d k v = d ++ [(k, v)].
Proof.
  induction d as [|[k' v'] d IH]; cbn; intros H; [reflexivity|].
  unfold pystr_eqb. destruct (list_eq_dec N.eq_dec k k') as [->|_].
  - exfalso. apply H. now left.
  - rewrite IH; [reflexivity|]. intros Hin. apply H. now right.
Qed.

Lemma join_comma_cons (p : pystr) (more : list pystr) :
  more <> [] -> join_comma (p :: more) = p ++ [44; 32]%N ++ join_comma more.
Proof. destruct more; [congruence | reflexivity]. Qed.

Lemma skip_ws_space (s : pystr) : skip_ws (32%N :: s) = skip_ws s.
Proof. reflexivity. Qed.

Lemma skip_ws_items (items : list json) (rest : pystr) :
  forallb reserializable items = true ->
  items <> [] ->
  skip_ws (join_comma (map dumps items) ++ rest)
  = join_comma (map dumps items) ++ rest.
Proof.
  destruct items as [|v [|v' items]]; [congruence| |]; intros H _;
    cbn [forallb] in H; apply andb_prop in H as [H _].
  - cbn. now apply skip_ws_dumps.
  - cbn [map]. rewrite join_comma_cons by discriminate.
    rewrite <- app_assoc. now apply skip_ws_dumps.
Qed.

(** The loop over the members of an array reads them back. *)
Lemma parse_array_items_dumps (items : list json) :
  Forall reads_back items ->
  forallb reserializable items = true ->
  fold_right (fun x P => distinct_keys x /\ P) True items ->
  items <> [] ->
  forall (fuel : nat) (acc : list json) (rest : pystr),
    length (join_comma (map dumps items)) + 1 < fuel ->
    parse_array_items fuel (join_comma (map dumps items) ++ 93%N :: rest) acc
    = inl (JList (rev acc ++ items), rest).
Proof.
  induction 1 as [|v items Hv Hitems IH]; [congruence|].
  intros Hr Hk _ fuel acc rest Hfuel.
  cbn [forallb] in Hr. apply andb_prop in Hr as [Hrv Hr].
  cbn [fold_right] in Hk. destruct Hk as [Hkv Hk].
  destruct fuel as [|fuel]; [lia|]. cbn [parse_array_items].
  destruct items as [|v' items].
  - cbn [map join_comma] in Hfuel |- *.
    rewrite (Hv Hrv Hkv fuel (93%N :: rest)) by (reflexivity || lia).
    reflexivity.
  - cbn [map] in Hfuel |- *. rewrite join_comma_cons in Hfuel |- * by discriminate.
    rewrite !length_app in Hfuel. cbn [length] in Hfuel.
    rewrite <- !app_assoc.
    rewrite (Hv Hrv Hkv fuel) by (reflexivity || lia).
    cbn [app skip_ws lstrip_with]. change (is_json_ws 44) with false. cbv iota.
    change (44 =? 93)%N with false. change (44 =? 44)%N with true. cbv iota.
    change (dumps v' :: map dumps items) with (map dumps (v' :: items)).
    rewrite skip_ws_space.
    rewrite (skip_ws_items (v' :: items)) by (assumption || discriminate).
    rewrite (IH Hr Hk ltac:(discriminate) fuel (v :: acc) rest) by (cbn [map]; lia).
    cbn [rev]. now rewrite <- app_assoc.
Qed.

Lemma member_text_cons (k : pystr) (v : json) (rest : pystr) :
  member_text (k, v) ++ rest
  = 34%N :: flat_map escape_char k ++ 34%N :: 58%N :: 32%N :: dumps v ++ rest.
Proof.
  unfold member_text, encode_basestring_ascii. cbn [fst snd app].
  now rewrite <- !app_assoc.
Qed.

Lemma skip_ws_members (items : list (pystr * json)) (rest : pystr) :
  items <> [] ->
  skip_ws (join_comma (map member_text items) ++ rest)
  = join_comma (map member_text items) ++ rest.
Proof.
  destruct items as [|[k v] [|kv items]]; [congruence| |]; intros _.
  - cbn [map join_comma]. now rewrite member_text_cons.
  - cbn [map]. rewrite join_comma_cons by discriminate.
    now rewrite <- app_assoc, member_text_cons.
Qed.

(** The loop over the members of an object reads them back. *)
Lemma parse_object_items_dumps (items : list (pystr * json)) :
  Forall (fun kv => reads_back (snd kv)) items ->
  forallb (fun kv => str_safe (fst kv) && reserializable (snd kv)) items = true ->
  fold_right (fun kv P => distinct_keys (snd kv) /\ P) True items ->
  items <> [] ->
  forall (fuel : nat) (acc : list (pystr * json)) (rest : pystr),
    NoDup (map fst (acc ++ items)) ->
    length (join_comma (map member_text items)) + 1 < fuel ->
    parse_object_items fuel
      (join_comma (map member_text items) ++ 125%N :: rest) acc
    = inl (JDict (acc ++ items), rest).
Proof.
  induction 1 as [|[k v] items Hv Hitems IH]; [congruence|].
  intros Hr Hk _ fuel acc rest Hnd Hfuel.
  cbn [forallb fst snd] in Hr. apply andb_prop in Hr as [Hrv Hr].
  apply andb_prop in Hrv as [Hsk Hrv].
  cbn [fold_right snd] in Hk. destruct Hk as [Hkv Hk]. cbn [snd] in Hv.
  assert (Hfresh : ~ In k (map fst acc)).
  { rewrite map_app in Hnd. cbn [map fst] in Hnd.
    apply NoDup_remove_2 in Hnd. intros Hin. apply Hnd.
    apply in_or_app. now left. }
  destruct fuel as [|fuel]; [lia|].
  assert (Hlen : length (dumps v) < fuel).
  { destruct items as [|kv items]; cbn [map] in Hfuel.
    - cbn [join_comma] in Hfuel. unfold member_text in Hfuel.
      cbn [fst snd] in Hfuel. rewrite !length_app in Hfuel.
      cbn [length] in Hfuel. lia.
    - rewrite join_comma_cons in Hfuel by discriminate.
      unfold member_text at 1 in Hfuel. cbn [fst snd] in Hfuel.
      rewrite !length_app in Hfuel. cbn [length] in Hfuel. lia. }
  assert (Hstep : forall tail,
    delimited tail = true ->
    parse_object_items (S fuel) (member_text (k, v) ++ tail) acc
    = match skip_ws tail with
      | [] => inr (ExpectingComma, 0)
      | (c3 :: r3) as r2' =>
          if (c3 =? 125)%N then inl (JDict (acc ++ [(k, v)]), r3)
          else if (c3 =? 44)%N
               then parse_object_items fuel (skip_ws r3) (acc ++ [(k, v)])
               else inr (ExpectingComma, length r2')
      end).
  { intros tail Htail. rewrite member_text_cons. cbn [parse_object_items].
    change (34 =? 34)%N with true. cbv iota.
    rewrite (scanstring_escaped k Hsk). cbn [rev app].
    change (skip_ws (58%N :: 32%N :: dumps v ++ tail))
      with (58%N :: 32%N :: dumps v ++ tail).
    change (58 =? 58)%N with true. cbv iota.
    rewrite skip_ws_space, (skip_ws_dumps v tail Hrv).
    rewrite (Hv Hrv Hkv fuel tail Hlen Htail).
    now rewrite (dict_set_fresh acc k v Hfresh). }
  destruct items as [|kv items].
  - cbn [map join_comma]. rewrite (Hstep (125%N :: rest) eq_refl).
    reflexivity.
  - cbn [map] in Hfuel |- *. rewrite join_comma_cons in Hfuel |- * by discriminate.
    rewrite <- !app_assoc.
    rewrite (Hstep ([44; 32]%N
                      ++ join_comma (member_text kv :: map member_text items)
                      ++ 125%N :: rest) eq_refl).
    cbn [app skip_ws lstrip_with]. change (is_json_ws 44) with false. cbv iota.
    change (44 =? 125)%N with false. change (44 =? 44)%N with true. cbv iota.
    change (member_text kv :: map member_text items)
      with (map member_text (kv :: items)) in Hfuel |- *.
    rewrite skip_ws_space, skip_ws_members by discriminate.
    rewrite !length_app in Hfuel. cbn [length] in Hfuel.
    rewrite (IH Hr Hk ltac:(discriminate) fuel (acc ++ [(k, v)]) rest).
    + now rewrite <- app_assoc.
    + now rewrite <- app_assoc.
    + lia.
Qed.

Lemma items_text_head (v : json) (items : list json) (rest : pystr)
    (c : N) (t : pystr) :
  dumps v = c :: t ->
  exists t', join_comma (map dumps (v :: items)) ++ rest = c :: t'.
Proof.
  intros E. destruct items as [|v' items]; cbn [map join_comma]; rewrite E;
    eexists; reflexivity.
Qed.

Lemma members_text_head (k : pystr) (v : json) (items : list (pystr * json))
    (rest : pystr) :
  exists t', join_comma (map member_text ((k, v) :: items)) ++ rest = 34%N :: t'.
Proof.
  destruct items as [|kv items]; cbn [map join_comma];
    rewrite <- ?app_assoc, member_text_cons; eexists; reflexivity.
Qed.

(** [json.loads] reads back what [json.dumps] writes, when a delimiter or
    nothing follows. *)
Lemma scan_once_dumps (v : json) : reads_back v.
Proof.
  induction v as [|b|n|x|s|items IH|items IH] using json_ind;
    intros Hr Hk fuel rest Hfuel Hd;
    (destruct fuel as [|fuel]; [lia|]).
  - reflexivity.
  - destruct b; reflexivity.
  - cbn [dumps]. destruct (match_number_int n rest Hd) as (p & Hp & <-).
    now apply scan_once_number.
  - cbn [dumps reserializable] in Hr |- *. now apply scan_once_float.
  - cbn [dumps reserializable] in Hr |- *. now apply scan_once_string.
  - cbn [dumps reserializable distinct_keys] in Hr, Hk, Hfuel |- *.
    rewrite <- !app_assoc. cbn [app scan_once].
    change (91 =? 34)%N with false. change (91 =? 123)%N with false.
    change (91 =? 91)%N with true. cbv iota.
    destruct items as [|v items]; [reflexivity|].
    rewrite skip_ws_items by (assumption || discriminate).
    destruct (dumps_head v) as (c & t & E & Hc).
    { cbn [forallb] in Hr. now apply andb_prop in Hr as [Hr _]. }
    destruct (value_start_facts c Hc) as (_ & _ & Hc93 & _).
    rewrite !length_app in Hfuel. cbn [length] in Hfuel.
    pose proof (parse_array_items_dumps (v :: items) IH Hr Hk
                  ltac:(discriminate) fuel [] rest ltac:(lia)) as Hitems.
    destruct (items_text_head v items (93%N :: rest) c t E) as [t' Etext].
    rewrite Etext in Hitems |- *.
    destruct (N.eqb_spec c 93); [congruence|]. exact Hitems.
  - cbn [dumps reserializable distinct_keys] in Hr, Hk, Hfuel |- *.
    destruct Hk as [Hnd Hk].
    change (map (fun kv => encode_basestring_ascii (fst kv) ++ [58; 32]%N
                           ++ dumps (snd kv)) items)
      with (map member_text items) in Hfuel |- *.
    rewrite <- !app_assoc. cbn [app scan_once].
    change (123 =? 34)%N with false. change (123 =? 123)%N with true. cbv iota.
    destruct items as [|[k v] items]; [reflexivity|].
    rewrite skip_ws_members by discriminate.
    rewrite !length_app in Hfuel. cbn [length] in Hfuel.
    pose proof (parse_object_items_dumps ((k, v) :: items) IH Hr Hk
                  ltac:(discriminate) fuel [] rest Hnd ltac:(lia)) as Hitems.
    destruct (members_text_head k v items (125%N :: rest)) as [t' Etext].
    rewrite Etext in Hitems |- *. exact Hitems.
Qed.


(** [json.loads(json.dumps(v))] is [v]. *)
Lemma loads_dumps (v : json) :
  reserializable v = true -> distinct_keys v -> loads (dumps v) = Return v.
Proof.
  intros Hr Hk. unfold loads, json_decode.
  destruct (dumps_head v Hr) as (c & t & E & Hc).
  destruct (value_start_facts c Hc) as (_ & _ & _ & _ & _ & Hbom).
  assert (Hb : startswith (dumps v) [65279%N] = false).
  { rewrite E. cbn [startswith]. destruct (N.eqb_spec c 65279); [congruence|].
    reflexivity. }
  rewrite Hb.
  pose proof (skip_ws_dumps v [] Hr) as Hws. rewrite app_nil_r in Hws.
  rewrite Hws.
  pose proof (scan_once_dumps v Hr Hk (2 * length (dumps v) + 2) []
                ltac:(lia) eq_refl) as Hs.
  rewrite app_nil_r in Hs. now rewrite Hs.
Qed.

(** ** The characters of a number literal *)

Lemma span_digits_chars (s : pystr) :
  s = fst (span_digits s) ++ snd (span_digits s)
  /\ forallb number_char (fst (span_digits s)) = true.
Proof.
  induction s as [|c s [IH1 IH2]]; [now split|]. cbn [span_digits].
  destruct (isdigit c) eqn:E; [|now split].
  destruct (span_digits s) as [ds r]. cbn [fst snd] in *. split.
  - cbn [app]. now rewrite <- IH1.
  - cbn [forallb]. unfold number_char at 1. now rewrite E, IH2.
Qed.

Lemma match_number_chars (s : pystr) (p : number_parts) (r : pystr) :
  match_number s = Some (p, r) ->
  exists lex, s = lex ++ r /\ forallb number_char lex = true.
Proof.
  unfold match_number.
  assert (Hsign : exists pre, s = pre ++ snd (take_sign s)
                              /\ forallb number_char pre = true).
  { destruct s as [|c s]; [now exists []|]. cbn [take_sign].
    destruct (N.eqb_spec c 45) as [->|_]; [now exists [45%N] | now exists []]. }
  destruct Hsign as (pre & Es & Hpre).
  destruct (take_sign s) as [neg s1]. cbn [snd] in Es.
  assert (Hint : forall ints r0, take_int s1 = Some (ints, r0) ->
                   s1 = ints ++ r0 /\ forallb number_char ints = true).
  { intros ints r0. destruct s1 as [|c s1]; [discriminate|]. cbn [take_int].
    destruct (N.eqb_spec c 48) as [->|_]; [now intros [= <- <-]|].
    destruct (isdigit c) eqn:E; [|discriminate].
    destruct (span_digits_chars s1) as [H1 H2].
    destruct (span_digits s1) as [ds r']. cbn [fst snd] in *.
    intros [= <- <-]. split; [cbn [app]; now rewrite <- H1|].
    cbn [forallb]. unfold number_char at 1. now rewrite E, H2. }
  destruct (take_int s1) as [[ints r0]|]; [|discriminate].
  destruct (Hint ints r0 eq_refl) as [Ei Hints].
  assert (Hfrac : exists mid, r0 = mid ++ snd (take_frac r0)
                              /\ forallb number_char mid = true).
  { destruct r0 as [|dot [|d r0]]; try (now exists []). cbn [take_frac].
    destruct (N.eqb_spec dot 46) as [->|_]; [|now exists []].
    destruct (isdigit d) eqn:E; [|now exists []]. cbn [andb].
    destruct (span_digits_chars r0) as [H1 H2].
    destruct (span_digits r0) as [ds r']. cbn [fst snd] in *.
    exists (46%N :: d :: ds). split; [cbn [app]; now rewrite <- H1|].
    cbn [forallb]. unfold number_char at 2. now rewrite E, H2. }
  destruct Hfrac as (mid & Ef & Hmid).
  destruct (take_frac r0) as [frac r1]. cbn [snd] in Ef.
  assert (Hexp : exists fin, r1 = fin ++ snd (take_exp r1)
                             /\ forallb number_char fin = true).
  { destruct r1 as [|e r1]; [now exists []|]. cbn [take_exp].
    destruct ((e =? 101) || (e =? 69))%N eqn:Ee; [|now exists []].
    assert (He : number_char e = true).
    { unfold number_char. apply orb_prop in Ee as [Ee | Ee]; rewrite Ee;
        now rewrite ?orb_true_r. }
    assert (Hgo : forall (sgn : bool) (sign r2 : pystr),
              r1 = sign ++ r2 -> forallb number_char sign = true ->
              exists fin,
                e :: r1
                = fin ++ snd (match span_digits r2 with
                              | ([], _) => (None, e :: r1)
                              | (ds, r) => (Some (sgn, ds), r)
                              end)
                /\ forallb number_char fin = true).
    { intros sgn sign r2 E12 Hsig.
      destruct (span_digits_chars r2) as [H1 H2].
      destruct (span_digits r2) as [[|d ds] r']; cbn [fst snd] in *.
      - now exists [].
      - exists (e :: sign ++ d :: ds). split.
        + rewrite E12, H1. cbn [app]. now rewrite <- app_assoc.
        + cbn [forallb]. rewrite He. cbn [andb]. rewrite forallb_app, Hsig.
          exact H2. }
    destruct r1 as [|c [|t r1]].
    - apply (Hgo false [] []); reflexivity.
    - apply (Hgo false [] [c]); reflexivity.
    - destruct (N.eqb_spec c 45) as [->|_];
        [apply (Hgo true [45%N] (t :: r1)); reflexivity|].
      destruct (N.eqb_spec c 43) as [->|_];
        [apply (Hgo false [43%N] (t :: r1)); reflexivity|].
      apply (Hgo false [] (c :: t :: r1)); reflexivity. }
  destruct Hexp as (fin & Ee & Hfin).
  destruct (take_exp r1) as [ex r2]. cbn [snd] in Ee.
  intros [= <- <-]. exists (pre ++ ints ++ mid ++ fin). split.
  - rewrite Es, Ei, Ef, Ee. now rewrite <- !app_assoc.
  - now rewrite !forallb_app, Hpre, Hints, Hmid, Hfin.
Qed.

Lemma number_char_facts (c : N) :
  number_char c = true -> isspace c = false /\ c <> 96%N.
Proof.
  unfold number_char. intros H.
  repeat (apply orb_prop in H as [H | H]);
    try (apply N.eqb_eq in H; subst c; split; (reflexivity || discriminate)).
  split; [now apply digit_not_space | apply isdigit_range in H; lia].
Qed.

Lemma number_text_last (s : pystr) :
  s <> [] -> forallb number_char s = true ->
  exists t c, s = t ++ [c] /\ isspace c = false.
Proof.
  intros Hne Hall. destruct (exists_last Hne) as (t & c & ->).
  exists t, c. split; [reflexivity|].
  rewrite forallb_app in Hall. apply andb_prop in Hall as [_ Hc].
  cbn [forallb] in Hc. rewrite andb_true_r in Hc.
  now apply number_char_facts.
Qed.

(** A serialized value ends with a character that [strip] keeps. *)
Lemma dumps_last (v : json) :
  reserializable v = true ->
  exists t c, dumps v = t ++ [c] /\ isspace c = false.
Proof.
  assert (Hnum : forall s p, match_number s = Some (p, []) ->
                   exists t c, s = t ++ [c] /\ isspace c = false).
  { intros s p Hp. destruct (match_number_chars s p [] Hp) as (lex & E & Hall).
    rewrite app_nil_r in E. subst lex. apply number_text_last; [|exact Hall].
    intros ->. discriminate. }
  destruct v as [|[|]|n|x|s|items|items]; cbn [reserializable dumps]; intros H.
  - now exists (py "nul"), 108%N.
  - now exists (py "tru"), 101%N.
  - now exists (py "fals"), 101%N.
  - destruct (match_number_int n [] eq_refl) as (p & Hp & _).
    rewrite app_nil_r in Hp. exact (Hnum _ p Hp).
  - destruct (float_stable_finite x H)
      as [[[|] ->] | [[[|] ->] | (Hf & p & Hp & _)]].
    + now exists (py "-0."), 48%N.
    + now exists (py "0."), 48%N.
    + now exists (py "-Infinit"), 121%N.
    + now exists (py "Infinit"), 121%N.
    + rewrite Hf. exact (Hnum _ p Hp).
  - unfold encode_basestring_ascii.
    exists (34%N :: flat_map escape_char s), 34%N. now split.
  - exists ([91%N] ++ join_comma (map dumps items)), 93%N.
    split; [now rewrite <- app_assoc | reflexivity].
  - eexists ([123%N] ++ join_comma _), 125%N.
    split; [now rewrite <- app_assoc | reflexivity].
Qed.

Lemma strip_dumps (v : json) :
  reserializable v = true -> strip (dumps v) = dumps v.
Proof.
  intros Hr. destruct (dumps_head v Hr) as (c & t & E & Hc).
  destruct (value_start_facts c Hc) as (_ & Hsp & _).
  destruct (dumps_last v Hr) as (t' & c' & E' & Hsp').
  unfold strip, strip_with.
  rewrite E, (lstrip_with_head isspace c t Hsp), <- E, E'.
  now apply rstrip_with_last.
Qed.

(** * The claims *)

(** ** C10: no image uploaded *)

(** C10 (as stated, refuted): with no image uploaded and the model of
    [gradio_app] not loaded, [parse_business_card] returns the
    model-not-loaded failure, not the upload prompt. *)
Lemma no_image_model_not_loaded :
  fst (run (GradioApp.parse_business_card (answering false []) None))
  = Return (error_value (py "VLM model is not loaded. Check server logs."))
  /\ fst (run (GradioApp.parse_business_card (answering false []) None))
     <> Return PLEASE_UPLOAD.
Proof. split; [reflexivity | discriminate]. Qed.

(** C10 (amended): for the input [None], [ollama_Gradio], [ollama_moondream]
    and [new_gradio] return the upload prompt, and [gradio_app] returns it
    when its model is loaded and the model-not-loaded failure otherwise; in
    every case without any encoding, OCR or backend call. *)
Theorem no_image_returns_without_calls (w : world) :
  run (GradioApp.parse_business_card w None)
  = (Return (if vlm_loaded w then PLEASE_UPLOAD
             else error_value (py "VLM model is not loaded. Check server logs.")),
     [])
  /\ run (OllamaGradio.parse_business_card w None) = (Return PLEASE_UPLOAD, [])
  /\ run (OllamaMoondream.parse_business_card w None) = (Return PLEASE_UPLOAD, [])
  /\ run (NewGradio.parse_business_card w None) = (Return PLEASE_UPLOAD, []).
Proof.
  repeat split; try reflexivity.
  unfold GradioApp.parse_business_card. now destruct (vlm_loaded w).
Qed.

(** ** C1: valid JSON that is not an object *)

(** C1 (as stated, refuted): on the reply [[1]], a bare array,
    [gradio_app] returns the array itself. *)
Lemma bare_array_is_returned :
  loads (GradioApp.clean_output (py "[1]")) = Return (JList [JInt 1])
  /\ run (GradioApp.repair_pass (py "[1]")) = (Return (JList [JInt 1]), []).
Proof. split; reflexivity. Qed.

(** C1 (amended): when the candidate text parses to a value that is not an
    object, [gradio_app], [ollama_Gradio] and [ollama_moondream] return that
    value as it is, and [new_gradio] returns a failure value: the
    structuring failure with the message of the [TypeError] that the
    assignment of the extra key raises. *)
Theorem non_object_json_outcome (content ocr_text : pystr) (v : json) :
  is_dict v = false ->
  (loads (GradioApp.clean_output content) = Return v ->
   run (GradioApp.repair_pass content) = (Return v, []))
  /\ (loads (OllamaGradio.clean_output content) = Return v ->
      run (OllamaGradio.repair_pass content) = (Return v, []))
  /\ (loads (OllamaMoondream.clean_output content) = Return v ->
      run (OllamaMoondream.repair_pass content) = (Return v, []))
  /\ (loads (candidate content) = Return v ->
      exists e,
        setitem v NewGradio.RAW_OCR_KEY (JStr ocr_text) = Raise e
        /\ exn_cls e = TypeError
        /\ run (NewGradio.repair_pass ocr_text (ret content))
           = (Return (structuring_failed ocr_text (exn_str e)), [])).
Proof.
  intros Hv. repeat split.
  - intros H. rewrite gradio_app_repair_pass. unfold parsed_or. now rewrite H.
  - intros H. rewrite ollama_gradio_repair_pass. unfold parsed_or. now rewrite H.
  - intros H. rewrite ollama_moondream_repair_pass. unfold parsed_or. now rewrite H.
  - intros H.
    assert (He : exists e, setitem v NewGradio.RAW_OCR_KEY (JStr ocr_text) = Raise e)
      by (destruct v; try discriminate; eexists; reflexivity).
    destruct He as [e He]. exists e. split; [exact He|].
    split; [exact (setitem_raises _ _ _ _ He)|].
    rewrite new_gradio_repair_pass. unfold structured. now rewrite H, He.
Qed.

Lemma non_object_json_outcome_witness :
  run (GradioApp.repair_pass (py "[1]")) = (Return (JList [JInt 1]), [])
  /\ exists e,
       run (NewGradio.repair_pass (py "ACME Corp") (ret (py "[1]")))
       = (Return (structuring_failed (py "ACME Corp") (exn_str e)), []).
Proof.
  destruct (non_object_json_outcome (py "[1]") (py "ACME Corp")
              (JList [JInt 1]) eq_refl) as (H1 & _ & _ & H4).
  split.
  - apply H1. reflexivity.
  - destruct (H4 eq_refl) as (e & _ & _ & He). exists e. exact He.
Defined.

(** ** C3: prose around the object *)

(** C3 (as stated, refuted): on the reply with prose around the object,
    [gradio_app] does not return the object but the parse failure, with the
    whole reply as [raw_output]. *)
Lemma prose_defeats_gradio_app :
  run (GradioApp.repair_pass PROSE_AROUND)
  = (Return (GradioApp.parse_failure PROSE_AROUND), [])
  /\ fst (run (GradioApp.repair_pass PROSE_AROUND)) <> Return NAME_A.
Proof. split; [reflexivity | discriminate]. Qed.

(** C3 (amended): on that reply [new_gradio] discards the prose before the
    first opening brace and after the last closing brace, parses the object
    [{"name": "A"}] and returns it with the OCR text added under
    [_raw_ocr_text]; [gradio_app], [ollama_Gradio] and [ollama_moondream],
    which do not look for braces, return their parse failure with the whole
    reply as [raw_output]. *)
Theorem prose_around_object (ocr_text : pystr) :
  candidate PROSE_AROUND = pyq "{'name': 'A'}"
  /\ loads (candidate PROSE_AROUND) = Return NAME_A
  /\ run (NewGradio.repair_pass ocr_text (ret PROSE_AROUND))
     = (Return (JDict [(py "name", JStr (py "A"));
                       (py "_raw_ocr_text", JStr ocr_text)]), [])
  /\ run (GradioApp.repair_pass PROSE_AROUND)
     = (Return (GradioApp.parse_failure PROSE_AROUND), [])
  /\ run (OllamaGradio.repair_pass PROSE_AROUND)
     = (Return (OllamaGradio.parse_failure PROSE_AROUND), [])
  /\ run (OllamaMoondream.repair_pass PROSE_AROUND)
     = (Return (OllamaMoondream.parse_failure PROSE_AROUND), []).
Proof.
  repeat split; reflexivity.
Qed.

(** ** C2: a closing brace inside a string value *)

(** C2 (as stated, refuted): on the literal input with a closing brace
    inside a string value, the candidate text of [new_gradio] is the whole
    input, not a truncation of it, and [json.loads] accepts it. *)
Lemma brace_in_string_not_truncated :
  ~ (candidate BRACE_IN_STRING <> BRACE_IN_STRING
     \/ exists e, loads (candidate BRACE_IN_STRING) = Raise e).
Proof.
  intros [H | [e H]].
  - apply H. reflexivity.
  - vm_compute in H. discriminate.
Qed.

(** C2 (amended): on that literal the brace span of [new_gradio] runs from
    the first opening brace to the last closing brace, which is the whole
    input, and every variant returns the complete object
    [{"name": "A", "note": "uses a } brace"}], [new_gradio] with the OCR
    text added under [_raw_ocr_text]. *)
Theorem brace_in_string_is_parsed (ocr_text : pystr) :
  candidate BRACE_IN_STRING = BRACE_IN_STRING
  /\ loads BRACE_IN_STRING = Return NAME_A_NOTE
  /\ run (NewGradio.repair_pass ocr_text (ret BRACE_IN_STRING))
     = (Return (JDict [(py "name", JStr (py "A"));
                       (py "note", JStr (py "uses a } brace"));
                       (py "_raw_ocr_text", JStr ocr_text)]), [])
  /\ run (GradioApp.repair_pass BRACE_IN_STRING) = (Return NAME_A_NOTE, [])
  /\ run (OllamaGradio.repair_pass BRACE_IN_STRING) = (Return NAME_A_NOTE, [])
  /\ run (OllamaMoondream.repair_pass BRACE_IN_STRING) = (Return NAME_A_NOTE, []).
Proof. repeat split; reflexivity. Qed.

(** ** C4: a reply in a fenced code block *)

(** C4 (as stated, refuted): a fence without a language tag is not removed
    by [gradio_app]; the interior parses to the empty object, the fenced
    reply gives the parse failure. *)
Lemma untagged_fence_is_not_unwrapped :
  loads ([LF] ++ py "{}" ++ [LF]) = Return (JDict [])
  /\ run (GradioApp.repair_pass UNTAGGED_FENCE)
     = (Return (GradioApp.parse_failure UNTAGGED_FENCE), []).
Proof. split; reflexivity. Qed.

(** C4 (amended): for a reply that consists of the marker [```json], an
    interior and a closing [```], [gradio_app], [ollama_Gradio] and
    [ollama_moondream] return what they return on the interior alone,
    provided the interior does not itself start (after trimming) with the
    marker (for [ollama_moondream]: with a backtick).  On the literal input
    of the specification they return [{"name": "Jane Doe", "title": null}],
    and [new_gradio] returns it with the OCR text added. *)
Theorem json_fence_is_unwrapped (interior ocr_text : pystr) :
  (startswith (strip interior) FENCE_JSON = false ->
   run (GradioApp.repair_pass (FENCE_JSON ++ interior ++ FENCE))
   = run (GradioApp.repair_pass interior)
   /\ run (OllamaGradio.repair_pass (FENCE_JSON ++ interior ++ FENCE))
      = run (OllamaGradio.repair_pass interior))
  /\ (startswith (strip interior) (py "`") = false ->
      run (OllamaMoondream.repair_pass (FENCE_JSON ++ interior ++ FENCE))
      = run (OllamaMoondream.repair_pass interior))
  /\ run (GradioApp.repair_pass FENCED_JANE) = (Return JANE, [])
  /\ run (OllamaGradio.repair_pass FENCED_JANE) = (Return JANE, [])
  /\ run (OllamaMoondream.repair_pass FENCED_JANE) = (Return JANE, [])
  /\ run (NewGradio.repair_pass ocr_text (ret FENCED_JANE))
     = (Return (JDict [(py "name", JStr (py "Jane Doe")); (py "title", JNone);
                       (py "_raw_ocr_text", JStr ocr_text)]), []).
Proof.
  split; [|split; [|repeat split; reflexivity]].
  - intros H. rewrite !gradio_app_repair_pass, !ollama_gradio_repair_pass.
    change OllamaGradio.clean_output with GradioApp.clean_output.
    now rewrite clean_output_fenced, (clean_output_unfenced _ H).
  - intros H. rewrite !ollama_moondream_repair_pass.
    rewrite (moondream_clean_output_unfenced _ H).
    unfold OllamaMoondream.clean_output.
    now rewrite strip_fenced, startswith_app, slice_fenced.
Qed.

Lemma json_fence_is_unwrapped_witness :
  run (GradioApp.repair_pass
         (FENCE_JSON ++ pyq " {'email': 'a@b.c'} " ++ FENCE))
  = run (GradioApp.repair_pass (pyq " {'email': 'a@b.c'} "))
  /\ run (OllamaMoondream.repair_pass
            (FENCE_JSON ++ pyq " {'email': 'a@b.c'} " ++ FENCE))
     = run (OllamaMoondream.repair_pass (pyq " {'email': 'a@b.c'} ")).
Proof.
  destruct (json_fence_is_unwrapped (pyq " {'email': 'a@b.c'} ") [])
    as (H1 & H2 & _).
  split; [apply H1 | apply H2]; reflexivity.
Defined.

(** ** C5: a reply without a brace pair *)

(** C5 (as stated, refuted): the reply [42] contains no brace, and
    [gradio_app] returns the number 42, not a failure value. *)
Lemma brace_free_json_is_returned :
  contains (py "42") (py "{") = false
  /\ contains (py "42") (py "}") = false
  /\ run (GradioApp.repair_pass (py "42")) = (Return (JInt 42), []).
Proof. repeat split; reflexivity. Qed.

(** C5 (amended): for every reply, with or without braces, whose trimmed
    text [json.loads] rejects: [gradio_app] and [ollama_Gradio] return their
    failure value with [raw_output] equal to the trimmed reply when it does
    not start with [```json], [ollama_moondream] when it does not start with
    a backtick; [new_gradio] has no [raw_output] field and returns the
    trimmed reply under [llm_output] when it contains no fence and no brace
    pair. *)
Theorem unparsable_reply_is_returned_trimmed (content ocr_text : pystr) (e : exn) :
  loads (strip content) = Raise e ->
  (startswith (strip content) FENCE_JSON = false ->
   run (GradioApp.repair_pass content)
   = (Return (GradioApp.parse_failure (strip content)), [])
   /\ run (OllamaGradio.repair_pass content)
      = (Return (OllamaGradio.parse_failure (strip content)), []))
  /\ (startswith (strip content) (py "`") = false ->
      run (OllamaMoondream.repair_pass content)
      = (Return (OllamaMoondream.parse_failure (strip content)), []))
  /\ (contains (strip content) FENCE = false ->
      (contains (strip content) (py "{") && contains (strip content) (py "}"))%bool
      = false ->
      run (NewGradio.repair_pass ocr_text (ret content))
      = (Return (json_parse_failed ocr_text (strip content) (exn_str e)), [])).
Proof.
  intros He. repeat split.
  - rewrite gradio_app_repair_pass, (clean_output_unfenced _ H).
    unfold parsed_or. now rewrite He.
  - rewrite ollama_gradio_repair_pass.
    change OllamaGradio.clean_output with GradioApp.clean_output.
    rewrite (clean_output_unfenced _ H). unfold parsed_or. now rewrite He.
  - intros H. rewrite ollama_moondream_repair_pass.
    rewrite (moondream_clean_output_unfenced _ H).
    unfold parsed_or. now rewrite He.
  - intros Hf Hb. rewrite new_gradio_repair_pass. unfold structured.
    now rewrite (candidate_unfenced _ Hf Hb), He.
Qed.

Lemma unparsable_reply_is_returned_trimmed_witness :
  run (GradioApp.repair_pass (py "  I cannot read this card. "))
  = (Return (GradioApp.parse_failure (py "I cannot read this card.")), [])
  /\ exists msg,
       run (NewGradio.repair_pass (py "ACME Corp")
              (ret (py "  I cannot read this card. ")))
       = (Return (json_parse_failed (py "ACME Corp")
                    (py "I cannot read this card.") msg), []).
Proof.
  destruct (unparsable_reply_is_returned_trimmed
              (py "  I cannot read this card. ") (py "ACME Corp")
              (Exn JSONDecodeError (py "Expecting value: line 1 column 1 (char 0)"))
              eq_refl) as (H1 & _ & H3).
  split.
  - apply H1. reflexivity.
  - eexists. apply H3; reflexivity.
Defined.

(** ** C6: what a parse failure reports *)

(** C6 (as stated, refuted): the failure value does not carry the raw model
    text.  [new_gradio] reports only the brace span of a reply with prose
    around it, and [gradio_app], on a reply that opens a [```json] fence and
    is cut short, reports the text without the marker and without its last
    three characters. *)
Lemma failure_value_omits_raw_text :
  run (NewGradio.repair_pass (py "ACME Corp") (ret PROSE_AROUND_BROKEN))
  = (Return (json_parse_failed (py "ACME Corp") (py "{name: A}")
               (py "Expecting property name enclosed in double quotes: line 1 column 2 (char 1)")),
     [])
  /\ carries (json_parse_failed (py "ACME Corp") (py "{name: A}")
                (py "Expecting property name enclosed in double quotes: line 1 column 2 (char 1)"))
       PROSE_AROUND_BROKEN = false
  /\ run (GradioApp.repair_pass FENCE_CUT_SHORT)
     = (Return (GradioApp.parse_failure (pyq "{'name':")), [])
  /\ carries (GradioApp.parse_failure (pyq "{'name':")) FENCE_CUT_SHORT = false.
Proof. repeat split; reflexivity. Qed.

(** C6 (amended): for every reply, no variant raises: each returns a value
    and makes no further call.  When [json.loads] rejects the text handed to
    it, the returned failure value carries that text, which is the reply
    after the variant's cleaning (trimming, fence removal and, in
    [new_gradio], the brace span), under [raw_output] ([llm_output] in
    [new_gradio], next to the OCR text and the parser's message). *)
Theorem parse_failure_is_reported (content ocr_text : pystr) :
  (forall e, loads (GradioApp.clean_output content) = Raise e ->
     run (GradioApp.repair_pass content)
     = (Return (GradioApp.parse_failure (GradioApp.clean_output content)), []))
  /\ (forall e, loads (OllamaGradio.clean_output content) = Raise e ->
        run (OllamaGradio.repair_pass content)
        = (Return (OllamaGradio.parse_failure (OllamaGradio.clean_output content)), []))
  /\ (forall e, loads (OllamaMoondream.clean_output content) = Raise e ->
        run (OllamaMoondream.repair_pass content)
        = (Return (OllamaMoondream.parse_failure
                     (OllamaMoondream.clean_output content)), []))
  /\ (forall e, loads (candidate content) = Raise e ->
        run (NewGradio.repair_pass ocr_text (ret content))
        = (Return (json_parse_failed ocr_text (candidate content) (exn_str e)), []))
  /\ (exists v, run (GradioApp.repair_pass content) = (Return v, []))
  /\ (exists v, run (OllamaGradio.repair_pass content) = (Return v, []))
  /\ (exists v, run (OllamaMoondream.repair_pass content) = (Return v, []))
  /\ (exists v, run (NewGradio.repair_pass ocr_text (ret content)) = (Return v, [])).
Proof.
  repeat split.
  - intros e H. rewrite gradio_app_repair_pass. unfold parsed_or. now rewrite H.
  - intros e H. rewrite ollama_gradio_repair_pass. unfold parsed_or. now rewrite H.
  - intros e H. rewrite ollama_moondream_repair_pass. unfold parsed_or. now rewrite H.
  - intros e H. rewrite new_gradio_repair_pass. unfold structured. now rewrite H.
  - eexists. apply gradio_app_repair_pass.
  - eexists. apply ollama_gradio_repair_pass.
  - eexists. apply ollama_moondream_repair_pass.
  - eexists. apply new_gradio_repair_pass.
Qed.

Lemma parse_failure_is_reported_witness :
  run (GradioApp.repair_pass (py "oops"))
  = (Return (GradioApp.parse_failure (py "oops")), [])
  /\ run (NewGradio.repair_pass (py "ACME Corp") (ret (py "oops")))
     = (Return (json_parse_failed (py "ACME Corp") (py "oops")
                  (py "Expecting value: line 1 column 1 (char 0)")), []).
Proof.
  destruct (parse_failure_is_reported (py "oops") (py "ACME Corp"))
    as (H1 & _ & _ & H4 & _).
  split.
  - exact (H1 (Exn JSONDecodeError (py "Expecting value: line 1 column 1 (char 0)"))
             eq_refl).
  - exact (H4 (Exn JSONDecodeError (py "Expecting value: line 1 column 1 (char 0)"))
             eq_refl).
Defined.

(** The handler of [new_gradio] uses [text]: were the backend call itself to
    raise a [JSONDecodeError], [text] would be unbound and the handler would
    raise [UnboundLocalError] out of the function.  No reply string leads
    there (see [parse_failure_is_reported]). *)
Remark unbound_text_in_handler (ocr_text msg : pystr) :
  exists e,
    fst (run (NewGradio.repair_pass ocr_text
                (lift (Raise (Exn JSONDecodeError msg))))) = Raise e
    /\ exn_cls e = UnboundLocalError.
Proof. eexists. split; reflexivity. Qed.

(** ** C7: what a successful parse returns *)

(** C7 (as stated, refuted): on a successful parse [new_gradio] returns the
    parsed object with the diagnostic field [_raw_ocr_text] added. *)
Lemma diagnostic_field_on_success :
  loads (candidate (pyq "{'name': 'A'}")) = Return NAME_A
  /\ run (NewGradio.repair_pass (py "ACME Corp") (ret (pyq "{'name': 'A'}")))
     = (Return (JDict [(py "name", JStr (py "A"));
                       (py "_raw_ocr_text", JStr (py "ACME Corp"))]), [])
  /\ fst (run (NewGradio.repair_pass (py "ACME Corp") (ret (pyq "{'name': 'A'}"))))
     <> Return NAME_A.
Proof. repeat split; try reflexivity. discriminate. Qed.

(** C7 (amended): on a successful parse [gradio_app], [ollama_Gradio] and
    [ollama_moondream] return exactly the parsed value, whatever keys it
    has, and add nothing; [new_gradio] returns the parsed object with
    [_raw_ocr_text] set to the OCR text (replacing the value of that key if
    the model sent one, added last otherwise). *)
Theorem successful_parse_result (content ocr_text : pystr) (v : json)
    (d : list (pystr * json)) :
  (loads (GradioApp.clean_output content) = Return v ->
   run (GradioApp.repair_pass content) = (Return v, []))
  /\ (loads (OllamaGradio.clean_output content) = Return v ->
      run (OllamaGradio.repair_pass content) = (Return v, []))
  /\ (loads (OllamaMoondream.clean_output content) = Return v ->
      run (OllamaMoondream.repair_pass content) = (Return v, []))
  /\ (loads (candidate content) = Return (JDict d) ->
      run (NewGradio.repair_pass ocr_text (ret content))
      = (Return (JDict (dict_set d NewGradio.RAW_OCR_KEY (JStr ocr_text))), [])).
Proof.
  repeat split; intros H.
  - rewrite gradio_app_repair_pass. unfold parsed_or. now rewrite H.
  - rewrite ollama_gradio_repair_pass. unfold parsed_or. now rewrite H.
  - rewrite ollama_moondream_repair_pass. unfold parsed_or. now rewrite H.
  - rewrite new_gradio_repair_pass. unfold structured. now rewrite H.
Qed.

Lemma successful_parse_result_witness :
  run (GradioApp.repair_pass (pyq "{'name': 'A', 'fax': null}"))
  = (Return (JDict [(py "name", JStr (py "A")); (py "fax", JNone)]), [])
  /\ run (NewGradio.repair_pass (py "ACME Corp")
            (ret (pyq "{'_raw_ocr_text': 1, 'name': 'A'}")))
     = (Return (JDict [(py "_raw_ocr_text", JStr (py "ACME Corp"));
                       (py "name", JStr (py "A"))]), []).
Proof.
  split.
  - exact (proj1 (successful_parse_result (pyq "{'name': 'A', 'fax': null}") []
                    (JDict [(py "name", JStr (py "A")); (py "fax", JNone)]) [])
             eq_refl).
  - exact (proj2 (proj2 (proj2 (successful_parse_result
                    (pyq "{'_raw_ocr_text': 1, 'name': 'A'}") (py "ACME Corp") JNone
                    [(py "_raw_ocr_text", JInt 1); (py "name", JStr (py "A"))])))
             eq_refl).
Defined.

(** ** C8: the conversation of the REPL *)

(** C8 (the code departs from the claim): when the backend call fails, the
    user message already appended stays in the conversation without a
    reply, and the next prompt is appended right after it: two user turns in
    a row, in both scripts.  The conversation is still only appended to (see
    [chat_mode_append_only]). *)
Theorem backend_error_breaks_alternation :
  LlamaCli.chat_mode [BACKEND_FAILS; BACKEND_ANSWERS]
  = [Chat.Message Chat.USER (Chat.Text (py "hi"));
     Chat.Message Chat.USER (Chat.Text (py "hello"));
     Chat.Message Chat.ASSISTANT (Chat.Text (py "Hi there!"))]
  /\ Chat.alternates (LlamaCli.chat_mode [BACKEND_FAILS; BACKEND_ANSWERS]) = false
  /\ MoondreamCli.chat_mode [BACKEND_FAILS; BACKEND_ANSWERS]
     = LlamaCli.chat_mode [BACKEND_FAILS; BACKEND_ANSWERS]
  /\ Chat.alternates (LlamaCli.chat_mode [BACKEND_ANSWERS; BACKEND_ANSWERS]) = true.
Proof. repeat split; reflexivity. Qed.

(** * Further properties of the scripts *)

(** ** The web forms around the repair pass *)

(** X1 (gradio_app.py 72-76, ollama_Gradio.py 26-29, ollama_moondream.py
    34-37): when the image cannot be encoded, each of the three direct
    variants returns the failure value with the message of the exception,
    and the backend is not called. *)
Theorem encoding_failure_stops_before_backend (w : world) (img : image) (e : exn) :
  encode_image w img = Raise e ->
  is_Exception e = true ->
  (vlm_loaded w = true ->
   run (GradioApp.parse_business_card w (Some img))
   = (Return (error_value (py "Failed to process image: " ++ exn_str e)),
      [EvEncode img]))
  /\ run (OllamaGradio.parse_business_card w (Some img))
     = (Return (error_value (py "Failed to process image: " ++ exn_str e)),
        [EvEncode img])
  /\ run (OllamaMoondream.parse_business_card w (Some img))
     = (Return (error_value (py "Failed to process image: " ++ exn_str e)),
        [EvEncode img]).
Proof.
  intros He Hx. repeat split.
  - intros Hl. unfold run, GradioApp.parse_business_card. rewrite Hl.
    unfold try_or_return, call. cbn [negb trace local_text]. now rewrite He, Hx.
  - unfold run, OllamaGradio.parse_business_card, try_or_return, call.
    cbn [trace local_text]. now rewrite He, Hx.
  - unfold run, OllamaMoondream.parse_business_card, try_or_return, call.
    cbn [trace local_text]. now rewrite He, Hx.
Qed.

Lemma encoding_failure_stops_before_backend_witness :
  run (GradioApp.parse_business_card encoder_fails (Some [255; 216]%N))
  = (Return (error_value (py "Failed to process image: cannot identify image file")),
     [EvEncode [255; 216]%N]).
Proof.
  exact (proj1 (encoding_failure_stops_before_backend encoder_fails
                  [255; 216]%N CANNOT_IDENTIFY eq_refl eq_refl) eq_refl).
Defined.

(** X2 (gradio_app.py 110-123, ollama_Gradio.py 81-101, ollama_moondream.py
    59-82): when the backend call raises, each direct variant returns its
    inference failure with the message of the exception, after one encoding
    and one backend call; no [raw_output] is reported. *)
Theorem backend_failure_is_reported (w : world) (img : image) (uri : pystr)
    (e : exn) :
  encode_image w img = Return uri ->
  chat_content w uri = Raise e ->
  is_Exception e = true ->
  (vlm_loaded w = true ->
   run (GradioApp.parse_business_card w (Some img))
   = (Return (error_value (py "VLM inference failed: " ++ exn_str e)),
      [EvEncode img; EvChat uri]))
  /\ run (OllamaGradio.parse_business_card w (Some img))
     = (Return (error_value (py "Ollama inference failed: " ++ exn_str e)),
        [EvEncode img; EvChat uri])
  /\ run (OllamaMoondream.parse_business_card w (Some img))
     = (Return (error_value (py "Ollama inference failed: " ++ exn_str e
                             ++ py ". Is the Ollama server running?")),
        [EvEncode img; EvChat uri]).
Proof.
  intros He Hc Hx. repeat split.
  - intros Hl. unfold run, GradioApp.parse_business_card. rewrite Hl.
    unfold try_or_return, bind, call. cbn [negb trace local_text].
    now rewrite He, Hc, Hx.
  - unfold run, OllamaGradio.parse_business_card, try_or_return, bind, call.
    cbn [trace local_text]. now rewrite He, Hc, Hx.
  - unfold run, OllamaMoondream.parse_business_card, try_or_return, bind, call.
    cbn [trace local_text]. now rewrite He, Hc, Hx.
Qed.

Lemma backend_failure_is_reported_witness :
  run (OllamaMoondream.parse_business_card backend_fails (Some [255; 216]%N))
  = (Return (error_value
               (py "Ollama inference failed: [Errno 111] Connection refused. Is the Ollama server running?")),
     [EvEncode [255; 216]%N; EvChat DATA_URI]).
Proof.
  exact (proj2 (proj2 (backend_failure_is_reported backend_fails [255; 216]%N
                         DATA_URI CONNECTION_REFUSED eq_refl eq_refl eq_refl))).
Defined.

(** X3 (new_gradio.py 122-167): when the backend call of [new_gradio]
    raises, the function returns the structuring failure with the message
    of the exception and the OCR text; but when the exception is a
    [JSONDecodeError], the first handler is entered with [text] unbound and
    the function itself raises [UnboundLocalError]. *)
Theorem structuring_failure_is_reported (w : world) (img : image)
    (text : pystr) (e : exn) :
  llm_loaded w = true ->
  image_to_string w img = Return text ->
  strip text <> [] ->
  contains (strip text) (py "OCR Error") = false ->
  chat_content w (strip text) = Raise e ->
  is_Exception e = true ->
  (is_JSONDecodeError e = false ->
   run (NewGradio.parse_business_card w (Some img))
   = (Return (structuring_failed (strip text) (exn_str e)),
      [EvOCR img; EvChat (strip text)]))
  /\ (is_JSONDecodeError e = true ->
      exists e',
        run (NewGradio.parse_business_card w (Some img))
        = (Raise e', [EvOCR img; EvChat (strip text)])
        /\ exn_cls e' = UnboundLocalError).
Proof.
  intros Hl Ho Hne Hoe Hc Hx.
  assert (Hrun : run (NewGradio.parse_business_card w (Some img))
                 = (let (r, st) :=
                      NewGradio.repair_pass (strip text)
                        (call (EvChat (strip text)) (chat_content w (strip text)))
                        (State None [EvOCR img])
                    in (r, trace st))).
  { unfold run, NewGradio.parse_business_card, NewGradio.extract_text_from_image.
    unfold bind at 1. unfold try_except at 1. unfold bind at 1, call at 1.
    rewrite Ho. cbn [ret trace local_text app].
    destruct (strip text) as [|c s] eqn:Es; [congruence|].
    rewrite Hoe, Hl. reflexivity. }
  rewrite Hrun. unfold NewGradio.repair_pass, try_except, bind, call.
  rewrite Hc. cbn [trace local_text app]. split; intros Hj; rewrite Hj.
  - now rewrite Hx.
  - eexists. split; reflexivity.
Qed.

Lemma structuring_failure_is_reported_witness :
  run (NewGradio.parse_business_card backend_fails (Some [255; 216]%N))
  = (Return (structuring_failed ACME (py "[Errno 111] Connection refused")),
     [EvOCR [255; 216]%N; EvChat ACME]).
Proof.
  exact (proj1 (structuring_failure_is_reported backend_fails [255; 216]%N ACME
                  CONNECTION_REFUSED eq_refl eq_refl
                  ltac:(discriminate) eq_refl eq_refl eq_refl) eq_refl).
Defined.



(** X5 (all four parse_business_card functions): a call makes no retry.  The
    calls of one run are: none; or the encoder (in [new_gradio], the OCR
    engine) alone; or that and then the backend exactly once, with what the
    encoder returned (in [new_gradio], with the trimmed OCR text). *)
Theorem backend_is_called_at_most_once (w : world) (img : image) :
  one_shot (EvEncode img) (fun uri => encode_image w img = Return uri)
    (snd (run (GradioApp.parse_business_card w (Some img))))
  /\ one_shot (EvEncode img) (fun uri => encode_image w img = Return uri)
       (snd (run (OllamaGradio.parse_business_card w (Some img))))
  /\ one_shot (EvEncode img) (fun uri => encode_image w img = Return uri)
       (snd (run (OllamaMoondream.parse_business_card w (Some img))))
  /\ one_shot (EvOCR img)
       (fun sent => exists text,
                      image_to_string w img = Return text /\ sent = strip text)
       (snd (run (NewGradio.parse_business_card w (Some img)))).
Proof.
  repeat split.
  - unfold run, GradioApp.parse_business_card.
    destruct (vlm_loaded w); [|now left].
    unfold try_or_return at 1, call at 1. cbn [negb trace local_text app].
    destruct (encode_image w img) as [uri|e] eqn:E.
    + right. right. exists uri. split; [reflexivity|].
      unfold try_or_return, bind, call. cbn [trace local_text app].
      destruct (chat_content w uri) as [content|e] eqn:C.
      * cbn [ret]. now rewrite gradio_app_parse_output.
      * now destruct (is_Exception e).
    + right. left. now destruct (is_Exception e).
  - unfold run, OllamaGradio.parse_business_card.
    unfold try_or_return at 1, call at 1. cbn [trace local_text app].
    destruct (encode_image w img) as [uri|e] eqn:E.
    + right. right. exists uri. split; [reflexivity|].
      unfold try_or_return, bind, call. cbn [trace local_text app].
      destruct (chat_content w uri) as [content|e] eqn:C.
      * cbn [ret]. now rewrite ollama_gradio_parse_output.
      * now destruct (is_Exception e).
    + right. left. now destruct (is_Exception e).
  - unfold run, OllamaMoondream.parse_business_card.
    unfold try_or_return at 1, call at 1. cbn [trace local_text app].
    destruct (encode_image w img) as [uri|e] eqn:E.
    + right. right. exists uri. split; [reflexivity|].
      unfold try_or_return, bind, call. cbn [trace local_text app].
      destruct (chat_content w uri) as [content|e] eqn:C.
      * cbn [ret]. now rewrite ollama_moondream_parse_output.
      * now destruct (is_Exception e).
    + right. left. now destruct (is_Exception e).
  - unfold run, NewGradio.parse_business_card, NewGradio.extract_text_from_image.
    unfold bind at 1. unfold try_except at 1. unfold bind at 1, call at 1.
    cbn [trace local_text app].
    destruct (image_to_string w img) as [text|e] eqn:E.
    + cbn [ret].
      destruct ((match strip text with [] => true | _ => false end
                 || contains (strip text) (py "OCR Error"))%bool);
        [right; now left|].
      destruct (llm_loaded w); [|right; now left].
      cbn [negb]. right. right. exists (strip text).
      split; [now exists text|].
      destruct (chat_content w (strip text)) as [content|e] eqn:C.
      * now rewrite (new_gradio_repair_from (strip text) content _
                       (State None [EvOCR img])
                       (State None [EvOCR img; EvChat (strip text)]) eq_refl).
      * unfold NewGradio.repair_pass, try_except, bind, call.
        cbn [trace local_text app].
        destruct (is_JSONDecodeError e); [reflexivity|].
        now destruct (is_Exception e).
    + right. left. destruct (is_Exception e); [|reflexivity]. cbn [ret].
      destruct ((match py "OCR Error: " ++ exn_str e with [] => true | _ => false end
                 || contains (py "OCR Error: " ++ exn_str e) (py "OCR Error"))%bool)
        eqn:T; [reflexivity|]. discriminate T.
Qed.

(** ** Trimming *)

Lemma lstrip_blank (p : N -> bool) (ws s : pystr) :
  forallb p ws = true -> lstrip_with p (ws ++ s) = lstrip_with p s.
Proof.
  induction ws as [|c ws IH]; cbn [forallb app lstrip_with]; [reflexivity|].
  intros H. apply andb_prop in H as [Hc Hws]. rewrite Hc. now apply IH.
Qed.

Lemma rstrip_blank (p : N -> bool) (s ws : pystr) :
  forallb p ws = true -> rstrip_with p (s ++ ws) = rstrip_with p s.
Proof.
  intros H. unfold rstrip_with. rewrite rev_app_distr, lstrip_blank;
    [reflexivity|].
  rewrite forallb_forall in *. intros c Hc. apply H. now apply in_rev.
Qed.

Lemma strip_with_blank_end (p : N -> bool) (s ws : pystr) :
  forallb p ws = true -> strip_with p (s ++ ws) = strip_with p s.
Proof.
  intros H. unfold strip_with.
  induction s as [|c s IH]; cbn [app lstrip_with].
  - pose proof (lstrip_blank p ws [] H) as E. rewrite app_nil_r in E.
    now rewrite E.
  - destruct (p c); [exact IH|].
    change (c :: s ++ ws) with ((c :: s) ++ ws). now apply rstrip_blank.
Qed.

Lemma strip_padded (ws1 s ws2 : pystr) :
  blank ws1 = true -> blank ws2 = true -> strip (ws1 ++ s ++ ws2) = strip s.
Proof.
  intros H1 H2. unfold strip, strip_with at 1.
  rewrite (lstrip_blank isspace ws1 _ H1).
  exact (strip_with_blank_end isspace s ws2 H2).
Qed.

Lemma strip_blank (s : pystr) : blank s = true -> strip s = [].
Proof.
  intros H. pose proof (strip_padded s [] [] H eq_refl) as E.
  cbn [app] in E. now rewrite app_nil_r in E.
Qed.

(** ** new_gradio.py before the model is asked *)

(** X6 (new_gradio.py 52-59, 73-76): when the OCR engine raises, or reads
    nothing but whitespace, or reads a text that itself contains the words
    [OCR Error], [new_gradio] returns the extraction failure with the
    details, and the model is not asked, loaded or not. *)
Theorem ocr_failure_skips_the_model (w : world) (img : image) :
  (forall e, image_to_string w img = Raise e -> is_Exception e = true ->
     run (NewGradio.parse_business_card w (Some img))
     = (Return (extraction_failed (py "OCR Error: " ++ exn_str e)), [EvOCR img]))
  /\ (forall text, image_to_string w img = Return text ->
        blank text = true \/ contains (strip text) (py "OCR Error") = true ->
        run (NewGradio.parse_business_card w (Some img))
        = (Return (extraction_failed (strip text)), [EvOCR img])).
Proof.
  split.
  - intros e He Hx.
    unfold run, NewGradio.parse_business_card, NewGradio.extract_text_from_image.
    unfold bind at 1. unfold try_except at 1. unfold bind at 1, call at 1.
    rewrite He, Hx. reflexivity.
  - intros text Ht Hbad.
    unfold run, NewGradio.parse_business_card, NewGradio.extract_text_from_image.
    unfold bind at 1. unfold try_except at 1. unfold bind at 1, call at 1.
    rewrite Ht. cbn [ret trace local_text app].
    destruct Hbad as [Hb | Hc].
    + now rewrite (strip_blank text Hb).
    + rewrite Hc, orb_true_r. reflexivity.
Qed.

Lemma ocr_failure_skips_the_model_witness :
  run (NewGradio.parse_business_card ocr_fails (Some [255; 216]%N))
  = (Return (extraction_failed (py "OCR Error: tesseract is not installed")),
     [EvOCR [255; 216]%N])
  /\ run (NewGradio.parse_business_card
            (ocr_reads (py " OCR Error Analysis Ltd ") true) (Some [255; 216]%N))
     = (Return (extraction_failed (py "OCR Error Analysis Ltd")),
        [EvOCR [255; 216]%N]).
Proof.
  split.
  - exact (proj1 (ocr_failure_skips_the_model ocr_fails [255; 216]%N)
             _ eq_refl eq_refl).
  - exact (proj2 (ocr_failure_skips_the_model
                    (ocr_reads (py " OCR Error Analysis Ltd ") true) [255; 216]%N)
             _ eq_refl (or_intror eq_refl)).
Defined.

(** X7 (new_gradio.py 82-87): when the OCR engine reads a text and the model
    is not loaded, [new_gradio] returns the trimmed OCR text under
    [raw_ocr_text] with the model-not-loaded message, without a backend
    call. *)
Theorem unloaded_model_returns_ocr_text (w : world) (img : image) (text : pystr) :
  image_to_string w img = Return text ->
  strip text <> [] ->
  contains (strip text) (py "OCR Error") = false ->
  llm_loaded w = false ->
  run (NewGradio.parse_business_card w (Some img))
  = (Return (llm_not_loaded (strip text)), [EvOCR img]).
Proof.
  intros Ht Hne Hc Hl.
  unfold run, NewGradio.parse_business_card, NewGradio.extract_text_from_image.
  unfold bind at 1. unfold try_except at 1. unfold bind at 1, call at 1.
  rewrite Ht. cbn [ret trace local_text app].
  destruct (strip text) as [|c s]; [congruence|].
  now rewrite Hc, Hl.
Qed.

Lemma unloaded_model_returns_ocr_text_witness :
  run (NewGradio.parse_business_card (ocr_reads (py " ACME Corp ") false)
         (Some [255; 216]%N))
  = (Return (llm_not_loaded ACME), [EvOCR [255; 216]%N]).
Proof.
  exact (unloaded_model_returns_ocr_text (ocr_reads (py " ACME Corp ") false)
           [255; 216]%N (py " ACME Corp ") eq_refl ltac:(discriminate)
           eq_refl eq_refl).
Defined.

(** ** The repair pass and white space *)

(** X8 (gradio_app.py 116, ollama_Gradio.py 94, ollama_moondream.py 73,
    new_gradio.py 132): white space before and after the reply never
    changes what the repair pass returns, in any variant. *)
Theorem surrounding_whitespace_is_ignored (ws1 content ws2 ocr_text : pystr) :
  blank ws1 = true ->
  blank ws2 = true ->
  run (GradioApp.repair_pass (ws1 ++ content ++ ws2))
  = run (GradioApp.repair_pass content)
  /\ run (OllamaGradio.repair_pass (ws1 ++ content ++ ws2))
     = run (OllamaGradio.repair_pass content)
  /\ run (OllamaMoondream.repair_pass (ws1 ++ content ++ ws2))
     = run (OllamaMoondream.repair_pass content)
  /\ run (NewGradio.repair_pass ocr_text (ret (ws1 ++ content ++ ws2)))
     = run (NewGradio.repair_pass ocr_text (ret content)).
Proof.
  intros H1 H2. repeat split.
  - rewrite !gradio_app_repair_pass. unfold GradioApp.clean_output.
    now rewrite (strip_padded ws1 content ws2 H1 H2).
  - rewrite !ollama_gradio_repair_pass. unfold OllamaGradio.clean_output.
    now rewrite (strip_padded ws1 content ws2 H1 H2).
  - rewrite !ollama_moondream_repair_pass. unfold OllamaMoondream.clean_output.
    now rewrite (strip_padded ws1 content ws2 H1 H2).
  - rewrite !new_gradio_repair_pass. unfold structured, candidate.
    now rewrite (strip_padded ws1 content ws2 H1 H2).
Qed.

Lemma surrounding_whitespace_is_ignored_witness :
  run (GradioApp.repair_pass ([10; 32]%N ++ pyq "{'name': 'A'}" ++ [13; 10]%N))
  = run (GradioApp.repair_pass (pyq "{'name': 'A'}")).
Proof.
  exact (proj1 (surrounding_whitespace_is_ignored [10; 32]%N
                  (pyq "{'name': 'A'}") [13; 10]%N [] eq_refl eq_refl)).
Defined.

(** X9 (gradio_app.py 116-131, ollama_Gradio.py 94-109, ollama_moondream.py
    73-89, new_gradio.py 132-162): an empty reply, or one of white space
    only, gives the parse failure with an empty text: under [raw_output] in
    the direct variants, under [llm_output] in [new_gradio], there with the
    parser's message that a value was expected at the first character. *)
Theorem blank_reply_is_a_parse_failure (content ocr_text : pystr) :
  blank content = true ->
  run (GradioApp.repair_pass content) = (Return (GradioApp.parse_failure []), [])
  /\ run (OllamaGradio.repair_pass content)
     = (Return (OllamaGradio.parse_failure []), [])
  /\ run (OllamaMoondream.repair_pass content)
     = (Return (OllamaMoondream.parse_failure []), [])
  /\ run (NewGradio.repair_pass ocr_text (ret content))
     = (Return (json_parse_failed ocr_text [] EXPECTING_VALUE), []).
Proof.
  intros H. repeat split.
  - rewrite gradio_app_repair_pass. unfold GradioApp.clean_output.
    now rewrite (strip_blank content H).
  - rewrite ollama_gradio_repair_pass. unfold OllamaGradio.clean_output.
    now rewrite (strip_blank content H).
  - rewrite ollama_moondream_repair_pass. unfold OllamaMoondream.clean_output.
    now rewrite (strip_blank content H).
  - rewrite new_gradio_repair_pass. unfold structured, candidate.
    now rewrite (strip_blank content H).
Qed.

Lemma blank_reply_is_a_parse_failure_witness :
  run (NewGradio.repair_pass ACME (ret [32; 10; 9]%N))
  = (Return (json_parse_failed ACME [] EXPECTING_VALUE), []).
Proof.
  exact (proj2 (proj2 (proj2 (blank_reply_is_a_parse_failure [32; 10; 9]%N
                                ACME eq_refl)))).
Defined.

(** ** The repair pass on a serialized value *)

Lemma dumps_not_fenced (v : json) (marker : pystr) :
  reserializable v = true -> startswith (dumps v) (96%N :: marker) = false.
Proof.
  intros Hr. destruct (dumps_head v Hr) as (c & t & -> & Hc).
  destruct (value_start_facts c Hc) as (_ & _ & _ & _ & H96 & _).
  cbn [startswith]. now destruct (N.eqb_spec c 96).
Qed.

Lemma dict_set_same (d : list (pystr * json)) (k : pystr) (x : json) :
  dict_get d k = Some x -> dict_set d k x = d.
Proof.
  induction d as [|[k' x'] d IH]; cbn [dict_get dict_set]; [discriminate|].
  destruct (pystr_eqb k k').
  - now intros [= ->].
  - intros H. now rewrite IH.
Qed.

(** X10 (gradio_app.py 116-128, ollama_Gradio.py 94-106, ollama_moondream.py
    73-86, new_gradio.py 132-154): a reply that is the JSON text of a value,
    as [json.dumps] writes it, comes back from the repair pass of the direct
    variants as that value: the cleaning steps leave such a text as it is.
    (The strings of the value hold no surrogate pair, its floats are finite
    and its keys are pairwise different.)  In [new_gradio] the same holds of
    an object whose text contains no three backticks, up to the
    [_raw_ocr_text] key, which is set; an object that already carries the
    OCR text under that key comes back unchanged. *)
Theorem serialized_value_passes_the_repair_pass (v : json) :
  reserializable v = true ->
  distinct_keys v ->
  run (GradioApp.repair_pass (dumps v)) = (Return v, [])
  /\ run (OllamaGradio.repair_pass (dumps v)) = (Return v, [])
  /\ run (OllamaMoondream.repair_pass (dumps v)) = (Return v, [])
  /\ (forall (d : list (pystr * json)) (ocr_text : pystr),
        v = JDict d ->
        contains (dumps v) FENCE = false ->
        run (NewGradio.repair_pass ocr_text (ret (dumps v)))
        = (Return (JDict (dict_set d NewGradio.RAW_OCR_KEY (JStr ocr_text))), [])
        /\ (dict_get d NewGradio.RAW_OCR_KEY = Some (JStr ocr_text) ->
            run (NewGradio.repair_pass ocr_text (ret (dumps v))) = (Return v, []))).
Proof.
  intros Hr Hk.
  assert (H1 : GradioApp.clean_output (dumps v) = dumps v).
  { rewrite clean_output_unfenced; rewrite (strip_dumps v Hr);
      [reflexivity | exact (dumps_not_fenced v _ Hr)]. }
  assert (H2 : OllamaMoondream.clean_output (dumps v) = dumps v).
  { rewrite moondream_clean_output_unfenced; rewrite (strip_dumps v Hr);
      [reflexivity | exact (dumps_not_fenced v [] Hr)]. }
  repeat split.
  - rewrite gradio_app_repair_pass, H1. unfold parsed_or.
    now rewrite (loads_dumps v Hr Hk).
  - rewrite ollama_gradio_repair_pass.
    change OllamaGradio.clean_output with GradioApp.clean_output.
    rewrite H1. unfold parsed_or. now rewrite (loads_dumps v Hr Hk).
  - rewrite ollama_moondream_repair_pass, H2. unfold parsed_or.
    now rewrite (loads_dumps v Hr Hk).
  - subst v. rewrite new_gradio_repair_pass. unfold structured.
    cbn [dumps app] in H0 |- *. rewrite (candidate_braced _ H0).
    pose proof (loads_dumps (JDict d) Hr Hk) as L. cbn [dumps app] in L.
    now rewrite L.
  - intros Hg. subst v. rewrite new_gradio_repair_pass. unfold structured.
    cbn [dumps app] in H0 |- *. rewrite (candidate_braced _ H0).
    pose proof (loads_dumps (JDict d) Hr Hk) as L. cbn [dumps app] in L.
    rewrite L. cbn [setitem]. now rewrite (dict_set_same d _ _ Hg).
Qed.

Lemma serialized_value_passes_the_repair_pass_witness :
  run (GradioApp.repair_pass
         (dumps (JDict [(py "name", JStr (py "A")); (py "phones", JList [JInt 7; JNone])])))
  = (Return (JDict [(py "name", JStr (py "A")); (py "phones", JList [JInt 7; JNone])]),
     []).
Proof.
  refine (proj1 (serialized_value_passes_the_repair_pass
                   (JDict [(py "name", JStr (py "A"));
                           (py "phones", JList [JInt 7; JNone])]) eq_refl _)).
  cbn. repeat constructor; cbn; intuition discriminate.
Defined.

(** ** The REPL: replies, commands and the conversation *)

Lemma consume_with_choices (guarded : bool) (chunks : list Chat.chunk)
    (acc : pystr) :
  (guarded || forallb has_choices chunks)%bool = true ->
  Chat.consume guarded chunks None acc
  = Return (acc ++ concat (map delta_text chunks)).
Proof.
  revert acc. induction chunks as [|c chunks IH]; intros acc H.
  - cbn. now rewrite app_nil_r.
  - destruct c as [| |content]; cbn [Chat.consume map concat delta_text app].
    + apply IH. destruct guarded; [reflexivity|exact H].
    + destruct guarded; [now apply IH|discriminate H].
    + rewrite app_assoc. apply IH. destruct guarded; [reflexivity|exact H].
Qed.

(** X11 (llama_cli.py 167-174, moondream_cli.py 214-221): the answer kept in
    the conversation is the concatenation, in arrival order, of the contents
    of the streamed chunks.  A chunk whose list of choices is empty is
    skipped by [moondream_cli]; in [llama_cli] it raises [IndexError],
    whatever came before it. *)
Theorem streamed_reply_is_concatenated (chunks : list Chat.chunk)
    (stream_error : option exn) (acc : pystr) :
  Chat.consume true chunks None acc
  = Return (acc ++ concat (map delta_text chunks))
  /\ (forallb has_choices chunks = true ->
      Chat.consume false chunks None acc
      = Return (acc ++ concat (map delta_text chunks)))
  /\ (forallb has_choices chunks = false ->
      Chat.consume false chunks stream_error acc
      = Raise (Exn IndexError (py "list index out of range"))).
Proof.
  split; [now apply consume_with_choices|].
  split; [intros H; now apply consume_with_choices|].
  revert acc. induction chunks as [|c chunks IH]; intros acc H;
    [discriminate H|].
  destruct c; cbn [Chat.consume]; try reflexivity; now apply IH.
Qed.

Lemma streamed_reply_is_concatenated_witness :
  Chat.consume false [Chat.Delta (py "Hi"); Chat.NoChoices; Chat.Delta (py " there!")]
    None []
  = Return (py "Hi there!")
  /\ Chat.consume false [Chat.Delta (py "Hi"); Chat.EmptyChoices] None []
     = Raise (Exn IndexError (py "list index out of range")).
Proof.
  split.
  - exact (proj1 (proj2 (streamed_reply_is_concatenated
                           [Chat.Delta (py "Hi"); Chat.NoChoices;
                            Chat.Delta (py " there!")] None [])) eq_refl).
  - exact (proj2 (proj2 (streamed_reply_is_concatenated
                           [Chat.Delta (py "Hi"); Chat.EmptyChoices] None []))
             eq_refl).
Defined.

Lemma loop_stops_at (split_once : pystr -> pystr -> list pystr) (guarded : bool)
    (t : Chat.turn) (pre post : list Chat.turn) :
  (forall conversation,
     Chat.iteration split_once guarded t conversation
     = (Return Chat.Break, conversation)) ->
  forall conversation,
    Chat.loop split_once guarded (pre ++ t :: post) conversation
    = Chat.loop split_once guarded pre conversation.
Proof.
  intros Ht. induction pre as [|a pre IH]; intros conversation.
  - cbn [app Chat.loop]. unfold bind. now rewrite Ht.
  - cbn [app Chat.loop]. unfold bind.
    destruct (iteration_completes split_once guarded a conversation) as [c ->].
    destruct c; [apply IH | reflexivity].
Qed.

Lemma leaves_not_empty (line : pystr) : leaves line = true -> strip line <> [].
Proof. unfold leaves. intros H E. rewrite E in H. discriminate H. Qed.

(** X12 (llama_cli.py 120-122, 179-181, moondream_cli.py 165-167, 226-228):
    the session ends at the first line that is [exit], [quit] or [q] (in any
    letter case, with white space around it) and at an interrupt of the
    prompt: the conversation stays as it was and nothing typed afterwards is
    read. *)
Theorem session_ends_at_exit_or_interrupt
    (split_once : pystr -> pystr -> list pystr) (guarded : bool)
    (t : Chat.turn) (pre post : list Chat.turn) :
  (exists line, Chat.typed t = Return line /\ leaves line = true)
  \/ (exists e, Chat.typed t = Raise e /\ is_Exception e = false) ->
  Chat.chat_mode split_once guarded (pre ++ t :: post)
  = Chat.chat_mode split_once guarded pre.
Proof.
  intros H. unfold Chat.chat_mode. f_equal. apply loop_stops_at.
  intros conversation. unfold Chat.iteration, try_except, Chat.turn_body.
  unfold bind at 1, lift at 1.
  destruct H as [(line & -> & Hl) | (e & -> & He)].
  - pose proof (leaves_not_empty line Hl) as Hne. unfold leaves in Hl.
    destruct (strip line) as [|c s]; [congruence|]. now rewrite Hl.
  - now rewrite He.
Qed.

Lemma session_ends_at_exit_or_interrupt_witness :
  LlamaCli.chat_mode [BACKEND_ANSWERS; typing (py "  Quit ") []; BACKEND_ANSWERS]
  = LlamaCli.chat_mode [BACKEND_ANSWERS].
Proof.
  exact (session_ends_at_exit_or_interrupt split1 false (typing (py "  Quit ") [])
           [BACKEND_ANSWERS] [BACKEND_ANSWERS]
           (or_introl (ex_intro _ (py "  Quit ") (conj eq_refl eq_refl)))).
Defined.

(** X13 (llama_cli.py 115-118, 182-185, moondream_cli.py 160-163, 229-230):
    an empty line, a line of white space, and an exception raised while
    reading the line (such as the end of the input) add nothing to the
    conversation and do not end the session: the loop goes on to the next
    line. *)
Theorem blank_line_or_input_error_is_skipped
    (split_once : pystr -> pystr -> list pystr) (guarded : bool)
    (t : Chat.turn) (rest : list Chat.turn) (conversation : list Chat.message) :
  (exists line, Chat.typed t = Return line /\ blank line = true)
  \/ (exists e, Chat.typed t = Raise e /\ is_Exception e = true) ->
  Chat.loop split_once guarded (t :: rest) conversation
  = Chat.loop split_once guarded rest conversation.
Proof.
  intros H. cbn [Chat.loop]. unfold bind at 1.
  unfold Chat.iteration, try_except, Chat.turn_body.
  unfold bind at 1, lift at 1.
  destruct H as [(line & -> & Hb) | (e & -> & He)].
  - now rewrite (strip_blank line Hb).
  - now rewrite He.
Qed.

Lemma blank_line_or_input_error_is_skipped_witness :
  Chat.loop rsplit1 true [END_OF_INPUT; BACKEND_ANSWERS] []
  = Chat.loop rsplit1 true [BACKEND_ANSWERS] [].
Proof.
  exact (blank_line_or_input_error_is_skipped rsplit1 true END_OF_INPUT
           [BACKEND_ANSWERS] []
           (or_intror (ex_intro _ (Exn OtherException (py "EOF when reading a line"))
                         (conj eq_refl eq_refl)))).
Defined.

(** X14 (llama_cli.py 155-177, moondream_cli.py 200-224): a prompt without
    [ - ] that the backend answers adds exactly two messages: the user
    message with the trimmed line, and the assistant message with the
    concatenated reply; the backend is sent the whole conversation so far
    with the new user message at its end. *)
Theorem answered_prompt_appends_a_pair
    (split_once : pystr -> pystr -> list pystr) (guarded : bool)
    (t : Chat.turn) (line : pystr) (chunks : list Chat.chunk)
    (rest : list Chat.turn) (conversation : list Chat.message) :
  Chat.typed t = Return line ->
  strip line <> [] ->
  leaves line = false ->
  contains (strip line) Chat.SEPARATOR = false ->
  Chat.completion t
    (conversation ++ [Chat.Message Chat.USER (Chat.Text (strip line))])
  = Return (chunks, None) ->
  (guarded || forallb has_choices chunks)%bool = true ->
  Chat.loop split_once guarded (t :: rest) conversation
  = Chat.loop split_once guarded rest
      (conversation
         ++ [Chat.Message Chat.USER (Chat.Text (strip line));
             Chat.Message Chat.ASSISTANT
               (Chat.Text (concat (map delta_text chunks)))]).
Proof.
  intros Ht Hne Hl Hs Hc Hg. cbn [Chat.loop]. unfold bind at 1.
  unfold Chat.iteration, try_except, Chat.turn_body.
  unfold bind at 1, lift at 1. rewrite Ht. unfold leaves in Hl.
  destruct (strip line) as [|c s] eqn:Es; [congruence|]. rewrite Hl.
  unfold bind at 1, Chat.parse_input. rewrite Hs.
  unfold ret at 1. cbn [fst snd Chat.build_message].
  unfold bind at 1, ret at 1.
  unfold Chat.exchange, Chat.append, Chat.get_conversation, bind, lift, ret.
  rewrite Hc. cbn [fst snd].
  rewrite (consume_with_choices guarded chunks [] Hg). cbn [app].
  now rewrite <- app_assoc.
Qed.

Lemma answered_prompt_appends_a_pair_witness :
  Chat.loop split1 false [BACKEND_ANSWERS] []
  = Chat.loop split1 false []
      [Chat.Message Chat.USER (Chat.Text (py "hello"));
       Chat.Message Chat.ASSISTANT (Chat.Text (py "Hi there!"))].
Proof.
  exact (answered_prompt_appends_a_pair split1 false BACKEND_ANSWERS (py "hello")
           [Chat.Delta (py "Hi"); Chat.Delta (py " there!")] [] []
           eq_refl ltac:(discriminate) eq_refl eq_refl eq_refl eq_refl).
Defined.

Lemma build_message_user (t : Chat.turn) (prompt : pystr)
    (image_path : option pystr) (m : Chat.message)
    (conversation conversation' : list Chat.message) :
  Chat.build_message t prompt image_path conversation
  = (Return (Some m), conversation') ->
  Chat.role m = Chat.USER.
Proof.
  unfold Chat.build_message, try_except, bind, lift, ret.
  destruct image_path as [[|c path]|]; try (now intros [= <- _]).
  destruct (Chat.load_image t (c :: path)) as [uri|e]; [now intros [= <- _]|].
  destruct (is_Exception e); discriminate.
Qed.

Lemma exchange_answered (guarded : bool) (t : Chat.turn) (m : Chat.message)
    (conversation : list Chat.message) :
  backend_answers guarded t ->
  exists r,
    Chat.exchange guarded t m conversation
    = (Return Chat.Continue, conversation ++ exchange_pair (m, r)).
Proof.
  intros H. destruct (H (conversation ++ [m])) as (chunks & Hc & Hg).
  exists (concat (map delta_text chunks)).
  unfold Chat.exchange, Chat.append, Chat.get_conversation, bind, lift, ret.
  rewrite Hc. cbn [fst snd]. rewrite (consume_with_choices guarded chunks [] Hg).
  cbn [app exchange_pair fst snd]. now rewrite <- app_assoc.
Qed.

Lemma turn_body_answered (split_once : pystr -> pystr -> list pystr)
    (guarded : bool) (t : Chat.turn) (conversation : list Chat.message) :
  backend_answers guarded t ->
  exists added,
    snd (Chat.turn_body split_once guarded t conversation) = conversation ++ added
    /\ (added = []
        \/ exists m r, Chat.role m = Chat.USER /\ added = exchange_pair (m, r)).
Proof.
  intros Ha.
  assert (Hnil : exists added : list Chat.message,
             conversation = conversation ++ added
             /\ (added = []
                 \/ exists m r,
                      Chat.role m = Chat.USER /\ added = exchange_pair (m, r)))
    by (exists []; split; [now rewrite app_nil_r | now left]).
  unfold Chat.turn_body, bind at 1, lift at 1.
  destruct (Chat.typed t) as [line|e]; [|exact Hnil].
  destruct (strip line) as [|c user_input]; [exact Hnil|].
  destruct (existsb _ _); [exact Hnil|].
  unfold bind at 1.
  pose proof (parse_input_keeps split_once t (c :: user_input) conversation) as Hp.
  destruct (Chat.parse_input split_once t (c :: user_input) conversation)
    as [[parsed|e] conv1]; cbn [snd] in Hp; subst conv1; [|exact Hnil].
  unfold bind at 1.
  pose proof (build_message_keeps t (fst parsed) (snd parsed) conversation) as Hb.
  destruct (Chat.build_message t (fst parsed) (snd parsed) conversation)
    as [[[m|]|e] conv2] eqn:Hu; cbn [snd] in Hb; subst conv2; try exact Hnil.
  apply build_message_user in Hu.
  destruct (exchange_answered guarded t m conversation Ha) as [r ->].
  exists (exchange_pair (m, r)). split; [reflexivity|]. right. now exists m, r.
Qed.

Lemma pairs_alternate (pairs : list (Chat.message * pystr)) :
  Forall (fun p => Chat.role (fst p) = Chat.USER) pairs ->
  Chat.alternates (flat_map exchange_pair pairs) = true.
Proof.
  unfold Chat.alternates. induction 1 as [|[m r] pairs Hm _ IH]; [reflexivity|].
  cbn [flat_map exchange_pair fst snd app Chat.alternates_from Chat.role].
  cbn [fst] in Hm. rewrite Hm. exact IH.
Qed.

Lemma loop_answered (split_once : pystr -> pystr -> list pystr) (guarded : bool)
    (turns : list Chat.turn) :
  Forall (backend_answers guarded) turns ->
  forall pairs,
    Forall (fun p => Chat.role (fst p) = Chat.USER) pairs ->
    exists pairs',
      Forall (fun p => Chat.role (fst p) = Chat.USER) pairs'
      /\ snd (Chat.loop split_once guarded turns (flat_map exchange_pair pairs))
         = flat_map exchange_pair pairs'.
Proof.
  induction 1 as [|t turns Ht _ IH]; intros pairs Hp.
  - now exists pairs.
  - cbn [Chat.loop]. unfold bind.
    destruct (iteration_completes split_once guarded t
                (flat_map exchange_pair pairs)) as [c ->].
    destruct (turn_body_answered split_once guarded t
                (flat_map exchange_pair pairs) Ht)
      as (added & -> & [-> | (m & r & Hm & ->)]).
    + rewrite app_nil_r. destruct c; [now apply IH | now exists pairs].
    + assert (Hp' : Forall (fun p => Chat.role (fst p) = Chat.USER)
                      (pairs ++ [(m, r)]))
        by (apply Forall_app; split; [exact Hp | now constructor]).
      assert (E : flat_map exchange_pair pairs ++ exchange_pair (m, r)
                  = flat_map exchange_pair (pairs ++ [(m, r)]))
        by (rewrite flat_map_app; cbn [flat_map]; now rewrite app_nil_r).
      rewrite E. destruct c; [now apply IH | now exists (pairs ++ [(m, r)])].
Qed.

(** X15 (llama_cli.py 113-185, moondream_cli.py 158-230): as long as the
    backend answers every request (the stream ends without error and, in
    [llama_cli], holds no chunk with an empty list of choices), the
    conversation is a sequence of pairs, a user message followed by the
    assistant's answer, and so alternates between the two roles, whatever is
    typed and whatever images fail to load. *)
Theorem conversation_alternates_while_backend_answers (turns : list Chat.turn) :
  (Forall (backend_answers false) turns ->
   Chat.alternates (LlamaCli.chat_mode turns) = true
   /\ exists pairs, LlamaCli.chat_mode turns = flat_map exchange_pair pairs)
  /\ (Forall (backend_answers true) turns ->
      Chat.alternates (MoondreamCli.chat_mode turns) = true
      /\ exists pairs, MoondreamCli.chat_mode turns = flat_map exchange_pair pairs).
Proof.
  split; intros H.
  - destruct (loop_answered split1 false turns H [] (Forall_nil _))
      as (pairs & Hp & E).
    unfold LlamaCli.chat_mode, Chat.chat_mode. cbn [flat_map] in E. rewrite E.
    split; [now apply pairs_alternate | now exists pairs].
  - destruct (loop_answered rsplit1 true turns H [] (Forall_nil _))
      as (pairs & Hp & E).
    unfold MoondreamCli.chat_mode, Chat.chat_mode. cbn [flat_map] in E. rewrite E.
    split; [now apply pairs_alternate | now exists pairs].
Qed.

Lemma backend_answers_typing (guarded : bool) (line : pystr)
    (chunks : list Chat.chunk) :
  forallb has_choices chunks = true -> backend_answers guarded (typing line chunks).
Proof.
  intros H conversation. exists chunks. split; [reflexivity|].
  rewrite H. apply orb_true_r.
Qed.

Lemma conversation_alternates_while_backend_answers_witness :
  Chat.alternates
    (LlamaCli.chat_mode [typing (py "hello") [Chat.Delta (py "Hi")];
                         typing (py "") [];
                         typing (py "read this - card.jpg") [Chat.Delta (py "No image.")]])
  = true.
Proof.
  refine (proj1 (proj1 (conversation_alternates_while_backend_answers
                          [typing (py "hello") [Chat.Delta (py "Hi")];
                           typing (py "") [];
                           typing (py "read this - card.jpg")
                             [Chat.Delta (py "No image.")]]) _)).
  repeat constructor; apply backend_answers_typing; reflexivity.
Defined.

Lemma loop_length (split_once : pystr -> pystr -> list pystr) (guarded : bool)
    (turns : list Chat.turn) (conversation : list Chat.message) :
  length (snd (Chat.loop split_once guarded turns conversation))
  <= length conversation + 2 * length turns.
Proof.
  revert conversation. induction turns as [|t turns IH]; intros conversation.
  - cbn. lia.
  - cbn [Chat.loop]. unfold bind.
    destruct (iteration_completes split_once guarded t conversation) as [c ->].
    destruct (turn_body_appends split_once guarded t conversation)
      as (added & -> & Hadded).
    assert (Hlen : length added <= 2)
      by (destruct Hadded as [-> | [[m ->] | (m & r & ->)]]; cbn; lia).
    destruct c.
    + specialize (IH (conversation ++ added)). rewrite length_app in IH.
      cbn [length]. lia.
    + cbn [snd ret]. rewrite length_app. cbn [length]. lia.
Qed.

(** X16 (llama_cli.py 108, 158, 177, moondream_cli.py 153, 203, 224): a
    session that starts from the empty conversation leaves at most two
    messages for each line read. *)
Theorem conversation_has_at_most_two_messages_per_line (turns : list Chat.turn) :
  length (LlamaCli.chat_mode turns) <= 2 * length turns
  /\ length (MoondreamCli.chat_mode turns) <= 2 * length turns.
Proof.
  split.
  - exact (loop_length split1 false turns []).
  - exact (loop_length rsplit1 true turns []).
Qed.

(** ** Where a line is split into prompt and path *)

Lemma SEPARATOR_chars : Chat.SEPARATOR = [32; 45; 32]%N.
Proof. reflexivity. Qed.

Lemma dash_free_cons (c : N) (s : pystr) :
  dash_free (c :: s) = true -> c <> 45%N /\ dash_free s = true.
Proof.
  unfold dash_free. cbn [forallb]. intros H. apply andb_prop in H as [Hc Hs].
  split; [|exact Hs]. intros ->. discriminate Hc.
Qed.

Lemma startswith_dash (c : N) (s marker : pystr) :
  c <> 45%N -> startswith (c :: s) (45%N :: marker) = false.
Proof. intros H. cbn [startswith]. now destruct (N.eqb_spec c 45). Qed.

Lemma startswith_cons (c a : N) (s marker : pystr) :
  startswith (c :: s) (a :: marker) = ((c =? a)%N && startswith s marker)%bool.
Proof. reflexivity. Qed.

Lemma find_cons (c : N) (s sub : pystr) :
  find (c :: s) sub
  = if startswith (c :: s) sub then Some 0 else option_map S (find s sub).
Proof. reflexivity. Qed.

Lemma rfind_cons (c : N) (s sub : pystr) :
  rfind (c :: s) sub
  = match rfind s sub with
    | Some i => Some (S i)
    | None => if startswith (c :: s) sub then Some 0 else None
    end.
Proof. reflexivity. Qed.

Lemma startswith_separator (c : N) (s : pystr) :
  match s with [] => True | d :: _ => d <> 45%N end ->
  startswith (c :: s) [32; 45; 32]%N = false.
Proof.
  intros H. rewrite startswith_cons. destruct s as [|d s]; [apply andb_false_r|].
  rewrite (startswith_dash d s _ H). apply andb_false_r.
Qed.

Lemma find_dash_free (s : pystr) :
  dash_free s = true -> find s Chat.SEPARATOR = None.
Proof.
  rewrite SEPARATOR_chars. induction s as [|c s IH]; intros H; [reflexivity|].
  apply dash_free_cons in H as [Hc Hs]. cbn [find].
  rewrite startswith_separator, (IH Hs); [reflexivity|].
  destruct s as [|d s]; [exact I|]. now apply dash_free_cons in Hs.
Qed.

Lemma find_at_separator (p q : pystr) :
  dash_free p = true ->
  find (p ++ Chat.SEPARATOR ++ q) Chat.SEPARATOR = Some (length p).
Proof.
  induction p as [|c p IH]; intros H.
  - cbn [app length]. apply find_startswith.
    exact (startswith_app Chat.SEPARATOR q).
  - apply dash_free_cons in H as [Hc Hp]. cbn [app find length].
    rewrite (IH Hp), SEPARATOR_chars, startswith_separator; [reflexivity|].
    destruct p as [|d p]; cbn [app]; [discriminate|].
    now apply dash_free_cons in Hp.
Qed.

Lemma rfind_none (s sub : pystr) : find s sub = None -> rfind s sub = None.
Proof.
  intros H. destruct (rfind s sub) as [j|] eqn:E; [|reflexivity].
  destruct (rfind_find s sub j E) as [i Hi]. congruence.
Qed.

Lemma rfind_app_some (p s sub : pystr) (i : nat) :
  rfind s sub = Some i -> rfind (p ++ s) sub = Some (length p + i).
Proof.
  intros H. induction p as [|c p IH]; [exact H|].
  cbn [app rfind length]. now rewrite IH.
Qed.

Lemma rfind_at_separator (p q : pystr) :
  dash_free q = true ->
  rfind (p ++ Chat.SEPARATOR ++ q) Chat.SEPARATOR = Some (length p).
Proof.
  intros H. rewrite (rfind_app_some p _ _ 0); [f_equal; lia|].
  pose proof (find_dash_free q H) as Hq. rewrite SEPARATOR_chars in *.
  assert (H1 : find (32%N :: q) [32; 45; 32]%N = None).
  { rewrite find_cons, startswith_separator, Hq; [reflexivity|].
    destruct q as [|d q]; [exact I|]. now apply dash_free_cons in H. }
  assert (H2 : find (45%N :: 32%N :: q) [32; 45; 32]%N = None).
  { rewrite find_cons, H1. reflexivity. }
  change ([32; 45; 32]%N ++ q) with (32%N :: 45%N :: 32%N :: q).
  rewrite rfind_cons, (rfind_none _ _ H2). reflexivity.
Qed.

Lemma contains_middle (p sub q : pystr) : contains (p ++ sub ++ q) sub = true.
Proof.
  unfold contains. induction p as [|c p IH].
  - cbn [app]. now rewrite (find_startswith _ _ (startswith_app sub q)).
  - cbn [app find]. destruct (startswith (c :: p ++ sub ++ q) sub); [reflexivity|].
    destruct (find (p ++ sub ++ q) sub); [reflexivity | discriminate IH].
Qed.

Lemma firstn_length_app {A : Type} (p s : list A) : firstn (length p) (p ++ s) = p.
Proof. induction p as [|a p IH]; cbn; [now destruct s | now rewrite IH]. Qed.

Lemma skipn_length_app {A : Type} (p s : list A) (n : nat) :
  skipn (length p + n) (p ++ s) = skipn n s.
Proof. induction p as [|a p IH]; cbn; [reflexivity | exact IH]. Qed.

Lemma split_at (p q : pystr) :
  [firstn (length p) (p ++ Chat.SEPARATOR ++ q);
   skipn (length p + length Chat.SEPARATOR) (p ++ Chat.SEPARATOR ++ q)]
  = [p; q].
Proof.
  rewrite firstn_length_app, skipn_length_app, SEPARATOR_chars. reflexivity.
Qed.

Lemma split1_at_separator (p q : pystr) :
  dash_free p = true -> split1 (p ++ Chat.SEPARATOR ++ q) Chat.SEPARATOR = [p; q].
Proof. intros H. unfold split1. rewrite (find_at_separator p q H). apply split_at. Qed.

Lemma rsplit1_at_separator (p q : pystr) :
  dash_free q = true -> rsplit1 (p ++ Chat.SEPARATOR ++ q) Chat.SEPARATOR = [p; q].
Proof. intros H. unfold rsplit1. rewrite (rfind_at_separator p q H). apply split_at. Qed.

Lemma parse_input_parts (split_once : pystr -> pystr -> list pystr)
    (t : Chat.turn) (p q : pystr) (conversation : list Chat.message) :
  split_once (p ++ Chat.SEPARATOR ++ q) Chat.SEPARATOR = [p; q] ->
  Chat.parse_input split_once t (p ++ Chat.SEPARATOR ++ q) conversation
  = (Return (strip p,
             if Chat.path_exists t (strip q) then Some (strip q) else None),
     conversation).
Proof.
  intros H. unfold Chat.parse_input. rewrite contains_middle, H.
  unfold bind, lift, ret, subscript. cbn [nth_error].
  now destruct (Chat.path_exists t (strip q)).
Qed.

(** X17 (llama_cli.py 128-137, moondream_cli.py 174-183): a line
    [p - q] is taken as the prompt [p] and the path [q], both trimmed, the
    path only if it exists.  [llama_cli] splits at the first [ - ] (the
    prompt then holds no hyphen, the path may hold further separators),
    [moondream_cli] at the last (the path then holds no hyphen, the prompt
    may hold further separators). *)
Theorem line_is_split_at_the_separator (t : Chat.turn) (p q : pystr)
    (conversation : list Chat.message) :
  (dash_free p = true ->
   Chat.parse_input split1 t (p ++ Chat.SEPARATOR ++ q) conversation
   = (Return (strip p,
              if Chat.path_exists t (strip q) then Some (strip q) else None),
      conversation))
  /\ (dash_free q = true ->
      Chat.parse_input rsplit1 t (p ++ Chat.SEPARATOR ++ q) conversation
      = (Return (strip p,
                 if Chat.path_exists t (strip q) then Some (strip q) else None),
         conversation)).
Proof.
  split; intros H; apply parse_input_parts;
    [now apply split1_at_separator | now apply rsplit1_at_separator].
Qed.

Lemma line_is_split_at_the_separator_witness :
  Chat.parse_input split1 BACKEND_ANSWERS (py "scan - my - card.jpg") []
  = (Return (py "scan", None), [])
  /\ Chat.parse_input rsplit1 BACKEND_ANSWERS (py "scan - my - card.jpg") []
     = (Return (py "scan - my", None), []).
Proof.
  split.
  - exact (proj1 (line_is_split_at_the_separator BACKEND_ANSWERS (py "scan")
                    (py "my - card.jpg") []) eq_refl).
  - exact (proj2 (line_is_split_at_the_separator BACKEND_ANSWERS (py "scan - my")
                    (py "card.jpg") []) eq_refl).
Defined.

Lemma separator_is_no_command (p q : pystr) :
  existsb (pystr_eqb (lower (p ++ Chat.SEPARATOR ++ q)))
    [py "exit"; py "quit"; py "q"] = false.
Proof.
  assert (Hin : In 45%N (lower (p ++ Chat.SEPARATOR ++ q))).
  { unfold lower. rewrite !map_app. apply in_or_app. right.
    apply in_or_app. left. cbn. auto. }
  assert (Hk : forall k, ~ In 45%N k ->
                 pystr_eqb (lower (p ++ Chat.SEPARATOR ++ q)) k = false).
  { intros k Hn. unfold pystr_eqb.
    destruct (list_eq_dec N.eq_dec _ k) as [E|_]; [|reflexivity].
    exfalso. apply Hn. now rewrite <- E. }
  cbn [existsb]. rewrite !Hk; [reflexivity| | |];
    cbn; intuition discriminate.
Qed.

Lemma unloadable_image_skipped (split_once : pystr -> pystr -> list pystr)
    (guarded : bool) (t : Chat.turn) (line p q : pystr) (e : exn)
    (rest : list Chat.turn) (conversation : list Chat.message) :
  split_once (p ++ Chat.SEPARATOR ++ q) Chat.SEPARATOR = [p; q] ->
  Chat.typed t = Return line ->
  strip line = p ++ Chat.SEPARATOR ++ q ->
  Chat.path_exists t (strip q) = true ->
  strip q <> [] ->
  Chat.load_image t (strip q) = Raise e ->
  is_Exception e = true ->
  Chat.loop split_once guarded (t :: rest) conversation
  = Chat.loop split_once guarded rest conversation.
Proof.
  intros Hs Ht El Hp Hne Hl He. cbn [Chat.loop]. unfold bind at 1.
  unfold Chat.iteration, try_except, Chat.turn_body.
  unfold bind at 1, lift at 1. rewrite Ht, El.
  rewrite separator_is_no_command.
  destruct (p ++ Chat.SEPARATOR ++ q) as [|c s] eqn:E;
    [destruct p; discriminate E|]. cbv iota. rewrite <- E in *.
  unfold bind at 1. rewrite (parse_input_parts split_once t p q conversation Hs).
  rewrite Hp. cbn [fst snd]. unfold bind at 1, Chat.build_message.
  destruct (strip q) as [|d path] eqn:Eq; [congruence|].
  unfold try_except, bind, lift. now rewrite Hl, He.
Qed.

(** X18 (llama_cli.py 140-154, moondream_cli.py 186-199): when the line
    names an existing path whose image cannot be loaded, nothing is added to
    the conversation and the session goes on with the next line: the
    iteration is abandoned before the user message is appended. *)
Theorem unloadable_image_adds_nothing (t : Chat.turn) (line p q : pystr)
    (e : exn) (rest : list Chat.turn) (conversation : list Chat.message) :
  Chat.typed t = Return line ->
  strip line = p ++ Chat.SEPARATOR ++ q ->
  Chat.path_exists t (strip q) = true ->
  strip q <> [] ->
  Chat.load_image t (strip q) = Raise e ->
  is_Exception e = true ->
  (dash_free p = true ->
   Chat.loop split1 false (t :: rest) conversation
   = Chat.loop split1 false rest conversation)
  /\ (dash_free q = true ->
      Chat.loop rsplit1 true (t :: rest) conversation
      = Chat.loop rsplit1 true rest conversation).
Proof.
  intros Ht El Hp Hne Hl He. split; intros Hd.
  - exact (unloadable_image_skipped split1 false t line p q e rest conversation
             (split1_at_separator p q Hd) Ht El Hp Hne Hl He).
  - exact (unloadable_image_skipped rsplit1 true t line p q e rest conversation
             (rsplit1_at_separator p q Hd) Ht El Hp Hne Hl He).
Qed.

Lemma unloadable_image_adds_nothing_witness :
  Chat.loop split1 false [NOT_AN_IMAGE; BACKEND_ANSWERS] []
  = Chat.loop split1 false [BACKEND_ANSWERS] [].
Proof.
  exact (proj1 (unloadable_image_adds_nothing NOT_AN_IMAGE
                  (py "read this - card.png") (py "read this") (py "card.png")
                  CANNOT_IDENTIFY [BACKEND_ANSWERS] []
                  eq_refl eq_refl eq_refl ltac:(discriminate) eq_refl eq_refl)
           eq_refl).
Defined.

(** ** ollama_moondream.py: the health check *)

Lemma name_matches_raises (model_name : pystr) (m : json) (e : exn) :
  ModelCheck.name_matches model_name m = Raise e -> is_Exception e = true.
Proof.
  destruct m as [| | | | | |d]; try discriminate. cbn [ModelCheck.name_matches].
  destruct (dict_get d (py "name")) as [[| | | | | |]|]; try discriminate;
    now intros [= <-].
Qed.

Lemma any_matches_raises (model_name : pystr) (models : list json) (e : exn) :
  ModelCheck.any_matches model_name models = Raise e -> is_Exception e = true.
Proof.
  induction models as [|m models IH]; [discriminate|].
  cbn [ModelCheck.any_matches].
  destruct (ModelCheck.name_matches model_name m) as [[|]|e'] eqn:E.
  - discriminate.
  - exact IH.
  - intros [= <-]. exact (name_matches_raises _ _ _ E).
Qed.

Lemma name_matches_names (model_name : pystr) (m : json) :
  ModelCheck.name_matches model_name m = Return true ->
  ModelCheck.names model_name m = true.
Proof.
  destruct m as [| | | | | |d]; try discriminate.
  cbn [ModelCheck.name_matches ModelCheck.names].
  destruct (dict_get d (py "name")) as [[| | | | | |]|]; try discriminate.
  now intros [= ->].
Qed.

Lemma name_matches_well_formed (model_name : pystr) (m : json) :
  ModelCheck.well_formed m = true ->
  ModelCheck.name_matches model_name m = Return (ModelCheck.names model_name m).
Proof.
  destruct m as [| | | | | |d]; try reflexivity.
  cbn [ModelCheck.name_matches ModelCheck.names ModelCheck.well_formed].
  destruct (dict_get d (py "name")) as [[| | | | | |]|]; try discriminate;
    reflexivity.
Qed.

Lemma any_matches_found (model_name : pystr) (models : list json) :
  ModelCheck.any_matches model_name models = Return true ->
  exists m, In m models /\ ModelCheck.names model_name m = true.
Proof.
  induction models as [|m models IH]; [discriminate|].
  cbn [ModelCheck.any_matches].
  destruct (ModelCheck.name_matches model_name m) as [[|]|e] eqn:E.
  - intros _. exists m. split; [now left | exact (name_matches_names _ _ E)].
  - intros V. destruct (IH V) as (m' & Hin & Hn). exists m'.
    split; [now right | exact Hn].
  - discriminate.
Qed.

(** The health check returns what [verdict] says. *)
Lemma check_verdict (list_models : outcome json) (model_name : pystr)
    (out : list pystr) :
  fst (ModelCheck.check_model_availability list_models model_name out)
  = verdict list_models model_name.
Proof.
  unfold ModelCheck.check_model_availability, verdict, try_except.
  unfold bind at 1, lift at 1.
  destruct list_models as [response|e]; [|now destruct (is_Exception e)].
  destruct response as [|b|n|x|s|items|d];
    try reflexivity.
  - unfold bind, lift, ret, ModelCheck.print. cbn [ModelCheck.py_in].
    destruct (contains s (py "models")); reflexivity.
  - unfold bind, lift, ret, ModelCheck.print. cbn [ModelCheck.py_in].
    destruct (existsb _ items); reflexivity.
  - unfold bind, lift, ret, ModelCheck.print.
    cbn [ModelCheck.py_in ModelCheck.py_get ModelCheck.getitem].
    destruct (dict_get d (py "models")) as [[| | | | |models|]|];
      try reflexivity.
    cbn [negb ModelCheck.is_list ModelCheck.py_iter].
    destruct (ModelCheck.any_matches model_name models) as [[|]|e] eqn:E;
      try reflexivity.
    now rewrite (any_matches_raises _ _ _ E).
Qed.

(** X19 (ollama_moondream.py 93-123): the health check answers [True] only
    if [ollama.list()] returned a [dict] whose [models] is a list that holds
    a [dict] whose [name] is a string starting with the model name. *)
Theorem availability_means_a_listed_model (list_models : outcome json)
    (model_name : pystr) (out out' : list pystr) :
  ModelCheck.check_model_availability list_models model_name out
  = (Return true, out') ->
  exists d models m,
    list_models = Return (JDict d)
    /\ dict_get d (py "models") = Some (JList models)
    /\ In m models
    /\ ModelCheck.names model_name m = true.
Proof.
  intros H. pose proof (check_verdict list_models model_name out) as V.
  rewrite H in V. cbn [fst] in V. unfold verdict in V.
  destruct list_models as [response|e]; [|now destruct (is_Exception e)].
  destruct response as [| | | | | |d]; try discriminate.
  destruct (dict_get d (py "models")) as [[| | | | |models|]|] eqn:Hd;
    try discriminate.
  destruct (ModelCheck.any_matches model_name models) as [[|]|e] eqn:E;
    try discriminate.
  destruct (any_matches_found _ _ E) as (m & Hin & Hn).
  now exists d, models, m.
Qed.

Lemma availability_means_a_listed_model_witness :
  exists d models m,
    Return (listing [JNone; named (py "moondream:latest")]) = Return (JDict d)
    /\ dict_get d (py "models") = Some (JList models)
    /\ In m models
    /\ ModelCheck.names (py "moondream") m = true.
Proof.
  exact (availability_means_a_listed_model
           (Return (listing [JNone; named (py "moondream:latest")]))
           (py "moondream") [] _ eq_refl).
Defined.

(** X20 (ollama_moondream.py 103-123): when every entry of the list is
    something the search can evaluate (not a [dict], or a [dict] without a
    [name], or with a string as [name]), the health check answers whether
    some entry has a name that starts with the model name: a prefix match,
    so that [moondream:latest] counts for [moondream]. *)
Theorem well_formed_list_is_searched (d : list (pystr * json))
    (models : list json) (model_name : pystr) (out : list pystr) :
  dict_get d (py "models") = Some (JList models) ->
  forallb ModelCheck.well_formed models = true ->
  fst (ModelCheck.check_model_availability (Return (JDict d)) model_name out)
  = Return (existsb (ModelCheck.names model_name) models).
Proof.
  intros Hd Hw. rewrite check_verdict. unfold verdict. rewrite Hd.
  assert (E : ModelCheck.any_matches model_name models
              = Return (existsb (ModelCheck.names model_name) models)).
  { clear Hd. induction models as [|m models IH]; [reflexivity|].
    cbn [forallb] in Hw. apply andb_prop in Hw as [Hm Hw].
    cbn [ModelCheck.any_matches existsb].
    rewrite (name_matches_well_formed model_name m Hm).
    destruct (ModelCheck.names model_name m); [reflexivity | exact (IH Hw)]. }
  now rewrite E.
Qed.

Lemma well_formed_list_is_searched_witness :
  fst (ModelCheck.check_model_availability
         (Return (listing [named (py "llava:7b"); named (py "moondream:latest")]))
         (py "moondream") [])
  = Return true.
Proof.
  exact (well_formed_list_is_searched
           [(py "models", JList [named (py "llava:7b"); named (py "moondream:latest")])]
           [named (py "llava:7b"); named (py "moondream:latest")]
           (py "moondream") [] eq_refl eq_refl).
Defined.

(** X21 (ollama_moondream.py 108-111, 125-131): an entry whose [name] is not
    a string, met before any matching entry, ends the search with an
    [AttributeError]: the health check answers [False] and prints the
    connection diagnostic, whatever models are listed after that entry. *)
Theorem malformed_entry_hides_later_models (d : list (pystr * json))
    (before after : list json) (bad : json) (model_name : pystr)
    (out : list pystr) :
  dict_get d (py "models") = Some (JList (before ++ bad :: after)) ->
  Forall (ModelCheck.passed_over model_name) before ->
  ModelCheck.well_formed bad = false ->
  exists e,
    ModelCheck.name_matches model_name bad = Raise e
    /\ ModelCheck.check_model_availability (Return (JDict d)) model_name out
       = (Return false, out ++ CONNECTION_DIAGNOSTIC e).
Proof.
  intros Hd Hb Hbad.
  assert (He : exists e, ModelCheck.name_matches model_name bad = Raise e).
  { destruct bad as [| | | | | |dm]; try discriminate.
    cbn [ModelCheck.well_formed ModelCheck.name_matches] in *.
    destruct (dict_get dm (py "name")) as [[| | | | | |]|]; try discriminate;
      eexists; reflexivity. }
  destruct He as [e He]. exists e. split; [exact He|].
  assert (Ha : ModelCheck.any_matches model_name (before ++ bad :: after) = Raise e).
  { clear Hd. induction Hb as [|m before Hm _ IH];
      cbn [app ModelCheck.any_matches].
    - now rewrite He.
    - unfold ModelCheck.passed_over in Hm. rewrite Hm. exact IH. }
  unfold ModelCheck.check_model_availability, try_except.
  unfold bind, lift, ret, ModelCheck.print.
  cbn [ModelCheck.py_in ModelCheck.py_get ModelCheck.getitem]. rewrite Hd.
  cbn [negb ModelCheck.is_list ModelCheck.py_iter]. rewrite Ha.
  rewrite (name_matches_raises _ _ _ He). unfold CONNECTION_DIAGNOSTIC.
  now rewrite <- !app_assoc.
Qed.

Lemma malformed_entry_hides_later_models_witness :
  fst (ModelCheck.check_model_availability
         (Return (listing [JDict [(py "name", JNone)];
                           named (py "moondream:latest")]))
         (py "moondream") [])
  = Return false.
Proof.
  destruct (malformed_entry_hides_later_models
              [(py "models", JList [JDict [(py "name", JNone)];
                                    named (py "moondream:latest")])]
              [] [named (py "moondream:latest")] (JDict [(py "name", JNone)])
              (py "moondream") [] eq_refl (Forall_nil _) eq_refl)
    as (e & _ & H).
  unfold listing. now rewrite H.
Defined.



(** ** llama_cli.py and moondream_cli.py: the command line *)

Lemma separator_differs (p q k : pystr) :
  ~ In 45%N k -> pystr_eqb (lower (p ++ Chat.SEPARATOR ++ q)) k = false.
Proof.
  intros Hn. unfold pystr_eqb.
  destruct (list_eq_dec N.eq_dec _ k) as [E|_]; [|reflexivity].
  exfalso. apply Hn. rewrite <- E. unfold lower. rewrite !map_app.
  apply in_or_app. right. apply in_or_app. left. cbn. auto.
Qed.

Lemma main_parts (split_once : pystr -> pystr -> list pystr)
    (exits_when_missing : bool) (script : pystr) (args : list pystr)
    (p q : pystr) (path_exists : pystr -> bool) :
  Cli.join_space args = p ++ Chat.SEPARATOR ++ q ->
  split_once (p ++ Chat.SEPARATOR ++ q) Chat.SEPARATOR = [p; q] ->
  Cli.main split_once exits_when_missing (script :: args) path_exists
  = Return (if path_exists (strip q)
            then Cli.CallsProcessQuery (strip p) (Some (strip q))
            else if exits_when_missing then Cli.Exits 1
                 else Cli.CallsProcessQuery (strip p) None).
Proof.
  intros Hj Hs. unfold Cli.main.
  destruct args as [|a args]; [destruct p; discriminate Hj|].
  cbn [length Nat.ltb Nat.leb tl]. rewrite Hj.
  rewrite separator_differs by (cbn; intuition discriminate).
  rewrite contains_middle, Hs. cbn [subscript nth_error].
  destruct (path_exists (strip q)); [reflexivity|].
  now destruct exits_when_missing.
Qed.

(** X23 (llama_cli.py 200-220, moondream_cli.py 246-268): a command
    [p - q] is split like a line of the REPL, [llama_cli] at the first
    [ - ], [moondream_cli] at the last, and [process_query] is called with
    the trimmed prompt and the trimmed path when the path exists.  When it
    does not, [llama_cli] asks the prompt [p] alone (what follows the
    separator is dropped from the question), while [moondream_cli] leaves
    with exit status 1 and asks nothing. *)
Theorem command_is_split_at_the_separator (script : pystr) (args : list pystr)
    (p q : pystr) (path_exists : pystr -> bool) :
  Cli.join_space args = p ++ Chat.SEPARATOR ++ q ->
  (dash_free p = true ->
   LlamaMain.main (script :: args) path_exists
   = Return (Cli.CallsProcessQuery (strip p)
               (if path_exists (strip q) then Some (strip q) else None)))
  /\ (dash_free q = true ->
      MoondreamMain.main (script :: args) path_exists
      = Return (if path_exists (strip q)
                then Cli.CallsProcessQuery (strip p) (Some (strip q))
                else Cli.Exits 1)).
Proof.
  intros Hj. split; intros Hd.
  - unfold LlamaMain.main.
    rewrite (main_parts split1 false script args p q path_exists Hj
               (split1_at_separator p q Hd)).
    now destruct (path_exists (strip q)).
  - unfold MoondreamMain.main.
    exact (main_parts rsplit1 true script args p q path_exists Hj
             (rsplit1_at_separator p q Hd)).
Qed.

Lemma command_is_split_at_the_separator_witness :
  LlamaMain.main [py "llama_cli.py"; py "what is 7 - 3"] (fun _ => false)
  = Return (Cli.CallsProcessQuery (py "what is 7") None)
  /\ MoondreamMain.main [py "moondream_cli.py"; py "what is 7 - 3"] (fun _ => false)
     = Return (Cli.Exits 1).
Proof.
  split.
  - exact (proj1 (command_is_split_at_the_separator (py "llama_cli.py")
                    [py "what is 7 - 3"] (py "what is 7") (py "3")
                    (fun _ => false) eq_refl) eq_refl).
  - exact (proj2 (command_is_split_at_the_separator (py "moondream_cli.py")
                    [py "what is 7 - 3"] (py "what is 7") (py "3")
                    (fun _ => false) eq_refl) eq_refl).
Defined.

Lemma split1_two_parts (s sep : pystr) :
  contains s sep = true -> exists a b, split1 s sep = [a; b].
Proof.
  intros H. destruct (contains_find s sep H) as [i Hi]. unfold split1.
  rewrite Hi. eexists. eexists. reflexivity.
Qed.

Lemma rsplit1_two_parts (s sep : pystr) :
  contains s sep = true -> exists a b, rsplit1 s sep = [a; b].
Proof.
  intros H. destruct (contains_find s sep H) as [i Hi].
  destruct (find_rfind s sep i Hi) as [j Hj]. unfold rsplit1.
  rewrite Hj. eexists. eexists. reflexivity.
Qed.

(** X24 (llama_cli.py 188-220, moondream_cli.py 233-268): [main] raises
    nothing by itself: it ends in a call of [chat_mode] or [process_query]
    or in [sys.exit].  [llama_cli] exits exactly when no argument is given
    (the usage message); any command, whatever it names, reaches the model.
    With no argument [moondream_cli] exits too. *)
Theorem main_exits_without_arguments (argv : list pystr)
    (path_exists : pystr -> bool) :
  (exists r, LlamaMain.main argv path_exists = Return r
             /\ is_exit r = (length argv <? 2)%nat)
  /\ (exists r, MoondreamMain.main argv path_exists = Return r
                /\ ((length argv <? 2)%nat = true -> r = Cli.Exits 1)).
Proof.
  unfold LlamaMain.main, MoondreamMain.main, Cli.main. split.
  - destruct (length argv <? 2)%nat; [now eexists|].
    destruct (pystr_eqb _ _); [now eexists|].
    destruct (contains _ _) eqn:Hc; [|now eexists].
    destruct (split1_two_parts _ _ Hc) as (a & b & ->).
    cbn [subscript nth_error]. destruct (path_exists (strip b)); now eexists.
  - destruct (length argv <? 2)%nat; [now eexists|].
    destruct (pystr_eqb _ _); [eexists; split; [reflexivity|discriminate]|].
    destruct (contains _ _) eqn:Hc;
      [|eexists; split; [reflexivity|discriminate]].
    destruct (rsplit1_two_parts _ _ Hc) as (a & b & ->).
    cbn [subscript nth_error].
    destruct (path_exists (strip b)); eexists; split;
      (reflexivity || discriminate).
Qed.

(** ** llama_cli.py and moondream_cli.py: a single query *)

Lemma printed_app (log more : list Query.effect) :
  Query.printed (log ++ more) = Query.printed log ++ Query.printed more.
Proof. unfold Query.printed. now rewrite map_app, concat_app. Qed.

Lemma requests_app (log more : list Query.effect) :
  Query.requests (log ++ more) = Query.requests log ++ Query.requests more.
Proof. unfold Query.requests. now rewrite flat_map_app. Qed.

Lemma stream_out_prints (guarded : bool) (chunks : list Chat.chunk)
    (log : list Query.effect) :
  (guarded || forallb has_choices chunks)%bool = true ->
  exists log',
    Query.stream_out guarded chunks None log = (Return tt, log')
    /\ Query.printed log' = Query.printed log ++ concat (map delta_text chunks)
    /\ Query.requests log' = Query.requests log.
Proof.
  revert log. induction chunks as [|c chunks IH]; intros log H.
  - exists log. cbn. now rewrite app_nil_r.
  - assert (H' : (guarded || forallb has_choices chunks)%bool = true).
    { destruct guarded; [reflexivity|]. cbn [orb forallb] in *.
      now apply andb_prop in H as [_ H]. }
    destruct c as [| |content]; cbn [Query.stream_out map concat delta_text app].
    + now apply IH.
    + destruct guarded; [now apply IH | discriminate H].
    + unfold bind. destruct content as [|d content].
      * unfold ret. now apply IH.
      * unfold Query.emit.
        destruct (IH (log ++ [Query.Prints (d :: content)]) H')
          as (log' & -> & Hp & Hr).
        exists log'. split; [reflexivity|]. rewrite Hp, Hr, printed_app, requests_app.
        cbn [Query.printed Query.requests map concat flat_map app].
        now rewrite !app_nil_r, <- app_assoc.
Qed.

(** X25 (llama_cli.py 78-98, moondream_cli.py 102-132): a query without an
    image sends the backend one request, holding the prompt as its only
    message (no history), and writes to the standard output the contents of
    the streamed chunks, in arrival order, followed by two line feeds. *)
Theorem query_prints_the_streamed_answer (guarded checks_path : bool)
    (t : Chat.turn) (prompt : pystr) (chunks : list Chat.chunk)
    (log : list Query.effect) :
  Chat.completion t [Chat.Message Chat.USER (Chat.Text prompt)]
  = Return (chunks, None) ->
  (guarded || forallb has_choices chunks)%bool = true ->
  exists log',
    Query.process_query guarded checks_path t prompt None log = (Return tt, log')
    /\ Query.printed log'
       = Query.printed log ++ concat (map delta_text chunks) ++ [10; 10]%N
    /\ Query.requests log'
       = Query.requests log ++ [[Chat.Message Chat.USER (Chat.Text prompt)]].
Proof.
  intros Hc Hg. unfold Query.process_query.
  unfold bind at 1, ret at 1. unfold try_except.
  unfold bind at 1, Query.emit at 1. unfold bind at 1, lift at 1. rewrite Hc.
  cbn [fst snd]. unfold bind at 1.
  destruct (stream_out_prints guarded chunks
              (log ++ [Query.Asks [Chat.Message Chat.USER (Chat.Text prompt)]]) Hg)
    as (log' & -> & Hp & Hr).
  unfold Query.emit. eexists. split; [reflexivity|].
  rewrite !printed_app, !requests_app, Hp, Hr, printed_app, requests_app.
  cbn [Query.printed Query.requests map concat flat_map app].
  rewrite !app_nil_r. split; [now rewrite <- app_assoc | reflexivity].
Qed.

Lemma query_prints_the_streamed_answer_witness :
  exists log',
    LlamaQuery.process_query
      (streaming [Chat.Delta (py "Paris"); Chat.NoChoices; Chat.Delta (py ".")])
      (py "capital of France?") None []
    = (Return tt, log')
    /\ Query.printed log' = py "Paris." ++ [10; 10]%N
    /\ Query.requests log'
       = [[Chat.Message Chat.USER (Chat.Text (py "capital of France?"))]].
Proof.
  exact (query_prints_the_streamed_answer false false
           (streaming [Chat.Delta (py "Paris"); Chat.NoChoices; Chat.Delta (py ".")])
           (py "capital of France?")
           [Chat.Delta (py "Paris"); Chat.NoChoices; Chat.Delta (py ".")] []
           eq_refl eq_refl).
Defined.

(** X26 (llama_cli.py 62-77, moondream_cli.py 81-101): when the image of a
    query cannot be loaded, [process_query] returns without asking the
    backend and without output; in [moondream_cli] the same happens when
    the path does not exist. *)
Theorem unusable_image_ends_the_query (t : Chat.turn) (prompt path : pystr)
    (log : list Query.effect) :
  path <> [] ->
  (forall e, Chat.load_image t path = Raise e -> is_Exception e = true ->
     LlamaQuery.process_query t prompt (Some path) log = (Return tt, log)
     /\ MoondreamQuery.process_query t prompt (Some path) log = (Return tt, log))
  /\ (Chat.path_exists t path = false ->
      MoondreamQuery.process_query t prompt (Some path) log = (Return tt, log)).
Proof.
  intros Hne. destruct path as [|c path]; [congruence|]. split.
  - intros e Hl He.
    unfold LlamaQuery.process_query, MoondreamQuery.process_query,
      Query.process_query.
    split.
    + cbn [andb]. unfold bind, try_except, lift. now rewrite Hl, He.
    + destruct (Chat.path_exists t (c :: path)); cbn [andb negb];
        [|reflexivity].
      unfold bind, try_except, lift. now rewrite Hl, He.
  - intros Hp. unfold MoondreamQuery.process_query, Query.process_query.
    now rewrite Hp.
Qed.

Lemma unusable_image_ends_the_query_witness :
  LlamaQuery.process_query NOT_AN_IMAGE (py "read this") (Some (py "card.png")) []
  = (Return tt, [])
  /\ MoondreamQuery.process_query BACKEND_ANSWERS (py "read this")
       (Some (py "card.png")) []
     = (Return tt, []).
Proof.
  destruct (unusable_image_ends_the_query NOT_AN_IMAGE (py "read this")
              (py "card.png") [] ltac:(discriminate)) as [H1 _].
  destruct (unusable_image_ends_the_query BACKEND_ANSWERS (py "read this")
              (py "card.png") [] ltac:(discriminate)) as [_ H2].
  split.
  - exact (proj1 (H1 CANNOT_IDENTIFY eq_refl eq_refl)).
  - exact (H2 eq_refl).
Defined.

Lemma stream_out_cut_short (chunks : list Chat.chunk)
    (stream_error : option exn) (log : list Query.effect) :
  forallb has_choices chunks = false ->
  exists log',
    Query.stream_out false chunks stream_error log
    = (Raise (Exn IndexError (py "list index out of range")), log')
    /\ Query.printed log'
       = Query.printed log ++ concat (map delta_text (before_empty chunks))
    /\ Query.requests log' = Query.requests log.
Proof.
  revert log. induction chunks as [|c chunks IH]; intros log H;
    [discriminate H|].
  destruct c as [| |content];
    cbn [Query.stream_out before_empty has_choices map concat delta_text app].
  - now apply IH.
  - exists log. cbn. now rewrite app_nil_r.
  - unfold bind. destruct content as [|d content].
    + unfold ret. now apply IH.
    + unfold Query.emit.
      destruct (IH (log ++ [Query.Prints (d :: content)]) H)
        as (log' & -> & Hp & Hr).
      exists log'. split; [reflexivity|]. rewrite Hp, Hr, printed_app, requests_app.
      cbn [Query.printed Query.requests map concat flat_map app].
      now rewrite !app_nil_r, <- app_assoc.
Qed.

(** X27 (llama_cli.py 83-103): in [llama_cli], a chunk with an empty list of
    choices cuts the answer of a query short.  What the chunks before it
    held has been printed and stays; nothing more is printed, not even the
    closing line feeds; and the [IndexError] does not leave the function. *)
Theorem empty_choices_cut_the_answer_short (t : Chat.turn) (prompt : pystr)
    (chunks : list Chat.chunk) (stream_error : option exn)
    (log : list Query.effect) :
  Chat.completion t [Chat.Message Chat.USER (Chat.Text prompt)]
  = Return (chunks, stream_error) ->
  forallb has_choices chunks = false ->
  exists log',
    LlamaQuery.process_query t prompt None log = (Return tt, log')
    /\ Query.printed log'
       = Query.printed log ++ concat (map delta_text (before_empty chunks)).
Proof.
  intros Hc Hg. unfold LlamaQuery.process_query, Query.process_query.
  unfold bind at 1, ret at 1. unfold try_except.
  unfold bind at 1, Query.emit at 1. unfold bind at 1, lift at 1. rewrite Hc.
  cbn [fst snd]. unfold bind at 1.
  destruct (stream_out_cut_short chunks stream_error
              (log ++ [Query.Asks [Chat.Message Chat.USER (Chat.Text prompt)]]) Hg)
    as (log' & -> & Hp & _).
  exists log'. split; [reflexivity|].
  rewrite Hp, printed_app. cbn [Query.printed map concat app].
  now rewrite app_nil_r.
Qed.

Lemma empty_choices_cut_the_answer_short_witness :
  exists log',
    LlamaQuery.process_query
      (streaming [Chat.Delta (py "Par"); Chat.EmptyChoices; Chat.Delta (py "is")])
      (py "capital of France?") None []
    = (Return tt, log')
    /\ Query.printed log' = py "Par".
Proof.
  exact (empty_choices_cut_the_answer_short
           (streaming [Chat.Delta (py "Par"); Chat.EmptyChoices; Chat.Delta (py "is")])
           (py "capital of France?")
           [Chat.Delta (py "Par"); Chat.EmptyChoices; Chat.Delta (py "is")] None []
           eq_refl eq_refl).
Defined.

Lemma main_exits_without_arguments_witness :
  exists r,
    MoondreamMain.main [py "moondream_cli.py"] (fun _ => true) = Return r
    /\ r = Cli.Exits 1.
Proof.
  destruct (main_exits_without_arguments [py "moondream_cli.py"] (fun _ => true))
    as (_ & r & Hr & Hx).
  exists r. split; [exact Hr | exact (Hx eq_refl)].
Defined.
